(** * sqlblaster: the credential-trial pipeline

    A shallow embedding of the pipeline of [sqlblaster.go]:
    the source streams ([singleValueChannel], [streamLinesFromFile],
    [resumeStreamFromFile]), the pair generator ([buildCredentialPairs]),
    the progress estimate ([countLines] and the [totalTests] block of
    [performTesting]) and the bounded worker pool of [performTesting].

    Conventions.
    - A Go [string] is a byte sequence: [String.string].
    - A channel that is written by one goroutine, closed, and read to
      exhaustion by one reader is the list of the values sent, in order.
    - A file is what [bufio.Scanner] hands to the loop: [None] when
      [os.Open] fails, otherwise the successive values of
      [scanner.Text()] until [scanner.Scan()] returns false.
    - Go's [int] is the 64-bit two's-complement integer of the usual
      targets; arithmetic on it is written with [wrap]. *)

From Stdlib Require Import String Ascii List ZArith Lia Bool.
From stdpp Require Import base tactics option list.
Import ListNotations.

Local Open Scope string_scope.
Local Open Scope list_scope.

(** ** Go's [int] *)

Module GoInt.

Definition bits : Z := 64.
Definition modulus : Z := 2 ^ bits.
Definition maxInt : Z := 2 ^ (bits - 1) - 1.
Definition minInt : Z := - 2 ^ (bits - 1).

(** Two's-complement reduction of a mathematical integer. *)
Definition wrap (z : Z) : Z :=
  ((z + 2 ^ (bits - 1)) mod modulus - 2 ^ (bits - 1))%Z.

Definition add (a b : Z) : Z := wrap (a + b).
Definition mul (a b : Z) : Z := wrap (a * b).

End GoInt.

(** ** [strings.TrimSpace]

    [strings.TrimSpace] cuts, at both ends, the runes for which
    [unicode.IsSpace] holds.  On a UTF-8 byte string these are exactly
    the encodings below: a malformed or truncated sequence decodes to
    [utf8.RuneError], which is not white space. *)

Module Strings.

Definition isAsciiSpace (a : N) : bool :=
  ((9 <=? a) && (a <=? 13) || (a =? 32))%N.

(** U+0085 and U+00A0. *)
Definition spaceRune2 (a b : N) : bool :=
  ((a =? 0xC2) && ((b =? 0x85) || (b =? 0xA0)))%N.

(** U+1680, U+2000..U+200A, U+2028, U+2029, U+202F, U+205F, U+3000. *)
Definition spaceRune3 (a b c : N) : bool :=
  ((a =? 0xE1) && (b =? 0x9A) && (c =? 0x80)
   || (a =? 0xE2) && (b =? 0x80)
      && ((0x80 <=? c) && (c <=? 0x8A) || (c =? 0xA8) || (c =? 0xA9) || (c =? 0xAF))
   || (a =? 0xE2) && (b =? 0x81) && (c =? 0x9F)
   || (a =? 0xE3) && (b =? 0x80) && (c =? 0x80))%N.

Section Trim.

(** The two- and three-byte tests, in the order the bytes are met:
    front to back for the left cut, back to front for the right. *)
Variable p2 : N -> N -> bool.
Variable p3 : N -> N -> N -> bool.

Definition headSpace (s : list ascii) : bool :=
  match s with
  | [] => false
  | c1 :: r1 =>
      isAsciiSpace (N_of_ascii c1) ||
      match r1 with
      | [] => false
      | c2 :: r2 =>
          p2 (N_of_ascii c1) (N_of_ascii c2) ||
          match r2 with
          | [] => false
          | c3 :: _ => p3 (N_of_ascii c1) (N_of_ascii c2) (N_of_ascii c3)
          end
      end
  end.

Fixpoint trimWith (s : list ascii) : list ascii :=
  match s with
  | [] => []
  | c1 :: r1 =>
      if isAsciiSpace (N_of_ascii c1) then trimWith r1 else
      match r1 with
      | [] => s
      | c2 :: r2 =>
          if p2 (N_of_ascii c1) (N_of_ascii c2) then trimWith r2 else
          match r2 with
          | [] => s
          | c3 :: r3 =>
              if p3 (N_of_ascii c1) (N_of_ascii c2) (N_of_ascii c3)
              then trimWith r3 else s
          end
      end
  end.

End Trim.

Definition trimLeft (s : list ascii) : list ascii :=
  trimWith spaceRune2 spaceRune3 s.

Definition trimRight (s : list ascii) : list ascii :=
  rev (trimWith (fun b a => spaceRune2 a b)
                (fun c b a => spaceRune3 a b c) (rev s)).

Definition TrimSpace (s : string) : string :=
  string_of_list_ascii (trimRight (trimLeft (list_ascii_of_string s))).

End Strings.

Import Strings.

(** ** Source streams *)

(** [None]: [os.Open] fails.  [Some lines]: the values of
    [scanner.Text()], one per successful [scanner.Scan()]. *)
Definition FileSystem : Type := string -> option (list string).

(** [singleValueChannel]: a one-slot channel holding [value], closed. *)
Definition singleValueChannel (value : string) : list string := [value].

(** [streamLinesFromFile]: the loop body sends the trimmed line when it
    is not empty ([lineCount] only feeds the verbose output). *)
Definition streamLinesFromFile (fs : FileSystem) (filename : string)
  : list string :=
  match fs filename with
  | None => []
  | Some lines =>
      fold_left
        (fun ch text =>
           let line := TrimSpace text in
           if negb (line =? "") then ch ++ [line] else ch)
        lines []
  end.

(** One iteration of the scan loop of [resumeStreamFromFile], on the
    pair ([foundLast], values sent so far). *)
Definition resumeStep (lastValue : string)
    (st : bool * list string) (text : string) : bool * list string :=
  let '(foundLast, ch) := st in
  let line := TrimSpace text in
  if line =? "" then st
  else if foundLast then (foundLast, ch ++ [line])
  else if line =? lastValue then (true, ch)
  else st.

Definition resumeStreamFromFile (fs : FileSystem)
    (filename lastValue : string) : list string :=
  match fs filename with
  | None => []
  | Some lines =>
      let foundLast := if lastValue =? "" then true else false in
      snd (fold_left (resumeStep lastValue) lines (foundLast, []))
  end.

(** [countLines]: 0 when the file cannot be opened. *)
Definition countLines (fs : FileSystem) (filename : string) : Z :=
  match fs filename with
  | None => 0%Z
  | Some lines =>
      fold_left
        (fun count text =>
           if negb (TrimSpace text =? "") then GoInt.add count 1 else count)
        lines 0%Z
  end.

(** ** Pair generator *)

Record Credential : Type := mkCredential { user : string; pass : string }.

(** [for x := range ch { xs = append(xs, x) }] *)
Definition drain (ch : list string) : list string :=
  fold_left (fun xs x => xs ++ [x]) ch [].

(** The values sent on [credChan], in order. *)
Definition buildCredentialPairs (userChan passChan : list string)
    (userFirst : bool) : list Credential :=
  if userFirst then
    let users := drain userChan in
    let passwords := drain passChan in
    fold_left
      (fun credChan u =>
         fold_left (fun credChan p => credChan ++ [mkCredential u p])
                   passwords credChan)
      users []
  else
    let users := drain userChan in
    fold_left
      (fun credChan p =>
         fold_left (fun credChan u => credChan ++ [mkCredential u p])
                   users credChan)
      passChan [].

(** ** Configuration, checkpoint and the set-up part of [performTesting]

    What follows is the run without [--dump]: with it [performTesting]
    makes one trial and returns before any stream is opened. *)

Record Config : Type := mkConfig {
  SingleUser : string;
  UserList : string;
  SinglePass : string;
  PassList : string;
  FirstOnly : bool;
  UserFirst : bool;
  Workers : Z
}.

Record State : Type := mkState { LastUser : string; LastPass : string }.

(** [saved] is [Some st] when [state.json] exists and [loadState]
    returns [st]. *)
Definition userChan (cfg : Config) (fs : FileSystem) (resume : bool)
    (saved : option State) : list string :=
  if negb (SingleUser cfg =? "") then singleValueChannel (SingleUser cfg)
  else
    match resume, saved with
    | true, Some st => resumeStreamFromFile fs (UserList cfg) (LastUser st)
    | _, _ => streamLinesFromFile fs (UserList cfg)
    end.

Definition passChan (cfg : Config) (fs : FileSystem) (resume : bool)
    (saved : option State) : list string :=
  if negb (SinglePass cfg =? "") then singleValueChannel (SinglePass cfg)
  else if negb (PassList cfg =? "") then
    match resume, saved with
    | true, Some st => resumeStreamFromFile fs (PassList cfg) (LastPass st)
    | _, _ => streamLinesFromFile fs (PassList cfg)
    end
  else singleValueChannel "".

Definition credChanOf (cfg : Config) (fs : FileSystem) (resume : bool)
    (saved : option State) : list Credential :=
  buildCredentialPairs (userChan cfg fs resume saved)
                       (passChan cfg fs resume saved) (UserFirst cfg).

(** The count handed to the progress bar. *)
Definition totalTests (cfg : Config) (fs : FileSystem) : Z :=
  if negb (SingleUser cfg =? "") then
    if negb (SinglePass cfg =? "") then 1%Z
    else if negb (PassList cfg =? "") then countLines fs (PassList cfg)
    else 1%Z
  else if negb (UserList cfg =? "") then
    let userCount := countLines fs (UserList cfg) in
    if negb (SinglePass cfg =? "") then userCount
    else if negb (PassList cfg =? "") then
      GoInt.mul userCount (countLines fs (PassList cfg))
    else userCount
  else 0%Z.


(** ** The worker pool of [performTesting]

    The goroutines of [performTesting] are interleaved by a scheduler:
    a state of the pool records where each goroutine stands, and
    [exec] performs one atomic action of one goroutine, or returns
    [None] when that action cannot proceed (a blocked lock, channel
    or wait, or a goroutine that is elsewhere in its code).  A [select]
    with several ready cases may take any of them, so each case is an
    action of its own. *)

(** Where a worker goroutine (the closure of l.453-487) stands. *)
Inductive WorkerPc : Type :=
| WStart                      (* l.458, before [if cfg.FirstOnly] *)
| WPreCheck                   (* l.460, holding [mu] *)
| WCall                       (* l.467, about to call [testLogin] *)
| WInTrial                    (* inside [testLogin] *)
| WTested (result : string)   (* l.468, [testLogin] has returned *)
| WReport (result : string)   (* l.470, holding [mu] *)
| WSave                       (* l.484-486, [bar.Add] and [saveState] *)
| WRelease                    (* deferred [<-semaphore] *)
| WWgDone                     (* deferred [wg.Done()] *)
| WFinished.

Record Worker : Type := mkWorker { cred : Credential; pc : WorkerPc }.

(** The dispatch goroutine (l.438-496). *)
Inductive DispatchPc : Type :=
| DRange                      (* l.441, receiving from [credChan] *)
| DSelect (c : Credential)    (* l.447, in the [select] *)
| DWait                       (* l.494, [wg.Wait()] *)
| DReturned.

(** The collecting loop (l.501-521); when it returns, [performTesting]
    and [main] return and the process ends. *)
Inductive CollectPc : Type :=
| CSelect
| CReturned.

Record Pool : Type := mkPool {
  credChan : list Credential;   (* pairs the generator has yet to hand over *)
  dispatcher : DispatchPc;
  ctxDone : bool;               (* the context has been cancelled *)
  semaphore : nat;              (* len(semaphore) *)
  wg : nat;                     (* the WaitGroup counter *)
  mu : option nat;              (* the worker holding [mu] *)
  successFound : bool;
  results : list string;        (* buffered values of [results] *)
  resultsClosed : bool;
  workers : list Worker;        (* goroutines started, in spawn order *)
  stdout : list string;         (* results printed by [fmt.Println(result)] *)
  successCount : Z;
  collector : CollectPc;
  checkpoint : option State;    (* content of state.json *)
  panicked : bool
}.

Inductive Action : Type :=
| ARange                      (* dispatch: next value of [range credChan] *)
| ASelectDone                 (* dispatch select: [case <-ctx.Done()] *)
| ASelectAdmit                (* dispatch select: [case semaphore <- struct{}{}] *)
| AWaitReturn                 (* dispatch: [wg.Wait()] returns *)
| AWorker (i : nat)           (* worker [i] runs to its next point *)
| ATrialReturns (i : nat) (result : string)  (* [testLogin] of worker [i] returns *)
| AInterrupt                  (* the signal handler calls [cancel()] *)
| ACollectDone                (* collector select: [case <-ctx.Done()] *)
| ACollectRecv.               (* collector select: [case result, ok := <-results] *)

Section PoolUpdates.

Variable s : Pool.

Definition setDispatch (cs : list Credential) (d : DispatchPc) : Pool :=
  mkPool cs d (ctxDone s) (semaphore s) (wg s) (mu s) (successFound s)
         (results s) (resultsClosed s) (workers s) (stdout s)
         (successCount s) (collector s) (checkpoint s) (panicked s).

Definition closeResults (d : DispatchPc) : Pool :=
  mkPool (credChan s) d (ctxDone s) (semaphore s) (wg s) (mu s)
         (successFound s) (results s) true (workers s) (stdout s)
         (successCount s) (collector s) (checkpoint s) (panicked s).

Definition admitPair (c : Credential) : Pool :=
  mkPool (credChan s) DRange (ctxDone s) (S (semaphore s)) (S (wg s)) (mu s)
         (successFound s) (results s) (resultsClosed s)
         (workers s ++ [mkWorker c WStart]) (stdout s)
         (successCount s) (collector s) (checkpoint s) (panicked s).

Definition cancel : Pool :=
  mkPool (credChan s) (dispatcher s) true (semaphore s) (wg s) (mu s)
         (successFound s) (results s) (resultsClosed s) (workers s) (stdout s)
         (successCount s) (collector s) (checkpoint s) (panicked s).

Definition setWorkers (ws : list Worker) : Pool :=
  mkPool (credChan s) (dispatcher s) (ctxDone s) (semaphore s) (wg s) (mu s)
         (successFound s) (results s) (resultsClosed s) ws (stdout s)
         (successCount s) (collector s) (checkpoint s) (panicked s).

Definition setMu (m : option nat) : Pool :=
  mkPool (credChan s) (dispatcher s) (ctxDone s) (semaphore s) (wg s) m
         (successFound s) (results s) (resultsClosed s) (workers s) (stdout s)
         (successCount s) (collector s) (checkpoint s) (panicked s).

(** l.471-478: set the flag, print the result, cancel the context. *)
Definition firstSuccess (result : string) : Pool :=
  mkPool (credChan s) (dispatcher s) true (semaphore s) (wg s) (mu s)
         true (results s) (resultsClosed s) (workers s)
         (stdout s ++ [result])
         (successCount s) (collector s) (checkpoint s) (panicked s).

(** l.480: [results <- result]. *)
Definition sendResult (result : string) : Pool :=
  mkPool (credChan s) (dispatcher s) (ctxDone s) (semaphore s) (wg s) (mu s)
         (successFound s) (results s ++ [result]) (resultsClosed s)
         (workers s) (stdout s)
         (successCount s) (collector s) (checkpoint s) (panicked s).

(** l.515-516: count and print a received result. *)
Definition collect (result : string) (rest : list string) : Pool :=
  mkPool (credChan s) (dispatcher s) (ctxDone s) (semaphore s) (wg s) (mu s)
         (successFound s) rest (resultsClosed s) (workers s)
         (stdout s ++ [result])
         (GoInt.add (successCount s) 1) (collector s) (checkpoint s)
         (panicked s).

Definition setCollector (c : CollectPc) : Pool :=
  mkPool (credChan s) (dispatcher s) (ctxDone s) (semaphore s) (wg s) (mu s)
         (successFound s) (results s) (resultsClosed s) (workers s) (stdout s)
         (successCount s) c (checkpoint s) (panicked s).

(** [saveState]: state.json is created anew and written. *)
Definition saveState (u p : string) : Pool :=
  mkPool (credChan s) (dispatcher s) (ctxDone s) (semaphore s) (wg s) (mu s)
         (successFound s) (results s) (resultsClosed s) (workers s) (stdout s)
         (successCount s) (collector s) (Some (mkState u p)) (panicked s).

Definition setSemaphore (n : nat) : Pool :=
  mkPool (credChan s) (dispatcher s) (ctxDone s) n (wg s) (mu s)
         (successFound s) (results s) (resultsClosed s) (workers s) (stdout s)
         (successCount s) (collector s) (checkpoint s) (panicked s).

Definition setWg (n : nat) : Pool :=
  mkPool (credChan s) (dispatcher s) (ctxDone s) (semaphore s) n (mu s)
         (successFound s) (results s) (resultsClosed s) (workers s) (stdout s)
         (successCount s) (collector s) (checkpoint s) (panicked s).

(** The pool with [successFound] overwritten: used to state which
    actions depend on the flag. *)
Definition withFlag (b : bool) : Pool :=
  mkPool (credChan s) (dispatcher s) (ctxDone s) (semaphore s) (wg s) (mu s)
         b (results s) (resultsClosed s) (workers s) (stdout s)
         (successCount s) (collector s) (checkpoint s) (panicked s).

Definition panic : Pool :=
  mkPool (credChan s) (dispatcher s) (ctxDone s) (semaphore s) (wg s) (mu s)
         (successFound s) (results s) (resultsClosed s) (workers s) (stdout s)
         (successCount s) (collector s) (checkpoint s) true.

End PoolUpdates.

(** Worker [i] moves to [p]. *)
Definition goto (i : nat) (w : Worker) (p : WorkerPc) (s : Pool) : Pool :=
  setWorkers s (<[i := mkWorker (cred w) p]> (workers s)).

(** Nothing dispatched yet: empty channels, free lock, flag unset. *)
Definition initial (creds : list Credential) : Pool :=
  mkPool creds DRange false 0 0 None false [] false [] [] 0%Z
         CSelect None false.

(** The process runs: no panic, and the collecting loop has not returned. *)
Definition alive (s : Pool) : bool :=
  negb (panicked s) &&
  match collector s with CSelect => true | CReturned => false end.

Section Exec.

Variable cfg : Config.

(** cap(results) = cfg.Workers*2. *)
Definition resultsCap : Z := GoInt.mul (Workers cfg) 2.

(** One step of the worker closure. *)
Definition execWorker (i : nat) (s : Pool) : option Pool :=
  match workers s !! i with
  | None => None
  | Some w =>
      match pc w with
      | WStart =>
          if FirstOnly cfg then
            match mu s with
            | None => Some (goto i w WPreCheck (setMu s (Some i)))
            | Some _ => None
            end
          else Some (goto i w WCall s)
      | WPreCheck =>
          if successFound s
          then Some (goto i w WRelease (setMu s None))
          else Some (goto i w WCall (setMu s None))
      | WCall => Some (goto i w WInTrial s)
      | WInTrial => None
      | WTested result =>
          if result =? "" then Some (goto i w WSave s)
          else
            match mu s with
            | None => Some (goto i w (WReport result) (setMu s (Some i)))
            | Some _ => None
            end
      | WReport result =>
          if FirstOnly cfg && negb (successFound s) then
            Some (goto i w WSave (setMu (firstSuccess s result) None))
          else if resultsClosed s then Some (panic s)
          else if (Z.of_nat (length (results s)) <? resultsCap)%Z then
            Some (goto i w WSave (setMu (sendResult s result) None))
          else None
      | WSave =>
          Some (goto i w WRelease (saveState s (user (cred w)) (pass (cred w))))
      | WRelease =>
          match semaphore s with
          | O => None
          | S n => Some (goto i w WWgDone (setSemaphore s n))
          end
      | WWgDone =>
          match wg s with
          | O => Some (panic s)
          | S n => Some (goto i w WFinished (setWg s n))
          end
      | WFinished => None
      end
  end.

Definition exec (a : Action) (s : Pool) : option Pool :=
  if negb (alive s) then None else
  match a with
  | ARange =>
      match dispatcher s, credChan s with
      | DRange, c :: rest => Some (setDispatch s rest (DSelect c))
      | DRange, [] => Some (setDispatch s [] DWait)
      | _, _ => None
      end
  | ASelectDone =>
      match dispatcher s with
      | DSelect _ => if ctxDone s then Some (closeResults s DReturned) else None
      | _ => None
      end
  | ASelectAdmit =>
      match dispatcher s with
      | DSelect c =>
          if (Z.of_nat (semaphore s) <? Workers cfg)%Z
          then Some (admitPair s c) else None
      | _ => None
      end
  | AWaitReturn =>
      match dispatcher s, wg s with
      | DWait, O => Some (closeResults s DReturned)
      | _, _ => None
      end
  | AWorker i => execWorker i s
  | ATrialReturns i result =>
      match workers s !! i with
      | Some w =>
          match pc w with
          | WInTrial => Some (goto i w (WTested result) s)
          | _ => None
          end
      | None => None
      end
  | AInterrupt => Some (cancel s)
  | ACollectDone =>
      if ctxDone s then Some (setCollector s CReturned) else None
  | ACollectRecv =>
      match results s with
      | result :: rest => Some (collect s result rest)
      | [] => if resultsClosed s then Some (setCollector s CReturned) else None
      end
  end.

Fixpoint run (tr : list Action) (s : Pool) : option Pool :=
  match tr with
  | [] => Some s
  | a :: tr' =>
      match exec a s with
      | Some s' => run tr' s'
      | None => None
      end
  end.

(** The pool as the dispatch goroutine and the collecting loop start:
    [make] panics on a negative capacity. *)
Definition start (creds : list Credential) : option Pool :=
  if (resultsCap <? 0)%Z || (Workers cfg <? 0)%Z then None
  else Some (initial creds).

Definition reachable (creds : list Credential) (s : Pool) : Prop :=
  exists s0 tr, start creds = Some s0 /\ run tr s0 = Some s.

End Exec.

(** The pool a schedule leads to (the initial pool when the schedule
    cannot be run). *)
Definition poolAfter (cfg : Config) (creds : list Credential)
    (tr : list Action) : Pool :=
  match start cfg creds with
  | Some s0 => default s0 (run cfg tr s0)
  | None => initial creds
  end.

(** The schedule can be run from the start. *)
Definition runnable (cfg : Config) (creds : list Credential)
    (tr : list Action) : bool :=
  match start cfg creds with
  | Some s0 => match run cfg tr s0 with Some _ => true | None => false end
  | None => false
  end.

(** Counting workers by where they stand. *)
Definition countPc (p : WorkerPc -> bool) (ws : list Worker) : nat :=
  length (List.filter (fun w => p (pc w)) ws).

Definition inTrial (p : WorkerPc) : bool :=
  match p with WInTrial => true | _ => false end.

(** A worker holds its admission slot until the deferred [<-semaphore]. *)
Definition holdsSlot (p : WorkerPc) : bool :=
  match p with WWgDone | WFinished => false | _ => true end.

Definition holdsMu (p : WorkerPc) : bool :=
  match p with WPreCheck | WReport _ => true | _ => false end.

(** [mu] is held by exactly the worker between a [Lock] and its
    [Unlock]. *)
Definition muInvariant (s : Pool) : Prop :=
  (forall i w, workers s !! i = Some w -> holdsMu (pc w) = true ->
               mu s = Some i) /\
  (forall i, mu s = Some i ->
             exists w, workers s !! i = Some w /\ holdsMu (pc w) = true).

(** The actor of an action, when it is a worker. *)
Definition actor (a : Action) : option nat :=
  match a with
  | AWorker i | ATrialReturns i _ => Some i
  | _ => None
  end.

(** ** Example runs *)

Definition rootPair : Credential := mkCredential "root" "toor".
Definition adminPair : Credential := mkCredential "admin" "toor".
Definition guestPair : Credential := mkCredential "guest" "toor".
Definition testPair : Credential := mkCredential "test" "toor".

Definition rootSuccess : string := "Success: root with password 'toor'".
Definition adminSuccess : string := "Success: admin with password 'toor'".
Definition guestSuccess : string := "Success: guest with password 'toor'".

(** [-U users.txt -p toor -f -workers 3] *)
Definition firstOnlyCfg : Config :=
  mkConfig "" "users.txt" "toor" "" true false 3.

(** [-U users.txt -p toor -workers 4] *)
Definition allCfg : Config :=
  mkConfig "" "users.txt" "toor" "" false false 4.

(** users.txt of the example runs. *)
Definition exampleFs : FileSystem :=
  fun f => if f =? "users.txt" then Some ["root"; "admin"; "guest"; "test"]
           else None.

(** The pairs [-U users.txt -p toor] yields under either strategy. *)
Definition examplePairs : list Credential :=
  [rootPair; adminPair; guestPair; testPair].

(** One iteration of the dispatch loop that starts a worker. *)
Definition dispatchOne : list Action := [ARange; ASelectAdmit].

(** A worker of an early-exit run goes from its start into
    [testLogin]: Lock, flag unset, Unlock, call. *)
Definition intoTrial (i : nat) : list Action :=
  [AWorker i; AWorker i; AWorker i].

(** Early exit: three pairs dispatched, the three trials under way. *)
Definition allInTrial : list Action :=
  dispatchOne ++ dispatchOne ++ dispatchOne ++
  intoTrial 0 ++ intoTrial 1 ++ intoTrial 2.

(** The three trials return a success; worker 0 is first to take [mu]. *)
Definition winnerHoldsLock : list Action :=
  allInTrial ++
  [ATrialReturns 0 rootSuccess; ATrialReturns 1 adminSuccess;
   ATrialReturns 2 guestSuccess; AWorker 0].

Definition allSucceed : list Action :=
  winnerHoldsLock ++
  [AWorker 0;                   (* set flag, print, cancel; Unlock *)
   AWorker 1; AWorker 1;        (* Lock; flag set: results <- result; Unlock *)
   AWorker 2; AWorker 2].       (* the same for worker 2 *)

(** The collecting loop then takes the [results] case of its select,
    twice. *)
Definition allReported : list Action :=
  allSucceed ++ [ACollectRecv; ACollectRecv].

(** Without early exit: worker 0 has failed and stands before
    [saveState]; worker 1 has succeeded and holds [mu]. *)
Definition saveBesideLock : list Action :=
  dispatchOne ++ dispatchOne ++
  [AWorker 0; AWorker 0; ATrialReturns 0 ""; AWorker 0;
   AWorker 1; AWorker 1; ATrialReturns 1 adminSuccess; AWorker 1].

(** One pair dispatched, then an interrupt. *)
Definition interrupted : list Action := dispatchOne ++ [AInterrupt].

(** The worker started before the interrupt still runs its trial,
    succeeds, sends its result, and the collecting loop prints it. *)
Definition reportedAfterInterrupt : list Action :=
  interrupted ++
  [AWorker 0; AWorker 0; ATrialReturns 0 rootSuccess;
   AWorker 0; AWorker 0; ACollectRecv].

(** Three more iterations of the dispatch loop, each taking the
    semaphore case of the select. *)
Definition threeMoreIterations : list Action :=
  dispatchOne ++ dispatchOne ++ dispatchOne.

(** ** The contracts, in the words of the specification *)

(** File-backed stream: the trimmed lines, blank ones left out. *)
Definition candidates (lines : list string) : list string :=
  List.filter (fun line => negb (line =? "")) (map TrimSpace lines).

(** Number of non-blank lines of a file. *)
Definition nonBlankCount (lines : list string) : nat :=
  length (candidates lines).

(** Identity-major and secret-major enumeration of the product. *)
Definition identityMajor (ids secrets : list string) : list Credential :=
  flat_map (fun i => map (fun s => mkCredential i s) secrets) ids.

Definition secretMajor (ids secrets : list string) : list Credential :=
  flat_map (fun s => map (fun i => mkCredential i s) ids) secrets.

(** ** Observables of the worker pool *)

Definition notFinished (p : WorkerPc) : bool :=
  match p with WFinished => false | _ => true end.

(** The pair the dispatch loop has taken from [credChan] and not yet
    handed to a worker. *)
Definition inHand (d : DispatchPc) : list Credential :=
  match d with DSelect c => [c] | _ => [] end.

(** The success a worker holds between the return of [testLogin] and
    its report. *)
Definition heldResult (p : WorkerPc) : list string :=
  match p with
  | WTested result => if result =? "" then [] else [result]
  | WReport result => [result]
  | _ => []
  end.

Definition heldResults (ws : list Worker) : list string :=
  flat_map (fun w => heldResult (pc w)) ws.

(** The successes [testLogin] has returned along a schedule. *)
Definition successesOf (tr : list Action) : list string :=
  flat_map
    (fun a =>
       match a with
       | ATrialReturns _ result => if result =? "" then [] else [result]
       | _ => []
       end)
    tr.

(** The pairs whose trial is over: [saveState] has been called. *)
Definition pastSave (p : WorkerPc) : bool :=
  match p with WRelease | WWgDone | WFinished => true | _ => false end.

(** What the shutdown of the pool rests on: the WaitGroup counts the
    workers that have not finished; [results] is closed only by the
    returning dispatch goroutine, after cancellation or with no worker
    left; a panic needs a cancelled context. *)
Definition shutdownInvariant (s : Pool) : Prop :=
  wg s = countPc notFinished (workers s) /\
  (resultsClosed s = true ->
   dispatcher s = DReturned /\ (ctxDone s = true \/ wg s = 0)) /\
  (panicked s = true -> ctxDone s = true) /\
  (collector s = CReturned ->
   ctxDone s = true \/ resultsClosed s = true /\ results s = []).

(** A worker has a success in hand and holds [mu]; the interrupt
    arrives; the dispatch loop takes its next pair and stands in the
    select. *)
Definition reportPending : list Action :=
  dispatchOne ++
  [AWorker 0; AWorker 0; ATrialReturns 0 rootSuccess; AWorker 0;
   AInterrupt; ARange].

(** Pairs leave [credChan] in order and each goes to one new worker. *)
Definition dispatchInvariant (creds : list Credential) (s : Pool) : Prop :=
  match dispatcher s with
  | DRange => creds = map cred (workers s) ++ credChan s
  | DSelect c => creds = map cred (workers s) ++ c :: credChan s
  | DWait => creds = map cred (workers s)
  | DReturned =>
      (exists rest, creds = map cred (workers s) ++ rest) /\
      (ctxDone s = false -> creds = map cred (workers s))
  end.

(** The checkpoint is the pair of a worker that has called [saveState]. *)
Definition checkpointInvariant (s : Pool) : Prop :=
  forall st, checkpoint s = Some st ->
  exists i w, workers s !! i = Some w /\ pastSave (pc w) = true /\
              cred w = mkCredential (LastUser st) (LastPass st).

(** A run over one pair, to its end: the trial succeeds, the worker
    sends, saves and finishes, the dispatch loop finds [credChan]
    closed, waits and returns, the collecting loop prints the result
    and finds [results] closed. *)
Definition completeRun : list Action :=
  dispatchOne ++
  [AWorker 0; AWorker 0; ATrialReturns 0 rootSuccess;
   AWorker 0; AWorker 0; AWorker 0; AWorker 0; AWorker 0;
   ARange; AWaitReturn; ACollectRecv; ACollectRecv].

(** The successes the pool knows of: printed, queued in [results], or
    still in the hands of a worker. *)
Definition knownSuccesses (s : Pool) : list string :=
  stdout s ++ results s ++ heldResults (workers s).

(** [successCount] counts the results printed by the collecting loop:
    all printed results but the one an early-exit winner prints
    itself. *)
Definition countInvariant (cfg : Config) (s : Pool) : Prop :=
  successCount s
  = GoInt.wrap (Z.of_nat (length (stdout s))
                - (if successFound s then 1 else 0)) /\
  (successFound s = true -> FirstOnly cfg = true /\ ctxDone s = true).

(** [-U users.txt -p toor -workers 0] *)
Definition noSlotCfg : Config :=
  mkConfig "" "users.txt" "toor" "" false false 0.

(** [-U users.txt -P pass.txt --resume], secret-major, and its files. *)
Definition listsCfg : Config :=
  mkConfig "" "users.txt" "" "pass.txt" false false 1.

Definition listsFs : FileSystem :=
  fun f => if f =? "users.txt" then Some ["root"; "admin"; "guest"; "test"]
           else if f =? "pass.txt" then Some ["toor"; "123456"]
           else None.

(** [-u root -P pass.txt --resume] *)
Definition literalUserCfg : Config :=
  mkConfig "root" "" "" "pass.txt" false false 1.

(** ** More of Go's [strings]

    The functions of package [strings] that the command and file-name
    helpers call, on the bytes of the string.  Every separator, cut set
    and replaced text the source passes is ASCII, so a byte of the
    argument matches exactly where the code point does. *)

Module Text.

#[global] Instance ascii_eq_dec : EqDecision ascii := Ascii.ascii_dec.

Fixpoint prefixOf (p s : list ascii) : bool :=
  match p, s with
  | [], _ => true
  | _ :: _, [] => false
  | a :: p', b :: s' => Ascii.eqb a b && prefixOf p' s'
  end.

(** [strings.HasPrefix(s, prefix)] *)
Definition HasPrefix (s prefix : string) : bool :=
  prefixOf (list_ascii_of_string prefix) (list_ascii_of_string s).

(** [strings.HasSuffix(s, suffix)] *)
Definition HasSuffix (s suffix : string) : bool :=
  prefixOf (rev (list_ascii_of_string suffix)) (rev (list_ascii_of_string s)).

Fixpoint containsAt (sub s : list ascii) : bool :=
  prefixOf sub s ||
  match s with
  | [] => false
  | _ :: r => containsAt sub r
  end.

(** [strings.Contains(s, substr)] *)
Definition Contains (s substr : string) : bool :=
  containsAt (list_ascii_of_string substr) (list_ascii_of_string s).

(** [strings.ContainsAny(s, chars)], [chars] ASCII. *)
Definition ContainsAny (s chars : string) : bool :=
  existsb (fun c => existsb (Ascii.eqb c) (list_ascii_of_string chars))
          (list_ascii_of_string s).

Fixpoint dropLeading (c : ascii) (s : list ascii) : list ascii :=
  match s with
  | [] => []
  | x :: r => if Ascii.eqb x c then dropLeading c r else s
  end.

(** [strings.TrimRight(s, cutset)], [cutset] the one ASCII byte [c]. *)
Definition TrimRight (s : string) (c : ascii) : string :=
  string_of_list_ascii (rev (dropLeading c (rev (list_ascii_of_string s)))).

Fixpoint dropCutset (cutset s : list ascii) : list ascii :=
  match s with
  | [] => []
  | x :: r => if existsb (Ascii.eqb x) cutset then dropCutset cutset r else s
  end.

(** [strings.Trim(s, cutset)], [cutset] ASCII. *)
Definition Trim (s cutset : string) : string :=
  let cut := dropCutset (list_ascii_of_string cutset) in
  string_of_list_ascii (cut (rev (cut (rev (list_ascii_of_string s))))).

Fixpoint stripPrefix (p s : list ascii) : option (list ascii) :=
  match p, s with
  | [], _ => Some s
  | _ :: _, [] => None
  | a :: p', b :: s' => if Ascii.eqb a b then stripPrefix p' s' else None
  end.

(** [strings.TrimPrefix(s, prefix)] *)
Definition TrimPrefix (s prefix : string) : string :=
  match stripPrefix (list_ascii_of_string prefix) (list_ascii_of_string s) with
  | Some rest => string_of_list_ascii rest
  | None => s
  end.

(** [strings.TrimSuffix(s, suffix)] *)
Definition TrimSuffix (s suffix : string) : string :=
  match stripPrefix (rev (list_ascii_of_string suffix))
                    (rev (list_ascii_of_string s)) with
  | Some rest => string_of_list_ascii (rev rest)
  | None => s
  end.

(** [strings.ReplaceAll(s, old, new)], [old] the one ASCII byte [c]. *)
Definition ReplaceAll (s : string) (c : ascii) (new : string) : string :=
  string_of_list_ascii
    (flat_map (fun x => if Ascii.eqb x c then list_ascii_of_string new
                        else [x])
              (list_ascii_of_string s)).

Fixpoint upTo (sep s : list ascii) : list ascii :=
  if prefixOf sep s then [] else
  match s with
  | [] => []
  | x :: r => x :: upTo sep r
  end.

(** [strings.Split(s, sep)[0]], [sep] not empty: [s] up to the first
    [sep], all of [s] when there is none. *)
Definition SplitHead (s sep : string) : string :=
  string_of_list_ascii
    (upTo (list_ascii_of_string sep) (list_ascii_of_string s)).

Definition flushField (cur : list ascii) (rest : list string) : list string :=
  match cur with
  | [] => rest
  | _ :: _ => string_of_list_ascii cur :: rest
  end.

(** The loop of [strings.Fields]: [cur] is the field being read. *)
Fixpoint fieldsFrom (cur s : list ascii) {struct s} : list string :=
  match s with
  | [] => flushField cur []
  | c1 :: r1 =>
      if isAsciiSpace (N_of_ascii c1)
      then flushField cur (fieldsFrom [] r1) else
      match r1 with
      | [] => fieldsFrom (cur ++ [c1]) r1
      | c2 :: r2 =>
          if spaceRune2 (N_of_ascii c1) (N_of_ascii c2)
          then flushField cur (fieldsFrom [] r2) else
          match r2 with
          | [] => fieldsFrom (cur ++ [c1]) r1
          | c3 :: r3 =>
              if spaceRune3 (N_of_ascii c1) (N_of_ascii c2) (N_of_ascii c3)
              then flushField cur (fieldsFrom [] r3)
              else fieldsFrom (cur ++ [c1]) r1
          end
      end
  end.

(** [strings.Fields(s)] *)
Definition Fields (s : string) : list string :=
  fieldsFrom [] (list_ascii_of_string s).

Definition isASCII (s : string) : bool :=
  forallb (fun c => (N_of_ascii c <? 128)%N) (list_ascii_of_string s).

Definition upperByte (c : ascii) : ascii :=
  let n := N_of_ascii c in
  if ((97 <=? n) && (n <=? 122))%N then ascii_of_N (n - 32) else c.

Definition lowerByte (c : ascii) : ascii :=
  let n := N_of_ascii c in
  if ((65 <=? n) && (n <=? 90))%N then ascii_of_N (n + 32) else c.

Definition mapBytes (f : ascii -> ascii) (s : string) : string :=
  string_of_list_ascii (map f (list_ascii_of_string s)).

Section Case.

(** [strings.Map(unicode.ToUpper, s)] and [strings.Map(unicode.ToLower,
    s)], which Go runs on a string with a byte above 0x7F. *)
Variable unicodeUpper unicodeLower : string -> string.

(** [strings.ToUpper(s)] *)
Definition ToUpper (s : string) : string :=
  if isASCII s then mapBytes upperByte s else unicodeUpper s.

(** [strings.ToLower(s)] *)
Definition ToLower (s : string) : string :=
  if isASCII s then mapBytes lowerByte s else unicodeLower s.

End Case.

End Text.

Import Text.

(** ** Command and name helpers *)

Definition semicolon : ascii := ";".
Definition quote : ascii := ascii_of_nat 34.
Definition backslash : ascii := ascii_of_nat 92.
Definition carriageReturn : ascii := ascii_of_nat 13.
Definition lineFeed : ascii := ascii_of_nat 10.

(** [sanitizeCommand] *)
Definition sanitizeCommand (cmd : string) : string :=
  let cmd := TrimSpace cmd in
  let cmd := TrimRight cmd semicolon in
  let cmd := if negb (cmd =? "") && negb (HasSuffix cmd ";")
             then (cmd ++ ";")%string else cmd in
  if (cmd =? "") || (cmd =? ";") then "SHOW DATABASES;" else cmd.

(** The characters [sanitizeFilename] replaces, in its order. *)
Definition unsafeNameBytes : list ascii :=
  ["/"; backslash; ":"; "*"; "?"; quote; "<"; ">"; "|"; " "]%char.

(** [sanitizeFilename] *)
Definition sanitizeFilename (name : string) : string :=
  let name := ReplaceAll name "/" "_" in
  let name := ReplaceAll name backslash "_" in
  let name := ReplaceAll name ":" "_" in
  let name := ReplaceAll name "*" "_" in
  let name := ReplaceAll name "?" "_" in
  let name := ReplaceAll name quote "_" in
  let name := ReplaceAll name "<" "_" in
  let name := ReplaceAll name ">" "_" in
  let name := ReplaceAll name "|" "_" in
  let name := ReplaceAll name " " "_" in
  name.

(** What the ten replacements together do to one byte. *)
Definition safeByte (c : ascii) : ascii :=
  if existsb (Ascii.eqb c) unsafeNameBytes then "_"%char else c.

(** A column value as [rows.Scan] leaves it in an [interface{}]: [nil],
    a [[]byte], or another value, given by its [%v] text. *)
Inductive Value : Type :=
| VNil
| VBytes (b : string)
| VOther (text : string).

(** [formatValueForCSV] *)
Definition formatValueForCSV (val : Value) : string :=
  match val with
  | VNil => "NULL"
  | VBytes str | VOther str =>
      if ContainsAny str (String "," (String quote (String carriageReturn
                            (String lineFeed ""))))
      then (String quote (ReplaceAll str quote (String quote (String quote "")))
            ++ String quote "")%string
      else str
  end.

(** [strings.Join(elems, sep)] *)
Fixpoint Join (elems : list string) (sep : string) : string :=
  match elems with
  | [] => ""
  | [x] => x
  | x :: r => (x ++ sep ++ Join r sep)%string
  end.

(** One data line of a table file, [dumpAllDatabases]: the values of
    the row formatted in order, joined by commas, and a line feed. *)
Definition csvLine (values : list Value) : string :=
  (Join (map formatValueForCSV values) "," ++ String lineFeed "")%string.

(** The text [formatValueForCSV] starts from. *)
Definition valueText (val : Value) : string :=
  match val with
  | VNil => "NULL"
  | VBytes str | VOther str => str
  end.

(** A reader of the file by the rules of RFC 4180: fields end at a
    comma, the record at a line feed; a field that opens with a quote
    runs to its closing quote, a doubled quote inside standing for
    one.  Returns the fields of the first record and the bytes after
    it. *)
Fixpoint readRecord (inQuotes : bool) (cur s : list ascii) {struct s}
  : list string * list ascii :=
  match s with
  | [] => ([string_of_list_ascii cur], [])
  | x :: r =>
      if inQuotes then
        if Ascii.eqb x quote then
          match r with
          | y :: r' =>
              if Ascii.eqb y quote then readRecord true (cur ++ [quote]) r'
              else readRecord false cur r
          | [] => readRecord false cur r
          end
        else readRecord true (cur ++ [x]) r
      else
        if Ascii.eqb x "," then
          let (fields, rest) := readRecord false [] r in
          (string_of_list_ascii cur :: fields, rest)
        else if Ascii.eqb x lineFeed then ([string_of_list_ascii cur], r)
        else if Ascii.eqb x quote && bool_decide (cur = [])
             then readRecord true [] r
        else readRecord false (cur ++ [x]) r
  end.

Section Verbs.

Variable unicodeUpper unicodeLower : string -> string.

(** [getSqlVerb] *)
Definition getSqlVerb (cmd : string) : string :=
  let cmd := TrimSpace cmd in
  let cmd := SplitHead cmd "--" in
  let cmd := SplitHead cmd "#" in
  match Fields cmd with
  | w :: _ => ToUpper unicodeUpper w
  | [] => ""
  end.

Definition dangerousVerbs : list string :=
  ["DROP"; "DELETE"; "TRUNCATE"; "UPDATE"; "INSERT"; "ALTER"; "GRANT";
   "REVOKE"; "CREATE"].

Definition dangerousFunctions : list string :=
  ["SYS_EXEC"; "SYSTEM_EXEC"; "SHELL"; "OUTFILE"; "DUMPFILE";
   "BENCHMARK"; "SLEEP"; "LOAD_FILE"; "INTO OUTFILE"; "INTO DUMPFILE"].

(** [isDangerous]: each loop returns [true] at its first match. *)
Definition isDangerous (cmd : string) : bool :=
  let cmdUpper := ToUpper unicodeUpper (TrimSpace cmd) in
  let verb := getSqlVerb cmd in
  if existsb (String.eqb verb) dangerousVerbs then true
  else if existsb (Contains cmdUpper) dangerousFunctions then true
  else false.

Definition queryVerbs : list string :=
  ["SELECT"; "SHOW"; "DESCRIBE"; "DESC"; "EXPLAIN"].

(** [isQueryCommand] *)
Definition isQueryCommand (cmd : string) : bool :=
  existsb (String.eqb (getSqlVerb cmd)) queryVerbs.

(** [commandMatches] *)
Definition commandMatches (cmd pattern : string) : bool :=
  HasPrefix (ToUpper unicodeUpper (TrimSpace cmd)) pattern.

(** What [testLogin] and [enterInteractiveMode] do with a command:
    refuse it, run it with [QueryContext], or with [ExecContext]. *)
Inductive Route : Type := Blocked | ViaQuery | ViaExec.

Definition commandRoute (allowDangerous : bool) (cmd : string) : Route :=
  if isDangerous cmd && negb allowDangerous then Blocked
  else if isQueryCommand cmd then ViaQuery
  else ViaExec.

Definition systemDBs : list string :=
  ["information_schema"; "performance_schema"; "mysql"; "sys"].

(** [isSystemDB] *)
Definition isSystemDB (name : string) : bool :=
  existsb (String.eqb (ToLower unicodeLower name)) systemDBs.

End Verbs.

(** A byte that [getSqlVerb] keeps in a word: ASCII, not white space,
    and neither [#] nor [-]. *)
Definition wordByte (c : ascii) : bool :=
  (N_of_ascii c <? 128)%N && negb (isAsciiSpace (N_of_ascii c))
  && negb (Ascii.eqb c "#") && negb (Ascii.eqb c "-").

(** What may follow the first word: nothing, or ASCII white space. *)
Definition endsWord (rest : string) : bool :=
  match rest with
  | EmptyString => true
  | String c _ => isAsciiSpace (N_of_ascii c)
  end.

(** Three values of one row: a text with a comma, a [nil], a text with
    a quote. *)
Definition csvExample : list Value :=
  [VBytes "a,b"; VNil; VOther (String quote "x")].

(** A comment line, then a statement. *)
Definition commentLed : string :=
  ("# tidy up" ++ String lineFeed "DROP TABLE users;")%string.

(** ** Options: [main] and [loadConfig]

    The whole [Config] of the source, the merge that [loadConfig] makes
    of the decoded file into the options of the command line, and the
    checks of [main] before [performTesting]. *)

Module Cli.

Record Config : Type := mkConfig {
  Host : string;
  Port : Z;
  SingleUser : string;
  UserList : string;
  SinglePass : string;
  PassList : string;
  Verbose : bool;
  FirstOnly : bool;
  UserFirst : bool;
  ExecCmd : string;
  AllowDangerous : bool;
  LogFile : string;
  UseSSL : bool;
  SkipSSL : bool;
  Workers : Z;
  Enum : bool;
  EnumOutputFile : string;
  Dump : bool;
  DumpDir : string;
  QuietDump : bool;
  MaxRowsPerFile : Z
}.

(** A text option: the file's value when the option still has its
    default [dflt] and the file's value is not empty. *)
Definition textOr (dflt cur new : string) : string :=
  if (cur =? dflt)%string && negb (new =? "")%string then new else cur.

(** A number option, likewise, with [0] for a value the file lacks. *)
Definition intOr (dflt cur new : Z) : Z :=
  if (cur =? dflt)%Z && negb (new =? 0)%Z then new else cur.

(** A switch: set by the file when it is off. *)
Definition flagOr (cur new : bool) : bool :=
  if negb cur && new then new else cur.

(** [loadConfig], from the decoded [newCfg] on. *)
Definition loadConfig (cfg newCfg : Config) : Config :=
  {| Host := if (Host cfg =? "")%string then Host newCfg else Host cfg;
     Port := intOr 3306 (Port cfg) (Port newCfg);
     SingleUser := textOr "" (SingleUser cfg) (SingleUser newCfg);
     UserList := textOr "" (UserList cfg) (UserList newCfg);
     SinglePass := textOr "" (SinglePass cfg) (SinglePass newCfg);
     PassList := textOr "" (PassList cfg) (PassList newCfg);
     Verbose := flagOr (Verbose cfg) (Verbose newCfg);
     FirstOnly := flagOr (FirstOnly cfg) (FirstOnly newCfg);
     UserFirst := flagOr (UserFirst cfg) (UserFirst newCfg);
     ExecCmd :=
       if (ExecCmd cfg =? "SHOW DATABASES;")%string
          && negb (ExecCmd newCfg =? "")%string
       then sanitizeCommand (ExecCmd newCfg) else ExecCmd cfg;
     AllowDangerous := flagOr (AllowDangerous cfg) (AllowDangerous newCfg);
     LogFile := textOr "" (LogFile cfg) (LogFile newCfg);
     UseSSL := flagOr (UseSSL cfg) (UseSSL newCfg);
     SkipSSL := flagOr (SkipSSL cfg) (SkipSSL newCfg);
     Workers := intOr 10 (Workers cfg) (Workers newCfg);
     Enum := flagOr (Enum cfg) (Enum newCfg);
     EnumOutputFile := textOr "" (EnumOutputFile cfg) (EnumOutputFile newCfg);
     Dump := flagOr (Dump cfg) (Dump newCfg);
     DumpDir := textOr "mysql_dump" (DumpDir cfg) (DumpDir newCfg);
     QuietDump := flagOr (QuietDump cfg) (QuietDump newCfg);
     MaxRowsPerFile := intOr 10000 (MaxRowsPerFile cfg) (MaxRowsPerFile newCfg)
  |}.

(** The options as [main] hands them on: [flags] holds the parsed
    flags, with the text of [-e] in [ExecCmd]; [configFile] is the
    decoded file of [-config], if one is given. *)
Definition options (flags : Config) (configFile : option Config) : Config :=
  let cfg :=
    {| Host := Host flags; Port := Port flags;
       SingleUser := SingleUser flags; UserList := UserList flags;
       SinglePass := SinglePass flags; PassList := PassList flags;
       Verbose := Verbose flags; FirstOnly := FirstOnly flags;
       UserFirst := UserFirst flags;
       ExecCmd := sanitizeCommand (ExecCmd flags);
       AllowDangerous := AllowDangerous flags; LogFile := LogFile flags;
       UseSSL := UseSSL flags; SkipSSL := SkipSSL flags;
       Workers := Workers flags; Enum := Enum flags;
       EnumOutputFile := EnumOutputFile flags; Dump := Dump flags;
       DumpDir := DumpDir flags; QuietDump := QuietDump flags;
       MaxRowsPerFile := MaxRowsPerFile flags |} in
  match configFile with
  | Some newCfg => loadConfig cfg newCfg
  | None => cfg
  end.

(** The messages of [main] that end the program with status 1. *)
Inductive Refusal : Type :=
| HostRequired
| UserRequired
| UsersExclusive
| UserFileNotFound
| PassFileNotFound
| ConnectNeedsLiterals
| ConnectWithLists
| DumpNeedsLiterals
| DumpWithLists.

(** The checks of [main], in order; [None] when all pass.
    [fileExists] is the answer of the function of that name. *)
Definition validate (fileExists : string -> bool) (connectMode : bool)
    (cfg : Config) : option Refusal :=
  if (Host cfg =? "")%string then Some HostRequired
  else if (SingleUser cfg =? "")%string && (UserList cfg =? "")%string
  then Some UserRequired
  else if negb (SingleUser cfg =? "")%string && negb (UserList cfg =? "")%string
  then Some UsersExclusive
  else if negb (UserList cfg =? "")%string && negb (fileExists (UserList cfg))
  then Some UserFileNotFound
  else if negb (PassList cfg =? "")%string && negb (fileExists (PassList cfg))
  then Some PassFileNotFound
  else if connectMode
          && ((SingleUser cfg =? "")%string || (SinglePass cfg =? "")%string)
  then Some ConnectNeedsLiterals
  else if connectMode
          && (negb (UserList cfg =? "")%string
              || negb (PassList cfg =? "")%string)
  then Some ConnectWithLists
  else if Dump cfg
          && ((SingleUser cfg =? "")%string || (SinglePass cfg =? "")%string)
  then Some DumpNeedsLiterals
  else if Dump cfg
          && (negb (UserList cfg =? "")%string
              || negb (PassList cfg =? "")%string)
  then Some DumpWithLists
  else None.

End Cli.


(** [-h db -U users.txt -config c.json], and a file that names a single
    user. *)
Definition listFlags : Cli.Config :=
  Cli.mkConfig "db" 3306 "" "users.txt" "" "" false false false
               "SHOW DATABASES;" false "" false false 10 false "" false
               "mysql_dump" false 10000.

Definition singleUserFile : Cli.Config :=
  Cli.mkConfig "" 0 "root" "" "" "" false false false
               "select user()" false "" false false 0 false "" false
               "" false 0.


(** ** Table files of [dumpAllDatabases]

    The loop over the rows of one table.  A row is [None] when
    [rows.Scan] fails and [Some values] otherwise; [create i] tells
    whether [os.Create] of the part file [i] succeeds. *)

Module Dump.

(** A file of a table, [<table>.csv] for [None] and
    [<table>.part<i>.csv] for [Some i], with the texts written to it
    in order. *)
Record TableFile : Type := mkFile {
  part : option Z;
  written : list string
}.

Record Progress : Type := mkProgress {
  closed : list TableFile;
  tableFile : option TableFile;
  tableRowCount : Z;
  fileIndex : Z;
  rowCount : Z
}.

(** [strings.Join(columns, ",") + "\n"] *)
Definition headerLine (columns : list string) : string :=
  (Join columns "," ++ String lineFeed "")%string.

Definition writeString (f : option TableFile) (text : string)
  : option TableFile :=
  match f with
  | Some f => Some (mkFile (part f) (written f ++ [text]))
  | None => None
  end.

Definition closeFile (p : Progress) : list TableFile :=
  match tableFile p with
  | Some f => closed p ++ [f]
  | None => closed p
  end.

(** The state when the loop is entered: the first file is open and
    holds the header. *)
Definition opened (header : string) (rowCount : Z) : Progress :=
  mkProgress [] (Some (mkFile None [header])) 0 1 rowCount.

(** One iteration; the flag tells whether the loop is left ([break]). *)
Definition rowStep (maxRows : Z) (create : Z -> bool) (header : string)
    (row : option (list Value)) (p : Progress) : Progress * bool :=
  let '(p, stop) :=
    if (0 <? maxRows)%Z && (maxRows <=? tableRowCount p)%Z then
      let fileIndex' := GoInt.add (fileIndex p) 1 in
      if create fileIndex' then
        (mkProgress (closeFile p) (Some (mkFile (Some fileIndex') [header]))
                    0 fileIndex' (rowCount p), false)
      else
        (mkProgress (closeFile p) None (tableRowCount p) fileIndex'
                    (rowCount p), true)
    else (p, false) in
  if stop then (p, true) else
  match row with
  | None => (p, false)
  | Some values =>
      (mkProgress (closed p) (writeString (tableFile p) (csvLine values))
                  (GoInt.add (tableRowCount p) 1) (fileIndex p)
                  (GoInt.add (rowCount p) 1), false)
  end.

Fixpoint dumpRows (maxRows : Z) (create : Z -> bool) (header : string)
    (rows : list (option (list Value))) (p : Progress) : Progress :=
  match rows with
  | [] => p
  | row :: rest =>
      let '(p, stop) := rowStep maxRows create header row p in
      if stop then p else dumpRows maxRows create header rest p
  end.

(** The files of the table once the loop is over and the last file is
    closed. *)
Definition tableFiles (p : Progress) : list TableFile := closeFile p.

(** The lines of a file below its header. *)
Definition dataLines (f : TableFile) : list string := tail (written f).

(** The rows that [rows.Scan] delivered. *)
Definition scanned (rows : list (option (list Value))) : list (list Value) :=
  flat_map (fun row => match row with Some v => [v] | None => [] end) rows.

End Dump.

(** Five rows, the third of which fails to scan. *)
Definition fiveRows : list (option (list Value)) :=
  [Some [VBytes "1"]; Some [VBytes "2"]; None; Some [VBytes "3"];
   Some [VBytes "4"]; Some [VBytes "5"]].

(** What holds of the loop state after the rows [done], when every
    part file can be created; [rowCount0] is the count of rows dumped
    before this table. *)
Definition dumpInvariant (maxRows : Z) (header : string) (rowCount0 : Z)
    (done : list (option (list Value))) (p : Dump.Progress) : Prop :=
  exists f,
    Dump.tableFile p = Some f /\
    concat (map Dump.dataLines (Dump.closed p ++ [f]))
    = map csvLine (Dump.scanned done) /\
    Forall (fun g => head (Dump.written g) = Some header)
           (Dump.closed p ++ [f]) /\
    Dump.fileIndex p
    = GoInt.wrap (1 + Z.of_nat (length (Dump.closed p))) /\
    Dump.rowCount p
    = GoInt.wrap (rowCount0 + Z.of_nat (length (Dump.scanned done))) /\
    ((0 < maxRows)%Z ->
     Forall (fun g => Z.of_nat (length (Dump.dataLines g)) = maxRows)
            (Dump.closed p) /\
     Dump.tableRowCount p = Z.of_nat (length (Dump.dataLines f)) /\
     (Dump.tableRowCount p <= maxRows)%Z) /\
    ((maxRows <= 0)%Z -> Dump.closed p = []).

(** The options that [createSampleConfig] writes to [config.json]. *)
Definition sampleConfig : Cli.Config :=
  {| Cli.Host := "mysql.server.com";
     Cli.Port := 3306;
     Cli.SingleUser := "admin";
     Cli.UserList := "users.txt";
     Cli.SinglePass := "pass123";
     Cli.PassList := "pass.txt";
     Cli.Verbose := true;
     Cli.FirstOnly := false;
     Cli.UserFirst := false;
     Cli.ExecCmd := "SHOW DATABASES;";
     Cli.AllowDangerous := false;
     Cli.LogFile := "results.log";
     Cli.UseSSL := false;
     Cli.SkipSSL := false;
     Cli.Workers := 10;
     Cli.Enum := false;
     Cli.EnumOutputFile := "enum_results.txt";
     Cli.Dump := false;
     Cli.DumpDir := "mysql_dump";
     Cli.QuietDump := false;
     Cli.MaxRowsPerFile := 10000 |}.

(** ** The interactive loop

    What [enterInteractiveMode] does with one line read from the
    terminal. *)

Inductive Interactive : Type :=
| ISkip
| IExit
| IHelp
| IStatus
| IPentest
| IPentestCategory (categoryName : string)
| IShowDatabases
| IUse (dbName : string)
| IRun (route : Route).

Definition backtick : ascii := ascii_of_nat 96.
Definition apostrophe : ascii := ascii_of_nat 39.

Section InteractiveLoop.

Variable unicodeUpper unicodeLower : string -> string.
Variable allowDangerous : bool.

Definition isOneOf (s : string) (cases : list string) : bool :=
  existsb (String.eqb s) cases.

Definition interactiveLine (input : string) : Interactive :=
  let cmd := TrimSpace input in
  if (cmd =? "")%string then ISkip else
  let lower := ToLower unicodeLower cmd in
  if isOneOf lower ["exit"; "quit"; String backslash "q"] then IExit
  else if isOneOf lower ["help"; String backslash "h"; String backslash "?"]
  then IHelp
  else if isOneOf lower ["status"; String backslash "s"] then IStatus
  else if isOneOf lower ["pentest"; String backslash "p"] then IPentest
  else if HasPrefix lower "pentest " then
    IPentestCategory (TrimSpace (TrimPrefix lower "pentest "))
  else if commandMatches unicodeUpper cmd "SHOW DATABASES" then IShowDatabases
  else if HasPrefix (ToUpper unicodeUpper cmd) "USE " then
    let dbNamePart := TrimSpace (TrimPrefix cmd "USE ") in
    let dbNamePart := TrimPrefix dbNamePart "use " in
    let dbName :=
      Trim dbNamePart (String backtick (String apostrophe (String quote ""))) in
    let dbName := TrimSuffix dbName ";" in
    IUse dbName
  else IRun (commandRoute unicodeUpper allowDangerous cmd).

End InteractiveLoop.

(** A byte of a plain database name: an ASCII letter, a digit or [_]. *)
Definition nameByte (c : ascii) : bool :=
  let n := N_of_ascii c in
  ((48 <=? n) && (n <=? 57) || (65 <=? n) && (n <=? 90)
   || (97 <=? n) && (n <=? 122) || (n =? 95))%N.

(** The line the loop suggests for a database [shop], as read from the
    terminal. *)
Definition hintedUse : string :=
  ("use " ++ String backtick ("shop" ++ String backtick (String ";"
     (String lineFeed ""))))%string.

(** ** The data source names of [testLogin] *)

From Stdlib Require DecimalString.

(** [%d] of an [int]. *)
Definition formatInt (z : Z) : string :=
  DecimalString.NilZero.string_of_int (Z.to_int z).

(** [dsn], the name for the trial connection. *)
Definition dsnOf (cfg : Cli.Config) (user pass : string) : string :=
  let address :=
    (user ++ ":" ++ pass ++ "@tcp(" ++ Cli.Host cfg ++ ":"
     ++ formatInt (Cli.Port cfg) ++ ")/")%string in
  if Cli.SkipSSL cfg then address
  else
    let tlsOption :=
      if Cli.UseSSL cfg && negb (Cli.SkipSSL cfg) then "true"
      else "skip-verify" in
    (address ++ "?tls=" ++ tlsOption)%string.

(** [dumpDSN], the name for the connection of the dump. *)
Definition dumpDSNOf (cfg : Cli.Config) (user pass : string) : string :=
  let dumpDSN := dsnOf cfg user pass in
  if negb (Contains dumpDSN "multiStatements=true") then
    if Contains dumpDSN "?" then (dumpDSN ++ "&multiStatements=true")%string
    else (dumpDSN ++ "?multiStatements=true")%string
  else dumpDSN.

(** [-h db -u root -p why? --skip-ssl --dump] *)
Definition skipSslFlags : Cli.Config :=
  Cli.mkConfig "db" 3306 "root" "" "why?" "" false false false
               "SHOW DATABASES;" false "" false true 10 false "" true
               "mysql_dump" false 10000.

(** ** Proof tools *)

(** Case analysis on an action that has been performed. *)
Ltac exec_cases H :=
  unfold exec, execWorker in H;
  repeat (case_match; try discriminate);
  simplify_eq.

(** * Properties *)

(** ** Go's [int] *)

Lemma wrap_small z :
  (GoInt.minInt <= z <= GoInt.maxInt)%Z -> GoInt.wrap z = z.
Proof.
  unfold GoInt.wrap, GoInt.minInt, GoInt.maxInt, GoInt.modulus, GoInt.bits.
  intros H. rewrite Z.mod_small; lia.
Qed.

Lemma wrap_add_l a b : GoInt.wrap (GoInt.wrap a + b) = GoInt.wrap (a + b).
Proof.
  unfold GoInt.wrap, GoInt.modulus, GoInt.bits. f_equal.
  replace ((a + 2 ^ (64 - 1)) mod 2 ^ 64 - 2 ^ (64 - 1) + b + 2 ^ (64 - 1))%Z
    with ((a + 2 ^ (64 - 1)) mod 2 ^ 64 + b)%Z by lia.
  rewrite Zplus_mod_idemp_l. f_equal. lia.
Qed.

Lemma wrap_mul a b :
  GoInt.wrap (GoInt.wrap a * GoInt.wrap b) = GoInt.wrap (a * b).
Proof.
  unfold GoInt.wrap, GoInt.modulus, GoInt.bits. f_equal.
  set (h := (2 ^ (64 - 1))%Z). set (m := (2 ^ 64)%Z).
  rewrite <- (Zplus_mod_idemp_l (a * b)), <- (Zplus_mod_idemp_l (_ * _)).
  f_equal. f_equal.
  rewrite (Zmult_mod a b), Zmult_mod. f_equal. f_equal.
  - rewrite <- Zminus_mod_idemp_l, Z.mod_mod by (subst m; lia).
    rewrite Zminus_mod_idemp_l. f_equal. lia.
  - rewrite <- Zminus_mod_idemp_l, Z.mod_mod by (subst m; lia).
    rewrite Zminus_mod_idemp_l. f_equal. lia.
Qed.

(** ** [strings.TrimSpace] *)

Section TrimFacts.

Variable p2 : N -> N -> bool.
Variable p3 : N -> N -> N -> bool.

Local Abbreviation trim := (trimWith p2 p3).
Local Abbreviation hd_space := (headSpace p2 p3).

(** Induction along the recursion of [trimWith]: tails of depth up to 3. *)
Lemma trim_ind (P : list ascii -> Prop) :
  (forall s, (forall t, length t < length s -> P t) -> P s) ->
  forall s, P s.
Proof.
  intros step s. remember (length s) as n eqn:E. revert s E.
  induction n as [n IH] using lt_wf_ind. intros s ->.
  apply step. intros t Ht. apply (IH (length t)); [lia | reflexivity].
Qed.

Lemma trimWith_suffix s : exists z, s = z ++ trim s.
Proof.
  induction s as [s IH] using trim_ind.
  destruct s as [|c1 [|c2 [|c3 r3]]]; simpl.
  - exists []. reflexivity.
  - destruct (isAsciiSpace _); [exists [c1] | exists []]; reflexivity.
  - destruct (isAsciiSpace _).
    + destruct (IH [c2]) as [z Hz]; [simpl; lia|].
      exists (c1 :: z). simpl. f_equal. exact Hz.
    + destruct (p2 _ _); [exists [c1; c2] | exists []]; reflexivity.
  - destruct (isAsciiSpace _).
    + destruct (IH (c2 :: c3 :: r3)) as [z Hz]; [simpl; lia|].
      exists (c1 :: z). simpl. f_equal. exact Hz.
    + destruct (p2 _ _).
      * destruct (IH (c3 :: r3)) as [z Hz]; [simpl; lia|].
        exists (c1 :: c2 :: z). simpl. do 2 f_equal. exact Hz.
      * destruct (p3 _ _ _).
        -- destruct (IH r3) as [z Hz]; [simpl; lia|].
           exists (c1 :: c2 :: c3 :: z). simpl. do 3 f_equal. exact Hz.
        -- exists []. reflexivity.
Qed.

(** The cut stops in front of a rune that is not white space. *)
Lemma trimWith_head s : hd_space (trim s) = false.
Proof.
  induction s as [s IH] using trim_ind.
  destruct s as [|c1 [|c2 [|c3 r3]]]; simpl.
  - reflexivity.
  - destruct (isAsciiSpace _) eqn:E1; simpl; [reflexivity|].
    rewrite E1. reflexivity.
  - destruct (isAsciiSpace (N_of_ascii c1)) eqn:E1.
    + apply (IH [c2]). simpl; lia.
    + destruct (p2 _ _) eqn:E2; simpl; [reflexivity|].
      rewrite E1, E2. reflexivity.
  - destruct (isAsciiSpace (N_of_ascii c1)) eqn:E1.
    + apply (IH (c2 :: c3 :: r3)). simpl; lia.
    + destruct (p2 _ _) eqn:E2.
      * apply (IH (c3 :: r3)). simpl; lia.
      * destruct (p3 _ _ _) eqn:E3.
        -- apply IH. simpl; lia.
        -- simpl. rewrite E1, E2, E3. reflexivity.
Qed.

Lemma trimWith_id s : hd_space s = false -> trim s = s.
Proof.
  destruct s as [|c1 [|c2 [|c3 r3]]]; simpl; intros H.
  - reflexivity.
  - destruct (isAsciiSpace _); [discriminate | reflexivity].
  - destruct (isAsciiSpace _); [discriminate|].
    destruct (p2 _ _); [discriminate | reflexivity].
  - destruct (isAsciiSpace _); [discriminate|].
    destruct (p2 _ _); [discriminate|].
    destruct (p3 _ _ _); [discriminate | reflexivity].
Qed.

Lemma trimWith_idem s : trim (trim s) = trim s.
Proof. apply trimWith_id, trimWith_head. Qed.

(** A leading white-space rune stays one when bytes are appended. *)
Lemma headSpace_app s w : hd_space s = true -> hd_space (s ++ w) = true.
Proof.
  destruct s as [|c1 [|c2 [|c3 r3]]]; simpl; intros H.
  - discriminate.
  - rewrite orb_false_r in H. rewrite H. reflexivity.
  - destruct (isAsciiSpace _); [reflexivity|]. simpl in *.
    rewrite orb_false_r in H. rewrite H. reflexivity.
  - exact H.
Qed.

End TrimFacts.

Lemma trimLeft_of_trimmed s : trimLeft (trimRight (trimLeft s)) = trimRight (trimLeft s).
Proof.
  unfold trimLeft. apply trimWith_id.
  destruct (headSpace spaceRune2 spaceRune3 (trimRight (trimWith spaceRune2 spaceRune3 s)))
    eqn:E; [|reflexivity].
  pose proof (trimWith_head spaceRune2 spaceRune3 s) as Hh.
  unfold trimRight in E.
  destruct (trimWith_suffix (fun b a => spaceRune2 a b) (fun c b a => spaceRune3 a b c)
              (rev (trimWith spaceRune2 spaceRune3 s))) as [z Hz].
  apply (f_equal (@rev ascii)) in Hz.
  rewrite rev_involutive, rev_app_distr in Hz.
  rewrite Hz in Hh.
  rewrite (headSpace_app _ _ _ (rev z) E) in Hh. discriminate.
Qed.

Lemma trimRight_idem s : trimRight (trimRight s) = trimRight s.
Proof.
  unfold trimRight. rewrite rev_involutive, trimWith_idem. reflexivity.
Qed.

(** Trimming a trimmed string changes nothing. *)
Lemma TrimSpace_idem s : TrimSpace (TrimSpace s) = TrimSpace s.
Proof.
  unfold TrimSpace. rewrite list_ascii_of_string_of_list_ascii.
  rewrite trimLeft_of_trimmed, trimRight_idem. reflexivity.
Qed.

Example TrimSpace_examples :
  TrimSpace "  admin " = "admin" /\ TrimSpace "   " = "" /\
  TrimSpace (String (ascii_of_nat 194) (String (ascii_of_nat 160) "x")) = "x".
Proof. repeat split; vm_compute; reflexivity. Qed.

(** ** Source streams *)

Lemma stream_loop lines acc :
  fold_left
    (fun ch text =>
       let line := TrimSpace text in
       if negb (line =? "") then ch ++ [line] else ch)
    lines acc
  = acc ++ candidates lines.
Proof.
  revert acc. induction lines as [|text lines IH]; intros acc; simpl.
  - rewrite app_nil_r. reflexivity.
  - rewrite IH. unfold candidates. simpl.
    destruct (TrimSpace text =? ""); simpl; [reflexivity|].
    rewrite <- app_assoc. reflexivity.
Qed.

Lemma streamLinesFromFile_candidates fs filename :
  streamLinesFromFile fs filename =
  match fs filename with None => [] | Some lines => candidates lines end.
Proof.
  unfold streamLinesFromFile. destruct (fs filename); [|reflexivity].
  apply stream_loop.
Qed.

(** Once the sentinel is behind, the loop is the plain stream's. *)
Lemma resume_loop_found lastValue lines acc :
  fold_left (resumeStep lastValue) lines (true, acc)
  = (true, acc ++ candidates lines).
Proof.
  revert acc. induction lines as [|text lines IH]; intros acc; simpl.
  - rewrite app_nil_r. reflexivity.
  - unfold candidates. simpl.
    destruct (TrimSpace text =? "") eqn:E; simpl.
    + apply IH.
    + rewrite IH, <- app_assoc. reflexivity.
Qed.

(** Before the sentinel, lines that do not match are dropped. *)
Lemma resume_loop_skip lastValue pre rest acc :
  Forall (fun x => TrimSpace x <> lastValue) pre ->
  fold_left (resumeStep lastValue) (pre ++ rest) (false, acc)
  = fold_left (resumeStep lastValue) rest (false, acc).
Proof.
  induction 1 as [|text pre Hne _ IH]; simpl; [reflexivity|].
  destruct (TrimSpace text =? "") eqn:E; [exact IH|].
  destruct (String.eqb_spec (TrimSpace text) lastValue) as [Heq|_];
    [contradiction | exact IH].
Qed.

Lemma candidates_nonempty_trimmed lines c :
  In c (candidates lines) -> c <> "" /\ TrimSpace c = c.
Proof.
  unfold candidates. rewrite filter_In, in_map_iff.
  intros [(text & <- & _) Hne]. split.
  - intros E. rewrite E in Hne. discriminate.
  - apply TrimSpace_idem.
Qed.

Lemma resume_sublist fs filename lastValue c :
  In c (resumeStreamFromFile fs filename lastValue) ->
  exists lines, In c (candidates lines).
Proof.
  unfold resumeStreamFromFile. destruct (fs filename) as [lines|]; [|intros []].
  destruct (lastValue =? "") eqn:E0.
  - rewrite resume_loop_found. simpl. eauto.
  - assert (G : forall ls acc c,
               In c (snd (fold_left (resumeStep lastValue) ls (false, acc))) ->
               In c acc \/ exists ls', In c (candidates ls')).
    { induction ls as [|text ls IH]; intros acc c' Hc; simpl in *; [auto|].
      destruct (TrimSpace text =? ""); [eauto|].
      destruct (TrimSpace text =? lastValue); [|eauto].
      rewrite resume_loop_found in Hc. simpl in Hc.
      apply in_app_or in Hc as [?|?]; eauto. }
    intros Hc. apply G in Hc as [[]|?]. assumption.
Qed.

Example resume_examples :
  let fs : FileSystem := fun _ => Some ["u1"; "u2"; "u3"] in
  resumeStreamFromFile fs "users.txt" "u2" = ["u3"] /\
  resumeStreamFromFile fs "users.txt" "" = ["u1"; "u2"; "u3"] /\
  resumeStreamFromFile fs "users.txt" "u9" = [].
Proof. repeat split; vm_compute; reflexivity. Qed.

(** ** Pair generator *)

Example identity_major_example :
  buildCredentialPairs ["i1"; "i2"] ["s1"; "s2"] true =
  [mkCredential "i1" "s1"; mkCredential "i1" "s2";
   mkCredential "i2" "s1"; mkCredential "i2" "s2"].
Proof. reflexivity. Qed.

Example secret_major_example :
  buildCredentialPairs ["i1"; "i2"] ["s1"; "s2"] false =
  [mkCredential "i1" "s1"; mkCredential "i2" "s1";
   mkCredential "i1" "s2"; mkCredential "i2" "s2"].
Proof. reflexivity. Qed.

Lemma drain_id ch : drain ch = ch.
Proof.
  unfold drain.
  assert (G : forall l acc : list string, fold_left (fun xs x => xs ++ [x]) l acc = acc ++ l).
  { induction l as [|x l IH]; intros acc; simpl.
    - rewrite app_nil_r. reflexivity.
    - rewrite IH, <- app_assoc. reflexivity. }
  apply G.
Qed.

Lemma emit_inner {A} (f : A -> Credential) l acc :
  fold_left (fun credChan x => credChan ++ [f x]) l acc = acc ++ map f l.
Proof.
  revert acc. induction l as [|x l IH]; intros acc; simpl.
  - rewrite app_nil_r. reflexivity.
  - rewrite IH, <- app_assoc. reflexivity.
Qed.

Lemma emit_outer {A B} (f : A -> B -> Credential) outer inner acc :
  fold_left
    (fun credChan x =>
       fold_left (fun credChan y => credChan ++ [f x y]) inner credChan)
    outer acc
  = acc ++ flat_map (fun x => map (f x) inner) outer.
Proof.
  revert acc. induction outer as [|x outer IH]; intros acc; simpl.
  - rewrite app_nil_r. reflexivity.
  - rewrite IH, emit_inner, <- app_assoc. reflexivity.
Qed.

Lemma buildCredentialPairs_userFirst us ps :
  buildCredentialPairs us ps true = identityMajor us ps.
Proof.
  unfold buildCredentialPairs, identityMajor. rewrite !drain_id.
  apply (emit_outer mkCredential).
Qed.

Lemma buildCredentialPairs_passFirst us ps :
  buildCredentialPairs us ps false = secretMajor us ps.
Proof.
  unfold buildCredentialPairs, secretMajor. rewrite drain_id.
  apply (emit_outer (fun p u => mkCredential u p)).
Qed.

(** Rows of equal width: entry [(i, j)] of the concatenation. *)
Lemma flat_map_lookup {A B} (f : A -> list B) n (l : list A) i j x y :
  (forall a, length (f a) = n) ->
  l !! i = Some x -> f x !! j = Some y ->
  flat_map f l !! (i * n + j) = Some y.
Proof.
  intros Hn. revert i. induction l as [|a l IH]; intros i Hi Hj;
    [discriminate|].
  assert (j < n) by (rewrite <- (Hn x); eapply lookup_lt_Some; eauto).
  destruct i as [|i]; simpl in *.
  - injection Hi as ->. rewrite lookup_app_l by (rewrite Hn; lia). exact Hj.
  - rewrite lookup_app_r by (rewrite Hn; lia). rewrite Hn.
    replace (n + i * n + j - n) with (i * n + j) by lia. auto.
Qed.

Lemma flat_map_length_const {A B} (f : A -> list B) n (l : list A) :
  (forall a, length (f a) = n) -> length (flat_map f l) = length l * n.
Proof.
  intros Hn. induction l as [|a l IH]; simpl; [reflexivity|].
  rewrite length_app, Hn, IH. reflexivity.
Qed.

Lemma flat_map_NoDup {A B} (f : A -> list B) (l : list A) :
  NoDup l ->
  (forall a, NoDup (f a)) ->
  (forall a a' y, In y (f a) -> In y (f a') -> a = a') ->
  NoDup (flat_map f l).
Proof.
  intros Hl Hf Hinj. induction Hl as [|a l Hnotin Hl IH]; simpl.
  - constructor.
  - apply NoDup_app. split; [apply Hf|]. split; [|exact IH].
    intros y Hy Hy'. apply list_elem_of_In in Hy, Hy'.
    apply in_flat_map in Hy' as (a' & Ha' & Hy').
    rewrite (Hinj a a' y Hy Hy') in Hnotin.
    apply Hnotin, list_elem_of_In, Ha'.
Qed.

(** C3: for finite source streams with identities [i1..im] and secrets
    [s1..sn], the pair generator emits exactly the m*n pairs of the
    Cartesian product: with the user-first strategy in identity-major
    order (pair (a, b) at position a*n + b), otherwise in secret-major
    order (pair (a, b) at position b*m + a). *)
Theorem C3_cartesian_product_order (ids secrets : list string) :
  buildCredentialPairs ids secrets true = identityMajor ids secrets /\
  buildCredentialPairs ids secrets false = secretMajor ids secrets /\
  length (buildCredentialPairs ids secrets true)
    = length ids * length secrets /\
  length (buildCredentialPairs ids secrets false)
    = length ids * length secrets /\
  (forall a b i s,
      ids !! a = Some i -> secrets !! b = Some s ->
      buildCredentialPairs ids secrets true !! (a * length secrets + b)
        = Some (mkCredential i s) /\
      buildCredentialPairs ids secrets false !! (b * length ids + a)
        = Some (mkCredential i s)).
Proof.
  rewrite buildCredentialPairs_userFirst, buildCredentialPairs_passFirst.
  unfold identityMajor, secretMajor.
  repeat split.
  - apply flat_map_length_const. intros a. apply length_map.
  - rewrite (flat_map_length_const _ (length ids)).
    + apply Nat.mul_comm.
    + intros a. apply length_map.
  - apply (flat_map_lookup _ _ _ _ _ i).
    + intros x. apply length_map.
    + assumption.
    + rewrite list_lookup_fmap, H0. reflexivity.
  - apply (flat_map_lookup _ _ _ _ _ s).
    + intros x. apply length_map.
    + assumption.
    + rewrite list_lookup_fmap, H. reflexivity.
Qed.

Lemma C3_witness :
  buildCredentialPairs ["i1"; "i2"] ["s1"; "s2"] true !! 2
    = Some (mkCredential "i2" "s1") /\
  buildCredentialPairs ["i1"; "i2"] ["s1"; "s2"] false !! 1
    = Some (mkCredential "i2" "s1").
Proof.
  destruct (C3_cartesian_product_order ["i1"; "i2"] ["s1"; "s2"])
    as (_ & _ & _ & _ & H).
  exact (H 1 0 "i2" "s1" eq_refl eq_refl).
Defined.

(** C4, as the code has it: when neither source stream holds a candidate
    twice, no pair is emitted twice, under either strategy. *)
Theorem C4_distinct_sources_distinct_pairs
    (ids secrets : list string) (userFirst : bool) :
  NoDup ids -> NoDup secrets ->
  NoDup (buildCredentialPairs ids secrets userFirst).
Proof.
  intros Hi Hs. destruct userFirst.
  - rewrite buildCredentialPairs_userFirst. unfold identityMajor.
    apply flat_map_NoDup; [assumption| |].
    + intros i. apply NoDup_fmap_2; [|assumption].
      intros x y E. injection E. auto.
    + intros i i' y Hy Hy'.
      apply in_map_iff in Hy as (x & <- & _).
      apply in_map_iff in Hy' as (x' & E & _). injection E. auto.
  - rewrite buildCredentialPairs_passFirst. unfold secretMajor.
    apply flat_map_NoDup; [assumption| |].
    + intros s. apply NoDup_fmap_2; [|assumption].
      intros x y E. injection E. auto.
    + intros s s' y Hy Hy'.
      apply in_map_iff in Hy as (x & <- & _).
      apply in_map_iff in Hy' as (x' & E & _). injection E. auto.
Qed.

Lemma C4_witness :
  NoDup (buildCredentialPairs ["root"; "admin"] ["toor"] false).
Proof.
  apply C4_distinct_sources_distinct_pairs.
  - apply NoDup_cons. split; [|apply NoDup_singleton].
    intros H. apply list_elem_of_singleton in H. discriminate.
  - apply NoDup_singleton.
Defined.

(** C4, as stated, fails: a user file that lists a name twice yields
    every pair with that name twice, under either strategy. *)
Lemma C4_repeated_line_repeats_pair :
  let fs : FileSystem :=
    fun f => if f =? "users.txt" then Some ["root"; "root"] else None in
  buildCredentialPairs (streamLinesFromFile fs "users.txt")
                       (singleValueChannel "toor") true
    = [mkCredential "root" "toor"; mkCredential "root" "toor"] /\
  ~ NoDup (buildCredentialPairs (streamLinesFromFile fs "users.txt")
                                (singleValueChannel "toor") true) /\
  ~ NoDup (buildCredentialPairs (streamLinesFromFile fs "users.txt")
                                (singleValueChannel "toor") false).
Proof.
  split; [vm_compute; reflexivity|].
  split; intros H; vm_compute in H;
    apply NoDup_cons in H as [H _]; apply H; constructor.
Qed.

(** C5: for a non-empty sentinel, the resumable stream yields the
    non-blank trimmed lines that follow the first line whose trimmed
    content is the sentinel, in file order, and nothing when no line
    matches. *)
Theorem C5_resume_after_sentinel
    (fs : FileSystem) (filename sentinel : string) (lines : list string) :
  fs filename = Some lines ->
  sentinel <> "" ->
  (forall pre line post,
      lines = pre ++ line :: post ->
      Forall (fun x => TrimSpace x <> sentinel) pre ->
      TrimSpace line = sentinel ->
      resumeStreamFromFile fs filename sentinel = candidates post) /\
  (Forall (fun x => TrimSpace x <> sentinel) lines ->
   resumeStreamFromFile fs filename sentinel = []).
Proof.
  intros Hfs Hne. unfold resumeStreamFromFile. rewrite Hfs.
  destruct (String.eqb_spec sentinel "") as [|_]; [contradiction|].
  split.
  - intros pre line post -> Hpre Hline.
    rewrite resume_loop_skip by assumption. simpl.
    rewrite Hline.
    destruct (String.eqb_spec sentinel "") as [|_]; [contradiction|].
    rewrite String.eqb_refl, resume_loop_found. reflexivity.
  - intros Hall. rewrite <- (app_nil_r lines).
    rewrite resume_loop_skip by assumption. reflexivity.
Qed.

Lemma C5_witness :
  let fs : FileSystem := fun _ => Some ["u1"; " u2 "; ""; "u3 "] in
  resumeStreamFromFile fs "users.txt" "u2" = ["u3"] /\
  resumeStreamFromFile fs "users.txt" "u9" = [].
Proof.
  intros fs. split.
  - refine (proj1 (C5_resume_after_sentinel fs "users.txt" "u2" _ eq_refl _)
                  ["u1"] " u2 " [""; "u3 "] eq_refl _ _).
    + discriminate.
    + constructor; [vm_compute; discriminate | constructor].
    + vm_compute; reflexivity.
  - refine (proj2 (C5_resume_after_sentinel fs "users.txt" "u9" _ eq_refl _) _).
    + discriminate.
    + repeat constructor; vm_compute; discriminate.
Defined.

(** C6: with the empty sentinel the resumable stream is the plain
    file-backed stream, whatever the file. *)
Theorem C6_resume_from_start (fs : FileSystem) (filename : string) :
  resumeStreamFromFile fs filename "" = streamLinesFromFile fs filename.
Proof.
  rewrite streamLinesFromFile_candidates. unfold resumeStreamFromFile.
  destruct (fs filename) as [lines|]; [|reflexivity].
  simpl. rewrite resume_loop_found. reflexivity.
Qed.

(** C9, as the code has it: every candidate of a file-backed or a
    resumable stream is non-empty and equal to its own trim; a literal
    stream hands over its value as it is. *)
Theorem C9_file_candidates_trimmed
    (fs : FileSystem) (filename lastValue c : string) :
  (In c (streamLinesFromFile fs filename) \/
   In c (resumeStreamFromFile fs filename lastValue) ->
   c <> "" /\ TrimSpace c = c) /\
  (forall value, singleValueChannel value = [value]).
Proof.
  split; [|reflexivity].
  intros [H|H].
  - rewrite streamLinesFromFile_candidates in H.
    destruct (fs filename); [|destruct H].
    eapply candidates_nonempty_trimmed; eauto.
  - apply resume_sublist in H as [lines H].
    eapply candidates_nonempty_trimmed; eauto.
Qed.

Lemma C9_witness : "admin" <> "" /\ TrimSpace "admin" = "admin".
Proof.
  refine (proj1 (C9_file_candidates_trimmed
                   (fun _ => Some [" admin "; "  "]) "users.txt" "" "admin") _).
  left. vm_compute. left. reflexivity.
Defined.

(** C9, as stated, fails for literal streams: the value is neither
    trimmed nor required to be non-empty (the run without a password
    sends the empty string). *)
Lemma C9_literal_not_trimmed :
  In "" (passChan (mkConfig "root" "" "" "" false false 10)
                  (fun _ => None) false None) /\
  In " root " (singleValueChannel " root ") /\
  TrimSpace " root " <> " root ".
Proof.
  split; [left; reflexivity|].
  split; [left; reflexivity|].
  vm_compute. discriminate.
Qed.

(** ** Progress estimate *)

Lemma count_loop lines a :
  fold_left
    (fun count text =>
       if negb (TrimSpace text =? "") then GoInt.add count 1 else count)
    lines (GoInt.wrap a)
  = GoInt.wrap (a + Z.of_nat (nonBlankCount lines)).
Proof.
  revert a. induction lines as [|text lines IH]; intros a.
  - simpl. f_equal. unfold nonBlankCount. simpl. lia.
  - simpl. unfold nonBlankCount, candidates in *. simpl.
    destruct (TrimSpace text =? ""); simpl.
    + apply IH.
    + unfold GoInt.add. rewrite wrap_add_l, IH. f_equal. lia.
Qed.

Lemma countLines_wrap fs filename lines :
  fs filename = Some lines ->
  countLines fs filename = GoInt.wrap (Z.of_nat (nonBlankCount lines)).
Proof.
  intros H. unfold countLines. rewrite H.
  change 0%Z with (GoInt.wrap 0) at 1. rewrite count_loop. reflexivity.
Qed.

Lemma nonBlankCount_repeat line n :
  TrimSpace line <> "" -> nonBlankCount (repeat line n) = n.
Proof.
  intros H. unfold nonBlankCount, candidates.
  induction n as [|n IH]; simpl; [reflexivity|].
  destruct (String.eqb_spec (TrimSpace line) "") as [|_]; [contradiction|].
  simpl. rewrite IH. reflexivity.
Qed.

Lemma totalTests_literal_file cfg fs secrets :
  SingleUser cfg <> "" -> SinglePass cfg = "" -> PassList cfg <> "" ->
  fs (PassList cfg) = Some secrets ->
  totalTests cfg fs = GoInt.wrap (Z.of_nat (nonBlankCount secrets)).
Proof.
  intros Hu Hp Hl Hfs. unfold totalTests.
  destruct (String.eqb_spec (SingleUser cfg) ""); [contradiction|].
  destruct (String.eqb_spec (SinglePass cfg) ""); [|contradiction].
  destruct (String.eqb_spec (PassList cfg) ""); [contradiction|].
  simpl. apply countLines_wrap, Hfs.
Qed.

Lemma totalTests_file_file cfg fs ids secrets :
  SingleUser cfg = "" -> UserList cfg <> "" ->
  SinglePass cfg = "" -> PassList cfg <> "" ->
  fs (UserList cfg) = Some ids -> fs (PassList cfg) = Some secrets ->
  totalTests cfg fs
  = GoInt.wrap (Z.of_nat (nonBlankCount ids) * Z.of_nat (nonBlankCount secrets)).
Proof.
  intros Hu Hul Hp Hpl Hi Hs. unfold totalTests.
  destruct (String.eqb_spec (SingleUser cfg) ""); [|contradiction].
  destruct (String.eqb_spec (UserList cfg) ""); [contradiction|].
  destruct (String.eqb_spec (SinglePass cfg) ""); [|contradiction].
  destruct (String.eqb_spec (PassList cfg) ""); [contradiction|].
  simpl. rewrite (countLines_wrap _ _ _ Hi), (countLines_wrap _ _ _ Hs).
  unfold GoInt.mul. apply wrap_mul.
Qed.

(** C10, as the code has it: the estimate is 1 for a literal identity
    with a literal secret; N for a literal identity with a secret file
    of N non-blank lines; M*N for an identity file of M non-blank lines
    with a secret file of N non-blank lines as long as the product is
    at most the largest [int], and in general the product reduced to
    [int]. *)
Theorem C10_progress_estimate (cfg : Config) (fs : FileSystem) :
  (SingleUser cfg <> "" -> SinglePass cfg <> "" -> totalTests cfg fs = 1%Z) /\
  (forall secrets,
      SingleUser cfg <> "" -> SinglePass cfg = "" -> PassList cfg <> "" ->
      fs (PassList cfg) = Some secrets ->
      (Z.of_nat (nonBlankCount secrets) <= GoInt.maxInt)%Z ->
      totalTests cfg fs = Z.of_nat (nonBlankCount secrets)) /\
  (forall ids secrets,
      SingleUser cfg = "" -> UserList cfg <> "" ->
      SinglePass cfg = "" -> PassList cfg <> "" ->
      fs (UserList cfg) = Some ids -> fs (PassList cfg) = Some secrets ->
      totalTests cfg fs
        = GoInt.wrap (Z.of_nat (nonBlankCount ids)
                      * Z.of_nat (nonBlankCount secrets)) /\
      ((Z.of_nat (nonBlankCount ids) * Z.of_nat (nonBlankCount secrets)
          <= GoInt.maxInt)%Z ->
       totalTests cfg fs
         = (Z.of_nat (nonBlankCount ids) * Z.of_nat (nonBlankCount secrets))%Z)).
Proof.
  split; [|split].
  - intros Hu Hp. unfold totalTests.
    destruct (String.eqb_spec (SingleUser cfg) ""); [contradiction|].
    destruct (String.eqb_spec (SinglePass cfg) ""); [contradiction|].
    reflexivity.
  - intros secrets Hu Hp Hl Hfs Hn.
    rewrite (totalTests_literal_file _ _ _ Hu Hp Hl Hfs). apply wrap_small.
    unfold GoInt.minInt, GoInt.bits. lia.
  - intros ids secrets Hu Hul Hp Hpl Hi Hs.
    rewrite (totalTests_file_file _ _ _ _ Hu Hul Hp Hpl Hi Hs).
    split; [reflexivity|].
    intros Hn. apply wrap_small. unfold GoInt.minInt, GoInt.bits. lia.
Qed.

Lemma C10_witness :
  let fs : FileSystem :=
    fun f => if f =? "users.txt" then Some ["root"; ""; " admin"]
             else if f =? "pass.txt" then Some ["toor"; "  "; "123456"; "x"]
             else None in
  totalTests (mkConfig "root" "" "toor" "" false false 10) fs = 1%Z /\
  totalTests (mkConfig "root" "" "" "pass.txt" false false 10) fs = 3%Z /\
  totalTests (mkConfig "" "users.txt" "" "pass.txt" false false 10) fs = 6%Z.
Proof.
  intros fs. split; [|split].
  - refine (proj1 (C10_progress_estimate
                     (mkConfig "root" "" "toor" "" false false 10) fs) _ _);
      discriminate.
  - refine (proj1 (proj2 (C10_progress_estimate
                            (mkConfig "root" "" "" "pass.txt" false false 10) fs))
                  ["toor"; "  "; "123456"; "x"] _ eq_refl _ eq_refl _);
      try discriminate.
  - refine (proj2 (proj2 (proj2 (C10_progress_estimate
                            (mkConfig "" "users.txt" "" "pass.txt" false false 10) fs))
                         ["root"; ""; " admin"] ["toor"; "  "; "123456"; "x"]
                         eq_refl _ eq_refl _ eq_refl eq_refl) _);
      try discriminate.
Defined.

(** C10, as stated, fails for large files: with an identity file and a
    secret file of 2^32 non-blank lines each, the product 2^64 is not
    an [int] and the estimate is 0. *)
Lemma C10_product_overflows :
  let n := Z.to_nat (2 ^ 32) in
  let fs : FileSystem :=
    fun f => if f =? "users.txt" then Some (repeat "u" n)
             else if f =? "pass.txt" then Some (repeat "p" n)
             else None in
  let cfg := mkConfig "" "users.txt" "" "pass.txt" false false 10 in
  nonBlankCount (repeat "u" n) = n /\
  nonBlankCount (repeat "p" n) = n /\
  totalTests cfg fs = 0%Z /\
  totalTests cfg fs <> (Z.of_nat n * Z.of_nat n)%Z.
Proof.
  intros n fs cfg.
  assert (Hu : nonBlankCount (repeat "u" n) = n)
    by (apply nonBlankCount_repeat; vm_compute; discriminate).
  assert (Hp : nonBlankCount (repeat "p" n) = n)
    by (apply nonBlankCount_repeat; vm_compute; discriminate).
  assert (Hn : Z.of_nat n = (2 ^ 32)%Z) by (subst n; apply Z2Nat.id; lia).
  assert (Ht : totalTests cfg fs = 0%Z).
  { rewrite (totalTests_file_file cfg fs (repeat "u" n) (repeat "p" n)
               eq_refl ltac:(discriminate) eq_refl ltac:(discriminate)
               eq_refl eq_refl).
    rewrite Hu, Hp, Hn. reflexivity. }
  split; [exact Hu|]. split; [exact Hp|]. split; [exact Ht|].
  rewrite Ht, Hn. discriminate.
Qed.

(** ** The worker pool *)

Lemma countPc_app p ws ws' :
  countPc p (ws ++ ws') = countPc p ws + countPc p ws'.
Proof. unfold countPc. rewrite List.filter_app, length_app. reflexivity. Qed.

(** Moving one worker changes a count by that worker's share. *)
Lemma countPc_insert p ws i w w' :
  ws !! i = Some w ->
  countPc p (<[i := w']> ws) + (if p (pc w) then 1 else 0)
  = countPc p ws + (if p (pc w') then 1 else 0).
Proof.
  unfold countPc. revert i. induction ws as [|x ws IH]; intros i Hi;
    [discriminate|].
  destruct i as [|i]; simpl in *.
  - injection Hi as ->. destruct (p (pc w)), (p (pc w')); simpl; lia.
  - specialize (IH i Hi). destruct (p (pc x)); simpl; lia.
Qed.

Lemma countPc_le p q ws :
  (forall x, p x = true -> q x = true) -> countPc p ws <= countPc q ws.
Proof.
  intros Hpq. unfold countPc. induction ws as [|w ws IH]; simpl; [lia|].
  destruct (p (pc w)) eqn:E.
  - rewrite (Hpq _ E). simpl. lia.
  - destruct (q (pc w)); simpl; lia.
Qed.

(** A property kept by every action holds along every schedule. *)
Lemma run_invariant cfg (P : Pool -> Prop) :
  (forall a s s', P s -> exec cfg a s = Some s' -> P s') ->
  forall tr s s', P s -> run cfg tr s = Some s' -> P s'.
Proof.
  intros step. induction tr as [|a tr IH]; intros s s' Hs Hrun; simpl in Hrun.
  - injection Hrun as <-. exact Hs.
  - destruct (exec cfg a s) as [s1|] eqn:E; [|discriminate].
    eapply IH; [|exact Hrun]. eapply step; eauto.
Qed.

(** What an action does to the workers and the semaphore. *)
Lemma exec_shape cfg a s s' :
  exec cfg a s = Some s' ->
  (workers s' = workers s /\ semaphore s' = semaphore s) \/
  (exists c, a = ASelectAdmit /\ dispatcher s = DSelect c /\
             workers s' = workers s ++ [mkWorker c WStart] /\
             semaphore s' = S (semaphore s) /\
             (Z.of_nat (semaphore s) < Workers cfg)%Z) \/
  (exists i w p,
      workers s !! i = Some w /\
      workers s' = <[i := mkWorker (cred w) p]> (workers s) /\
      (holdsSlot (pc w) = holdsSlot p /\ semaphore s' = semaphore s \/
       a = AWorker i /\ pc w = WRelease /\ p = WWgDone /\
       semaphore s = S (semaphore s'))).
Proof.
  intros H. exec_cases H; simpl; auto.
  all: try (right; left; eexists; repeat split; eauto; lia).
  all: try (right; right; do 3 eexists; split; [eassumption|];
            split; [reflexivity|]; match goal with E : pc _ = _ |- _ => rewrite E end;
            simpl; auto).
Qed.

(** The semaphore holds one token per worker that has not released. *)
Lemma slot_invariant cfg creds s :
  reachable cfg creds s ->
  semaphore s = countPc holdsSlot (workers s) /\
  (Z.of_nat (semaphore s) <= Workers cfg)%Z.
Proof.
  intros (s0 & tr & Hstart & Hrun).
  refine (run_invariant cfg
            (fun s => semaphore s = countPc holdsSlot (workers s) /\
                      (Z.of_nat (semaphore s) <= Workers cfg)%Z)
            _ tr s0 s _ Hrun).
  - clear. intros a s s' [Hcount Hcap] Hexec.
    apply exec_shape in Hexec
      as [[Hw Hs] | [(c & _ & _ & Hw & Hs & Hlt) | (i & w & p & Hi & Hw & Hcase)]];
      rewrite Hw.
    + rewrite Hs. auto.
    + rewrite Hs, countPc_app, <- Hcount.
      change (countPc holdsSlot [mkWorker c WStart]) with 1. split; lia.
    + pose proof (countPc_insert holdsSlot _ _ _ (mkWorker (cred w) p) Hi) as Hc.
      simpl in Hc.
      destruct Hcase as [[Hsame Hs] | (_ & Hpc & -> & Hs)].
      * rewrite Hsame in Hc. rewrite Hs. split; [|assumption].
        destruct (holdsSlot p); lia.
      * rewrite Hpc in Hc. simpl in Hc. lia.
  - unfold start in Hstart.
    destruct (_ || _) eqn:E; [discriminate|]. injection Hstart as <-.
    simpl. split; [reflexivity|].
    apply orb_false_iff in E as [_ E]. lia.
Qed.

(** C2: along every schedule, the workers inside [testLogin], and more
    generally the workers holding an admission slot, never exceed
    [cfg.Workers]; the slots held are the tokens in the semaphore; with
    all slots taken and no cancellation the dispatch loop has no move;
    and a slot is only freed by a worker's deferred receive. *)
Theorem C2_at_most_W_in_flight (cfg : Config) (creds : list Credential)
    (s : Pool) :
  reachable cfg creds s ->
  (Z.of_nat (countPc inTrial (workers s)) <= Workers cfg)%Z /\
  (Z.of_nat (countPc holdsSlot (workers s)) <= Workers cfg)%Z /\
  countPc holdsSlot (workers s) = semaphore s /\
  (Z.of_nat (semaphore s) = Workers cfg -> ctxDone s = false ->
   forall c, dispatcher s = DSelect c ->
   exec cfg ASelectAdmit s = None /\ exec cfg ASelectDone s = None /\
   exec cfg ARange s = None /\ exec cfg AWaitReturn s = None) /\
  (forall a s', exec cfg a s = Some s' ->
     (a = ASelectAdmit ->
      (Z.of_nat (semaphore s) < Workers cfg)%Z /\
      semaphore s' = S (semaphore s)) /\
     (semaphore s' < semaphore s ->
      exists i w, a = AWorker i /\ workers s !! i = Some w /\
                  pc w = WRelease)).
Proof.
  intros Hreach. destruct (slot_invariant _ _ _ Hreach) as [Hcount Hcap].
  assert (Hle : countPc inTrial (workers s) <= countPc holdsSlot (workers s)).
  { apply countPc_le. intros [] E; (discriminate || reflexivity). }
  split; [lia|]. split; [lia|]. split; [auto|]. split.
  - intros Hfull Hctx c Hd. unfold exec. rewrite Hd, Hctx.
    destruct (negb (alive s)); [auto|].
    assert ((Z.of_nat (semaphore s) <? Workers cfg)%Z = false) as -> by lia.
    auto.
  - intros a s' Hexec. split.
    + intros ->. unfold exec in Hexec.
      destruct (negb (alive s)); [discriminate|].
      destruct (dispatcher s); try discriminate.
      destruct (Z.of_nat (semaphore s) <? Workers cfg)%Z eqn:E;
        [|discriminate].
      injection Hexec as <-. simpl. split; [lia | reflexivity].
    + intros Hlt.
      apply exec_shape in Hexec
        as [[_ Hs] | [(c & _ & _ & _ & Hs & _) | (i & w & p & Hi & _ & Hcase)]];
        [lia | lia |].
      destruct Hcase as [[_ Hs] | (-> & Hpc & _ & Hs)]; [lia|]. eauto.
Qed.

(** What an action does to the workers and to [mu]: it leaves both, or
    starts a worker, or moves one worker, which takes the free lock,
    gives the lock back, or stays without it. *)
Lemma exec_mu_shape cfg a s s' :
  exec cfg a s = Some s' ->
  (workers s' = workers s /\ mu s' = mu s) \/
  (exists c, workers s' = workers s ++ [mkWorker c WStart] /\ mu s' = mu s) \/
  (exists i w p,
      workers s !! i = Some w /\
      workers s' = <[i := mkWorker (cred w) p]> (workers s) /\
      (holdsMu (pc w) = false /\ holdsMu p = false /\ mu s' = mu s \/
       holdsMu (pc w) = false /\ holdsMu p = true /\
         mu s = None /\ mu s' = Some i \/
       holdsMu (pc w) = true /\ holdsMu p = false /\ mu s' = None)).
Proof.
  intros H. exec_cases H; simpl; auto.
  all: try (right; left; eexists; split; reflexivity).
  all: right; right; do 3 eexists; split; [eassumption|];
       split; [reflexivity|];
       match goal with E : pc _ = _ |- _ => rewrite E end; simpl; auto 10.
Qed.

Lemma muInvariant_step cfg a s s' :
  muInvariant s -> exec cfg a s = Some s' -> muInvariant s'.
Proof.
  intros [Ha Hb] Hexec.
  apply exec_mu_shape in Hexec
    as [[Hw Hm] | [(c & Hw & Hm) | (i & w & p & Hi & Hw & Hcase)]];
    unfold muInvariant; rewrite Hw.
  - rewrite Hm. auto.
  - rewrite Hm. split.
    + intros j wj Hj Hh. apply lookup_app_Some in Hj as [Hj | [_ Hj]]; [eauto|].
      apply list_lookup_singleton_Some in Hj as [_ <-]. discriminate.
    + intros j Hj. destruct (Hb j Hj) as (wj & Hwj & Hh).
      exists wj. split; [|assumption]. apply lookup_app_l_Some, Hwj.
  - assert (Hlen : i < length (workers s)) by (eapply lookup_lt_Some; eauto).
    destruct Hcase as [(Hold & Hnew & Hm) | [(Hold & Hnew & Hfree & Hm)
                                            | (Hold & Hnew & Hm)]];
      rewrite Hm; split.
    + intros j wj Hj Hh. destruct (decide (i = j)) as [<-|Hne].
      * rewrite list_lookup_insert_eq in Hj by assumption.
        injection Hj as <-. simpl in Hh. congruence.
      * rewrite list_lookup_insert_ne in Hj by assumption. eauto.
    + intros j Hj. destruct (Hb j Hj) as (wj & Hwj & Hh).
      destruct (decide (i = j)) as [<-|Hne]; [congruence|].
      exists wj. rewrite list_lookup_insert_ne by assumption. auto.
    + intros j wj Hj Hh. destruct (decide (i = j)) as [<-|Hne]; [reflexivity|].
      rewrite list_lookup_insert_ne in Hj by assumption.
      specialize (Ha j wj Hj Hh). congruence.
    + intros j Hj. injection Hj as <-.
      exists (mkWorker (cred w) p).
      rewrite list_lookup_insert_eq by assumption. auto.
    + intros j wj Hj Hh. destruct (decide (i = j)) as [<-|Hne].
      * rewrite list_lookup_insert_eq in Hj by assumption.
        injection Hj as <-. simpl in Hh. congruence.
      * rewrite list_lookup_insert_ne in Hj by assumption.
        pose proof (Ha i w Hi Hold). pose proof (Ha j wj Hj Hh). congruence.
    + discriminate.
Qed.

Lemma muInvariant_reachable cfg creds s :
  reachable cfg creds s -> muInvariant s.
Proof.
  intros (s0 & tr & Hstart & Hrun).
  refine (run_invariant cfg muInvariant _ tr s0 s _ Hrun).
  - intros a s1 s2. apply muInvariant_step.
  - unfold start in Hstart. destruct (_ || _); [discriminate|].
    injection Hstart as <-. split; simpl.
    + intros i w Hi. rewrite lookup_nil in Hi. discriminate.
    + discriminate.
Qed.

(** An action of anyone but the holder of [mu] neither reads nor writes
    [successFound]: it commutes with overwriting the flag. *)
Lemma exec_withFlag cfg a s b :
  muInvariant s ->
  (forall i, actor a = Some i -> mu s <> Some i) ->
  exec cfg a (withFlag s b) = option_map (fun s' => withFlag s' b) (exec cfg a s).
Proof.
  intros [Ha _] Hfree. unfold exec. change (alive (withFlag s b)) with (alive s).
  destruct (negb (alive s)); [reflexivity|].
  destruct a; simpl; try (repeat case_match; reflexivity).
  - unfold execWorker. simpl.
    destruct (workers s !! i) as [w|] eqn:Hi; [|reflexivity].
    destruct (pc w) eqn:Hpc;
      try (repeat case_match; reflexivity).
    + exfalso. apply (Hfree i eq_refl), (Ha i w Hi). rewrite Hpc. reflexivity.
    + exfalso. apply (Hfree i eq_refl), (Ha i w Hi). rewrite Hpc. reflexivity.
Qed.

Lemma exec_checkpoint_write cfg a s s' :
  exec cfg a s = Some s' -> checkpoint s' <> checkpoint s ->
  exists i w, a = AWorker i /\ workers s !! i = Some w /\ pc w = WSave /\
              checkpoint s' = Some (mkState (user (cred w)) (pass (cred w))).
Proof.
  intros H Hne. exec_cases H; simpl in Hne; try contradiction.
  exists i, w. auto.
Qed.

Lemma exec_flag_write cfg a s s' :
  exec cfg a s = Some s' -> successFound s' <> successFound s ->
  exists i w result, a = AWorker i /\ workers s !! i = Some w /\
                     pc w = WReport result.
Proof.
  intros H Hne. exec_cases H; simpl in Hne; try contradiction.
  exists i, w, result. auto.
Qed.

(** C7, as the code has it: [successFound] is read and written only by
    the worker that holds [mu], and at most one worker holds it; the
    write of the checkpoint ([saveState]) is made by a worker that does
    not hold [mu]. *)
Theorem C7_flag_locked_checkpoint_unlocked (cfg : Config)
    (creds : list Credential) (s : Pool) :
  reachable cfg creds s ->
  (forall i j wi wj,
      workers s !! i = Some wi -> workers s !! j = Some wj ->
      holdsMu (pc wi) = true -> holdsMu (pc wj) = true -> i = j) /\
  (forall a b,
      (forall i, actor a = Some i -> mu s <> Some i) ->
      exec cfg a (withFlag s b)
      = option_map (fun s' => withFlag s' b) (exec cfg a s)) /\
  (forall a s',
      exec cfg a s = Some s' -> successFound s' <> successFound s ->
      exists i, a = AWorker i /\ mu s = Some i) /\
  (forall a s',
      exec cfg a s = Some s' -> checkpoint s' <> checkpoint s ->
      exists i w, a = AWorker i /\ workers s !! i = Some w /\
                  pc w = WSave /\ mu s <> Some i).
Proof.
  intros Hreach. pose proof (muInvariant_reachable _ _ _ Hreach) as Hinv.
  destruct Hinv as [Ha Hb]. repeat split.
  - intros i j wi wj Hi Hj Hhi Hhj.
    pose proof (Ha i wi Hi Hhi). pose proof (Ha j wj Hj Hhj). congruence.
  - intros a b Hfree. apply exec_withFlag; [split|]; assumption.
  - intros a s' Hexec Hne.
    destruct (exec_flag_write _ _ _ _ Hexec Hne) as (i & w & r & -> & Hi & Hpc).
    exists i. split; [reflexivity|]. apply (Ha i w Hi). rewrite Hpc. reflexivity.
  - intros a s' Hexec Hne.
    destruct (exec_checkpoint_write _ _ _ _ Hexec Hne)
      as (i & w & -> & Hi & Hpc & _).
    exists i, w. repeat split; try assumption.
    intros Hm. destruct (Hb i Hm) as (w' & Hi' & Hh).
    rewrite Hi in Hi'. injection Hi' as <-. rewrite Hpc in Hh. discriminate.
Qed.

Lemma reachable_poolAfter cfg creds tr :
  runnable cfg creds tr = true ->
  reachable cfg creds (poolAfter cfg creds tr).
Proof.
  unfold runnable, poolAfter. intros H.
  destruct (start cfg creds) as [s0|] eqn:E0; [|discriminate].
  destruct (run cfg tr s0) as [s|] eqn:E; [|discriminate].
  exists s0, tr. auto.
Qed.

Lemma C2_witness :
  countPc inTrial
    (workers (poolAfter firstOnlyCfg examplePairs allInTrial)) = 3 /\
  (Z.of_nat
     (countPc inTrial
        (workers (poolAfter firstOnlyCfg examplePairs allInTrial)))
   <= Workers firstOnlyCfg)%Z.
Proof.
  split; [vm_compute; reflexivity|].
  refine (proj1 (C2_at_most_W_in_flight firstOnlyCfg examplePairs _ _)).
  apply reachable_poolAfter. vm_compute. reflexivity.
Defined.

Lemma C7_witness :
  successFound (poolAfter firstOnlyCfg examplePairs winnerHoldsLock)
    = false /\
  exists i, AWorker 0 = AWorker i /\
            mu (poolAfter firstOnlyCfg examplePairs winnerHoldsLock)
              = Some i.
Proof.
  split; [vm_compute; reflexivity|].
  refine (proj1 (proj2 (proj2 (C7_flag_locked_checkpoint_unlocked
                   firstOnlyCfg examplePairs _ _)))
                (AWorker 0)
                (poolAfter firstOnlyCfg examplePairs
                           (winnerHoldsLock ++ [AWorker 0])) _ _).
  - apply reachable_poolAfter. vm_compute. reflexivity.
  - vm_compute; reflexivity.
  - vm_compute. discriminate.
Defined.

(** C7, as stated, fails for the checkpoint: worker 0 writes
    state.json without holding [mu], here while worker 1 holds it. *)
Lemma C7_checkpoint_written_without_lock :
  let s := poolAfter allCfg examplePairs saveBesideLock in
  reachable allCfg examplePairs s /\
  mu s = Some 1 /\
  workers s !! 0 = Some (mkWorker rootPair WSave) /\
  checkpoint s = None /\
  option_map checkpoint (exec allCfg (AWorker 0) s)
    = Some (Some (mkState "root" "toor")).
Proof.
  split.
  - apply reachable_poolAfter. vm_compute. reflexivity.
  - vm_compute. auto.
Qed.

(** In early-exit mode a success reported after the flag is set is
    not dropped: it is appended to [results]. *)
Lemma later_success_is_sent cfg s i w result :
  alive s = true -> FirstOnly cfg = true -> successFound s = true ->
  workers s !! i = Some w -> pc w = WReport result ->
  resultsClosed s = false ->
  (Z.of_nat (length (results s)) < resultsCap cfg)%Z ->
  exists s', exec cfg (AWorker i) s = Some s' /\
             results s' = results s ++ [result] /\
             stdout s' = stdout s.
Proof.
  intros Hal Hf Hs Hi Hpc Hc Hcap. unfold exec, execWorker.
  rewrite Hal, Hi, Hpc, Hf, Hs, Hc. simpl.
  assert ((Z.of_nat (length (results s)) <? resultsCap cfg)%Z = true) as ->
    by lia.
  eexists. split; [reflexivity|]. simpl. auto.
Qed.

(** The collecting loop can take a waiting result whether or not the
    context is cancelled. *)
Lemma collector_may_receive cfg s result rest :
  alive s = true -> results s = result :: rest ->
  exists s', exec cfg ACollectRecv s = Some s' /\
             stdout s' = stdout s ++ [result].
Proof.
  intros Hal Hr. unfold exec. rewrite Hal, Hr. simpl.
  eexists. split; reflexivity.
Qed.

(** C1 fails on the code: in early-exit mode, with three pairs that
    succeed, worker 0 prints its success and workers 1 and 2, finding
    the flag set, send theirs on [results]; the collecting loop
    receives and prints both.  Three successes are printed, two of
    them by the collecting loop. *)
Theorem C1_later_successes_surfaced :
  let creds := examplePairs in
  credChanOf firstOnlyCfg exampleFs false None = creds /\
  reachable firstOnlyCfg creds (poolAfter firstOnlyCfg creds allSucceed) /\
  reachable firstOnlyCfg creds (poolAfter firstOnlyCfg creds allReported) /\
  successFound (poolAfter firstOnlyCfg creds allSucceed) = true /\
  stdout (poolAfter firstOnlyCfg creds allSucceed) = [rootSuccess] /\
  results (poolAfter firstOnlyCfg creds allSucceed)
    = [adminSuccess; guestSuccess] /\
  stdout (poolAfter firstOnlyCfg creds allReported)
    = [rootSuccess; adminSuccess; guestSuccess] /\
  successCount (poolAfter firstOnlyCfg creds allReported) = 2%Z.
Proof.
  split; [vm_compute; reflexivity|]. split; [|split].
  - apply reachable_poolAfter. vm_compute. reflexivity.
  - apply reachable_poolAfter. vm_compute. reflexivity.
  - vm_compute. auto 10.
Qed.

(** With the context cancelled and a slot free, both cases of the
    dispatch select are ready. *)
Lemma select_both_ready cfg s c :
  alive s = true -> dispatcher s = DSelect c -> ctxDone s = true ->
  (Z.of_nat (semaphore s) < Workers cfg)%Z ->
  exec cfg ASelectDone s = Some (closeResults s DReturned) /\
  exec cfg ASelectAdmit s = Some (admitPair s c).
Proof.
  intros Hal Hd Hc Hfree. unfold exec. rewrite Hal, Hd, Hc. simpl.
  assert ((Z.of_nat (semaphore s) <? Workers cfg)%Z = true) as -> by lia.
  auto.
Qed.

(** C8 fails on the code: after the interrupt has cancelled the
    context, the dispatch loop runs three more iterations and starts a
    worker in each, its select taking the semaphore case every time.
    (The worker started before the interrupt can still report.) *)
Theorem C8_pairs_dispatched_after_cancellation :
  let creds := examplePairs in
  let s1 := poolAfter allCfg creds interrupted in
  let s2 := poolAfter allCfg creds (interrupted ++ threeMoreIterations) in
  credChanOf allCfg exampleFs false None = creds /\
  reachable allCfg creds s1 /\
  ctxDone s1 = true /\
  workers s1 = [mkWorker rootPair WStart] /\
  run allCfg threeMoreIterations s1 = Some s2 /\
  workers s2 = [mkWorker rootPair WStart; mkWorker adminPair WStart;
                mkWorker guestPair WStart; mkWorker testPair WStart] /\
  runnable allCfg creds reportedAfterInterrupt = true /\
  stdout (poolAfter allCfg creds reportedAfterInterrupt) = [rootSuccess].
Proof.
  split; [vm_compute; reflexivity|]. split.
  - apply reachable_poolAfter. vm_compute. reflexivity.
  - vm_compute. auto 10.
Qed.

(** * Further properties of the code *)

(** ** The worker pool: shutdown *)

Lemma countPc_pos p ws i w :
  ws !! i = Some w -> p (pc w) = true -> 0 < countPc p ws.
Proof.
  unfold countPc. revert i. induction ws as [|x ws IH]; intros i Hi Hp;
    [discriminate|].
  destruct i as [|i]; simpl in *.
  - injection Hi as ->. rewrite Hp. simpl. lia.
  - specialize (IH i Hi Hp). destruct (p (pc x)); simpl; lia.
Qed.

Lemma countPc_zero p ws i w :
  countPc p ws = 0 -> ws !! i = Some w -> p (pc w) = false.
Proof.
  intros H0 Hi. destruct (p (pc w)) eqn:E; [|reflexivity].
  pose proof (countPc_pos p ws i w Hi E). lia.
Qed.


Lemma shutdownInvariant_step cfg a s s' :
  shutdownInvariant s -> exec cfg a s = Some s' -> shutdownInvariant s'.
Proof.
  intros (Hwg & Hcl & Hpa & Hco) Hexec. unfold shutdownInvariant.
  assert (Hal : alive s = true).
  { unfold exec in Hexec. destruct (alive s); [reflexivity | discriminate]. }
  assert (Hnp : panicked s = false).
  { unfold alive in Hal. destruct (panicked s); [discriminate | reflexivity]. }
  assert (Hcs : collector s = CSelect).
  { unfold alive in Hal. rewrite Hnp in Hal.
    destruct (collector s); [reflexivity | discriminate]. }
  exec_cases Hexec; simpl in *;
    repeat match goal with
    | Hi : workers s !! ?i = Some ?w, Hpc : pc ?w = _
      |- context [countPc notFinished (<[?i := ?w']> (workers s))] =>
        let Hc := fresh "Hc" in
        pose proof (countPc_insert notFinished _ _ _ w' Hi) as Hc;
        rewrite Hpc in Hc; simpl in Hc;
        generalize dependent (countPc notFinished (<[i := w']> (workers s)));
        intros
    end;
    rewrite ?countPc_app;
    try (change (countPc notFinished [mkWorker c WStart]) with 1);
    try (assert (Hpos : 0 < countPc notFinished (workers s))
           by (eapply countPc_pos; [eassumption|];
               match goal with E : pc _ = _ |- _ => rewrite E end;
               reflexivity));
    intuition (try congruence; try lia).
Qed.

Lemma shutdownInvariant_reachable cfg creds s :
  reachable cfg creds s -> shutdownInvariant s.
Proof.
  intros (s0 & tr & Hstart & Hrun).
  refine (run_invariant cfg shutdownInvariant _ tr s0 s _ Hrun).
  - intros a s1 s2. apply shutdownInvariant_step.
  - unfold start in Hstart. destruct (_ || _); [discriminate|].
    injection Hstart as <-. unfold shutdownInvariant. simpl.
    repeat split; intros; discriminate.
Qed.

(** X1: a run whose context is never cancelled does not panic: a
    worker sends on [results] only while the channel is open, and the
    WaitGroup counter never goes below zero. *)
Theorem X1_no_panic_without_cancellation (cfg : Config)
    (creds : list Credential) (s : Pool) :
  reachable cfg creds s -> ctxDone s = false -> panicked s = false.
Proof.
  intros Hreach Hctx.
  destruct (shutdownInvariant_reachable _ _ _ Hreach) as (_ & _ & Hpa & _).
  destruct (panicked s); [|reflexivity].
  specialize (Hpa eq_refl). congruence.
Qed.

Lemma X1_witness :
  panicked (poolAfter firstOnlyCfg examplePairs allInTrial) = false.
Proof.
  apply (X1_no_panic_without_cancellation firstOnlyCfg examplePairs).
  - apply reachable_poolAfter. vm_compute. reflexivity.
  - vm_compute. reflexivity.
Defined.

(** X2: after cancellation the dispatch goroutine may return, which
    closes [results], while a worker still has a success to send; the
    send then panics (send on a closed channel). *)
Theorem X2_send_after_cancellation_panics (cfg : Config) (s : Pool)
    (c : Credential) (i : nat) (w : Worker) (result : string) :
  alive s = true ->
  dispatcher s = DSelect c -> ctxDone s = true ->
  workers s !! i = Some w -> pc w = WReport result ->
  FirstOnly cfg && negb (successFound s) = false ->
  exists s', run cfg [ASelectDone; AWorker i] s = Some s' /\
             resultsClosed s' = true /\ panicked s' = true /\
             stdout s' = stdout s /\ results s' = results s.
Proof.
  intros Hal Hd Hc Hi Hpc Hf. simpl. unfold exec at 1.
  rewrite Hal, Hd, Hc. simpl.
  unfold exec, execWorker. simpl.
  change (alive (closeResults s DReturned)) with (alive s).
  rewrite Hal, Hi, Hpc, Hf. simpl.
  eexists. split; [reflexivity|]. simpl. auto.
Qed.

Lemma X2_witness :
  reachable allCfg examplePairs (poolAfter allCfg examplePairs reportPending) /\
  exists s',
    run allCfg [ASelectDone; AWorker 0]
        (poolAfter allCfg examplePairs reportPending) = Some s' /\
    resultsClosed s' = true /\ panicked s' = true /\
    stdout s' = stdout (poolAfter allCfg examplePairs reportPending) /\
    results s' = results (poolAfter allCfg examplePairs reportPending).
Proof.
  split.
  - apply reachable_poolAfter. vm_compute. reflexivity.
  - refine (X2_send_after_cancellation_panics allCfg _ adminPair 0
              (mkWorker rootPair (WReport rootSuccess)) rootSuccess
              _ _ _ _ _ _); vm_compute; reflexivity.
Defined.
Lemma map_cred_goto (ws : list Worker) i w p :
  ws !! i = Some w ->
  map cred (<[i := mkWorker (cred w) p]> ws) = map cred ws.
Proof.
  revert i. induction ws as [|x ws IH]; intros i Hi; [reflexivity|].
  destruct i as [|i]; simpl in *.
  - injection Hi as ->. reflexivity.
  - f_equal. apply IH, Hi.
Qed.

Lemma dispatchInvariant_step cfg creds a s s' :
  dispatchInvariant creds s -> exec cfg a s = Some s' ->
  dispatchInvariant creds s'.
Proof.
  intros Hinv Hexec.
  exec_cases Hexec; unfold dispatchInvariant in *; simpl in *;
    repeat match goal with
    | Hi : workers s !! ?i = Some ?w |- _ =>
        rewrite (map_cred_goto _ _ _ _ Hi)
    | H : dispatcher s = _ |- _ => rewrite H in Hinv
    | H : credChan s = _ |- _ => rewrite H in Hinv
    end;
    rewrite ?map_app, <- ?app_assoc, ?app_nil_r in *; simpl;
    try assumption.
  all: try (destruct (dispatcher s); intuition congruence).
  - split; [eexists; eassumption | intros; congruence].
  - split; [exists []; rewrite app_nil_r; assumption | auto].
Qed.

Lemma dispatchInvariant_reachable cfg creds s :
  reachable cfg creds s -> dispatchInvariant creds s.
Proof.
  intros (s0 & tr & Hstart & Hrun).
  refine (run_invariant cfg (dispatchInvariant creds) _ tr s0 s _ Hrun).
  - intros a s1 s2. apply dispatchInvariant_step.
  - unfold start in Hstart. destruct (_ || _); [discriminate|].
    injection Hstart as <-. reflexivity.
Qed.

Lemma checkpointInvariant_step cfg a s s' :
  checkpointInvariant s -> exec cfg a s = Some s' -> checkpointInvariant s'.
Proof.
  intros Hinv Hexec st Hst.
  assert (Hkeep : forall i w p,
             workers s !! i = Some w ->
             (pastSave (pc w) = true -> pastSave p = true) ->
             checkpoint s = Some st ->
             exists j wj, <[i := mkWorker (cred w) p]> (workers s) !! j = Some wj /\
                          pastSave (pc wj) = true /\
                          cred wj = mkCredential (LastUser st) (LastPass st)).
  { intros i w p Hi Hp Hc. destruct (Hinv st Hc) as (j & wj & Hj & Hpj & Hcj).
    assert (i < length (workers s)) by (eapply lookup_lt_Some; eauto).
    destruct (decide (i = j)) as [<-|Hne].
    - exists i, (mkWorker (cred w) p).
      rewrite list_lookup_insert_eq by assumption.
      rewrite Hi in Hj. injection Hj as <-. simpl. auto.
    - exists j, wj. rewrite list_lookup_insert_ne by assumption. auto. }
  exec_cases Hexec; simpl in *;
    try (apply Hinv; assumption);
    try (eapply Hkeep; [eassumption | | assumption];
         match goal with E : pc _ = _ |- _ => rewrite E end;
         simpl; congruence).
  - destruct (Hinv st Hst) as (j & wj & Hj & Hpj & Hcj).
    exists j, wj. split; [apply lookup_app_l_Some, Hj | auto].
  - injection Hst as <-. simpl.
    exists i, (mkWorker (cred w) WRelease).
    rewrite list_lookup_insert_eq by (eapply lookup_lt_Some; eauto).
    destruct (cred w). auto.
Qed.

Lemma checkpointInvariant_reachable cfg creds s :
  reachable cfg creds s -> checkpointInvariant s.
Proof.
  intros (s0 & tr & Hstart & Hrun).
  refine (run_invariant cfg checkpointInvariant _ tr s0 s _ Hrun).
  - intros a s1 s2. apply checkpointInvariant_step.
  - unfold start in Hstart. destruct (_ || _); [discriminate|].
    injection Hstart as <-. intros st Hst. discriminate.
Qed.

Lemma dispatched_prefix cfg creds s :
  reachable cfg creds s -> exists rest, creds = map cred (workers s) ++ rest.
Proof.
  intros Hreach.
  pose proof (dispatchInvariant_reachable _ _ _ Hreach) as Hd.
  unfold dispatchInvariant in Hd.
  destruct (dispatcher s); try (eexists; eassumption).
  - exists []. rewrite app_nil_r. assumption.
  - apply Hd.
Qed.

(** X3: the dispatch loop hands the generator's pairs to workers in
    the generator's order, each to one worker and none skipped; and a
    run that ends without cancellation (Testing complete) has handed
    over every pair, with every worker finished and no result left in
    [results]. *)
Theorem X3_dispatch_in_order_and_complete (cfg : Config)
    (creds : list Credential) (s : Pool) :
  reachable cfg creds s ->
  (exists rest, creds = map cred (workers s) ++ rest) /\
  (collector s = CReturned -> ctxDone s = false ->
   map cred (workers s) = creds /\
   Forall (fun w => pc w = WFinished) (workers s) /\
   results s = [] /\ panicked s = false).
Proof.
  intros Hreach.
  pose proof (dispatchInvariant_reachable _ _ _ Hreach) as Hd.
  destruct (shutdownInvariant_reachable _ _ _ Hreach) as (Hwg & Hcl & Hpa & Hco).
  unfold dispatchInvariant in Hd. split.
  - destruct (dispatcher s); try (eexists; eassumption).
    + exists []. rewrite app_nil_r. assumption.
    + apply Hd.
  - intros Hc Hctx. destruct (Hco Hc) as [?|[Hclosed Hres]]; [congruence|].
    destruct (Hcl Hclosed) as [Hret [?|Hz]]; [congruence|].
    rewrite Hret in Hd. destruct Hd as [_ Hd].
    split; [symmetry; auto|]. split; [|split; [assumption|]].
    + apply List.Forall_forall. intros w Hin.
      apply list_elem_of_In, list_elem_of_lookup in Hin as [i Hi].
      rewrite Hwg in Hz. pose proof (countPc_zero _ _ _ _ Hz Hi) as Hf.
      destruct (pc w); (discriminate || reflexivity).
    + destruct (panicked s); [|reflexivity]. specialize (Hpa eq_refl). congruence.
Qed.


Lemma X3_witness :
  collector (poolAfter allCfg [rootPair] completeRun) = CReturned /\
  stdout (poolAfter allCfg [rootPair] completeRun) = [rootSuccess] /\
  map cred (workers (poolAfter allCfg [rootPair] completeRun)) = [rootPair].
Proof.
  split; [vm_compute; reflexivity|]. split; [vm_compute; reflexivity|].
  refine (proj1 (proj2 (X3_dispatch_in_order_and_complete
                          allCfg [rootPair] _ _) _ _)).
  - apply reachable_poolAfter. vm_compute. reflexivity.
  - vm_compute. reflexivity.
  - vm_compute. reflexivity.
Defined.

(** X4: the checkpoint always holds a pair of the run, the pair of a
    worker whose trial is over. *)
Theorem X4_checkpoint_is_a_tried_pair (cfg : Config)
    (creds : list Credential) (s : Pool) (st : State) :
  reachable cfg creds s -> checkpoint s = Some st ->
  exists i w, workers s !! i = Some w /\ pastSave (pc w) = true /\
              creds !! i = Some (mkCredential (LastUser st) (LastPass st)).
Proof.
  intros Hreach Hst.
  destruct (checkpointInvariant_reachable _ _ _ Hreach st Hst)
    as (i & w & Hi & Hp & Hc).
  destruct (dispatched_prefix cfg creds s Hreach) as [rest Hrest].
  exists i, w. split; [assumption|]. split; [assumption|].
  rewrite Hrest. apply lookup_app_l_Some.
  rewrite list_lookup_fmap, Hi. simpl. rewrite Hc. reflexivity.
Qed.
Lemma X4_witness :
  exists i w,
    workers (poolAfter allCfg [rootPair] completeRun) !! i = Some w /\
    pastSave (pc w) = true /\
    [rootPair] !! i = Some (mkCredential "root" "toor").
Proof.
  refine (X4_checkpoint_is_a_tried_pair allCfg [rootPair] _
            (mkState "root" "toor") _ _).
  - apply reachable_poolAfter. vm_compute. reflexivity.
  - vm_compute. reflexivity.
Defined.

(** ** The worker pool: what becomes of the successes *)

Lemma heldResults_insert (ws : list Worker) i w w' :
  ws !! i = Some w ->
  heldResults (<[i := w']> ws) ++ heldResult (pc w)
  ≡ₚ heldResults ws ++ heldResult (pc w').
Proof.
  unfold heldResults. revert i. induction ws as [|x ws IH]; intros i Hi;
    [discriminate|].
  destruct i as [|i]; simpl in *.
  - injection Hi as ->.
    rewrite (Permutation_app_comm (_ ++ _) (heldResult (pc w))).
    rewrite <- !app_assoc.
    apply Permutation_app_head, Permutation_app_comm.
  - rewrite <- !app_assoc. apply Permutation_app_head, IH, Hi.
Qed.

Lemma heldResults_same (ws : list Worker) i w w' :
  ws !! i = Some w -> heldResult (pc w') = heldResult (pc w) ->
  heldResults (<[i := w']> ws) = heldResults ws.
Proof.
  unfold heldResults. revert i. induction ws as [|x ws IH]; intros i Hi He;
    [discriminate|].
  destruct i as [|i]; simpl in *.
  - injection Hi as ->. rewrite He. reflexivity.
  - f_equal. apply IH; assumption.
Qed.

Lemma knownSuccesses_step cfg a s s' :
  exec cfg a s = Some s' ->
  knownSuccesses s' ≡ₚ knownSuccesses s ++ successesOf [a].
Proof.
  intros Hexec. unfold knownSuccesses, successesOf.
  exec_cases Hexec; simpl;
    rewrite ?app_nil_r;
    try (erewrite heldResults_same by
           (try eassumption; simpl;
            match goal with E : pc _ = _ |- _ => rewrite E end;
            simpl; rewrite ?String.eqb_refl;
            repeat match goal with E : (_ =? _) = _ |- _ => rewrite E end;
            reflexivity));
    try reflexivity.
  - unfold heldResults. rewrite flat_map_app. simpl.
    rewrite !app_nil_r. reflexivity.
  - pose proof (heldResults_insert _ _ _ (mkWorker (cred w) WSave) H1) as Hp.
    rewrite H2 in Hp. simpl in Hp. rewrite app_nil_r in Hp.
    rewrite <- Hp, <- !app_assoc.
    apply Permutation_app_head.
    rewrite (Permutation_app_comm [result]), <- !app_assoc. reflexivity.
  - pose proof (heldResults_insert _ _ _ (mkWorker (cred w) WSave) H1) as Hp.
    rewrite H2 in Hp. simpl in Hp. rewrite app_nil_r in Hp.
    rewrite <- Hp, <- !app_assoc.
    do 2 apply Permutation_app_head. apply Permutation_app_comm.
  - pose proof (heldResults_insert _ _ _ (mkWorker (cred w) (WTested result)) H1)
      as Hp.
    rewrite H2 in Hp. simpl in Hp. rewrite app_nil_r in Hp.
    rewrite Hp, <- !app_assoc. reflexivity.
  - rewrite H1. reflexivity.
  - rewrite <- !app_assoc. reflexivity.
Qed.


Lemma successesOf_cons a tr :
  successesOf (a :: tr) = successesOf [a] ++ successesOf tr.
Proof. unfold successesOf. simpl. rewrite app_nil_r. reflexivity. Qed.

Lemma successesOf_nonempty tr : Forall (fun r => r <> "") (successesOf tr).
Proof.
  unfold successesOf. induction tr as [|a tr IH]; simpl; [constructor|].
  apply Forall_app. split; [|exact IH].
  destruct a; try constructor.
  destruct (String.eqb_spec result ""); repeat constructor. assumption.
Qed.

Lemma knownSuccesses_run cfg tr s s' :
  run cfg tr s = Some s' ->
  knownSuccesses s' ≡ₚ knownSuccesses s ++ successesOf tr.
Proof.
  revert s. induction tr as [|a tr IH]; intros s Hrun; simpl in Hrun.
  - injection Hrun as <-. unfold successesOf. simpl.
    rewrite app_nil_r. reflexivity.
  - destruct (exec cfg a s) as [s1|] eqn:E; [|discriminate].
    rewrite (IH _ Hrun), (knownSuccesses_step _ _ _ _ E).
    rewrite (successesOf_cons a tr), <- app_assoc. reflexivity.
Qed.

Lemma heldResults_finished ws :
  Forall (fun w => pc w = WFinished) ws -> heldResults ws = [].
Proof.
  unfold heldResults. induction 1 as [|w ws Hw _ IH]; simpl; [reflexivity|].
  rewrite Hw, IH. reflexivity.
Qed.

(** X5: no success is lost, repeated or made up while the process
    runs: the successes returned by the trials so far are, as a
    multiset, those printed, those queued in [results] and those still
    held by a worker; no empty result is ever printed; and when a run
    ends without cancellation the printed results are exactly the
    successes returned. *)
Theorem X5_successes_accounted_for (cfg : Config)
    (creds : list Credential) (tr : list Action) (s0 s : Pool) :
  start cfg creds = Some s0 -> run cfg tr s0 = Some s ->
  stdout s ++ results s ++ heldResults (workers s) ≡ₚ successesOf tr /\
  Forall (fun r => r <> "") (stdout s) /\
  (collector s = CReturned -> ctxDone s = false ->
   stdout s ≡ₚ successesOf tr).
Proof.
  intros Hstart Hrun.
  assert (Hacc : knownSuccesses s ≡ₚ successesOf tr).
  { rewrite (knownSuccesses_run _ _ _ _ Hrun).
    unfold start in Hstart. destruct (_ || _); [discriminate|].
    injection Hstart as <-. reflexivity. }
  split; [exact Hacc|]. split.
  - assert (Hall : Forall (fun r => r <> "") (knownSuccesses s)).
    { rewrite Hacc. apply successesOf_nonempty. }
    unfold knownSuccesses in Hall. apply Forall_app in Hall. apply Hall.
  - intros Hc Hctx.
    assert (Hreach : reachable cfg creds s) by (exists s0, tr; auto).
    destruct (shutdownInvariant_reachable _ _ _ Hreach) as (Hwg & Hcl & _ & Hco).
    destruct (Hco Hc) as [?|[Hclosed Hres]]; [congruence|].
    destruct (Hcl Hclosed) as [_ [?|Hz]]; [congruence|].
    rewrite <- Hacc. unfold knownSuccesses. rewrite Hres.
    rewrite heldResults_finished; [rewrite app_nil_r; reflexivity|].
    apply List.Forall_forall. intros w Hin.
    apply list_elem_of_In, list_elem_of_lookup in Hin as [i Hi].
    rewrite Hwg in Hz. pose proof (countPc_zero _ _ _ _ Hz Hi) as Hf.
    destruct (pc w); (discriminate || reflexivity).
Qed.

Lemma X5_witness :
  stdout (poolAfter firstOnlyCfg examplePairs allSucceed) ++
  results (poolAfter firstOnlyCfg examplePairs allSucceed) ++
  heldResults (workers (poolAfter firstOnlyCfg examplePairs allSucceed))
  ≡ₚ [rootSuccess; adminSuccess; guestSuccess].
Proof.
  refine (proj1 (X5_successes_accounted_for firstOnlyCfg examplePairs
                   allSucceed (initial examplePairs) _ _ _)).
  - vm_compute. reflexivity.
  - vm_compute. reflexivity.
Defined.
Lemma countInvariant_step cfg a s s' :
  countInvariant cfg s -> exec cfg a s = Some s' -> countInvariant cfg s'.
Proof.
  intros Hinv Hexec.
  exec_cases Hexec; destruct Hinv as [Hc Hf]; unfold countInvariant; simpl;
    try (split; [assumption | intuition congruence]).
  all: rewrite ?length_app; simpl.
  - apply andb_true_iff in H3 as [Hfo Hsf].
    destruct (successFound s); [discriminate|].
    split; [|auto]. rewrite Hc. f_equal. lia.
  - split; [|assumption]. unfold GoInt.add. rewrite Hc, wrap_add_l.
    f_equal. lia.
Qed.

Lemma countInvariant_reachable cfg creds s :
  reachable cfg creds s -> countInvariant cfg s.
Proof.
  intros (s0 & tr & Hstart & Hrun).
  refine (run_invariant cfg (countInvariant cfg) _ tr s0 s _ Hrun).
  - intros a s1 s2. apply countInvariant_step.
  - unfold start in Hstart. destruct (_ || _); [discriminate|].
    injection Hstart as <-. split; [reflexivity | discriminate].
Qed.

(** X6: the count of successful logins reported at the end counts the
    results printed by the collecting loop; the success printed by the
    winner of an early-exit run is not in it.  The flag is only ever
    set in early-exit mode, and with it the context is cancelled. *)
Theorem X6_success_count_excludes_winner (cfg : Config)
    (creds : list Credential) (s : Pool) :
  reachable cfg creds s ->
  successCount s
  = GoInt.wrap (Z.of_nat (length (stdout s))
                - (if successFound s then 1 else 0)) /\
  (successFound s = true -> FirstOnly cfg = true /\ ctxDone s = true) /\
  (FirstOnly cfg = false ->
   successCount s = GoInt.wrap (Z.of_nat (length (stdout s)))).
Proof.
  intros Hreach. destruct (countInvariant_reachable _ _ _ Hreach) as [Hc Hf].
  split; [assumption|]. split; [assumption|].
  intros Hno. rewrite Hc. f_equal.
  destruct (successFound s); [|lia].
  destruct (Hf eq_refl). congruence.
Qed.

Lemma X6_witness :
  stdout (poolAfter firstOnlyCfg examplePairs allSucceed) = [rootSuccess] /\
  successCount (poolAfter firstOnlyCfg examplePairs allSucceed)
  = GoInt.wrap (Z.of_nat (length
                  (stdout (poolAfter firstOnlyCfg examplePairs allSucceed)))
                - (if successFound
                        (poolAfter firstOnlyCfg examplePairs allSucceed)
                   then 1 else 0)).
Proof.
  split; [vm_compute; reflexivity|].
  refine (proj1 (X6_success_count_excludes_winner
                   firstOnlyCfg examplePairs _ _)).
  apply reachable_poolAfter. vm_compute. reflexivity.
Defined.

(** ** The worker pool: no admission slot *)

Lemma no_slot_no_worker cfg creds s :
  Workers cfg = 0%Z -> reachable cfg creds s ->
  workers s = [] /\ stdout s = [] /\ results s = [].
Proof.
  intros Hw (s0 & tr & Hstart & Hrun).
  refine (run_invariant cfg
            (fun s => workers s = [] /\ stdout s = [] /\ results s = [])
            _ tr s0 s _ Hrun).
  - clear -Hw. intros a s s' (Hws & Hout & Hres) Hexec.
    exec_cases Hexec; simpl; auto;
      try (rewrite Hws in *; rewrite lookup_nil in *; discriminate);
      try (exfalso;
           match goal with
           | E : (_ <? Workers cfg)%Z = true |- _ => rewrite Hw in E; lia
           end);
      try congruence.
    exfalso. rewrite Hw in H2. apply Z.ltb_lt in H2. lia.
  - unfold start in Hstart. destruct (_ || _); [discriminate|].
    injection Hstart as <-. auto.
Qed.

(** X7: with [-workers 0] the semaphore has no slot: no worker is ever
    started, nothing is printed, and a run over at least one pair can
    only end by cancellation. *)
Theorem X7_zero_workers_never_dispatch (cfg : Config)
    (creds : list Credential) (s : Pool) :
  Workers cfg = 0%Z -> reachable cfg creds s ->
  workers s = [] /\ stdout s = [] /\
  (creds <> [] -> collector s = CReturned -> ctxDone s = true).
Proof.
  intros Hw Hreach.
  destruct (no_slot_no_worker _ _ _ Hw Hreach) as (Hws & Hout & Hres).
  split; [assumption|]. split; [assumption|].
  intros Hne Hc.
  destruct (ctxDone s) eqn:Hctx; [reflexivity|]. exfalso.
  pose proof (dispatchInvariant_reachable _ _ _ Hreach) as Hd.
  destruct (shutdownInvariant_reachable _ _ _ Hreach) as (_ & Hcl & _ & Hco).
  destruct (Hco Hc) as [?|[Hclosed _]]; [congruence|].
  destruct (Hcl Hclosed) as [Hret _].
  unfold dispatchInvariant in Hd. rewrite Hret, Hws in Hd.
  destruct Hd as [_ Hd]. apply Hne, Hd, Hctx.
Qed.


Lemma X7_witness :
  workers (poolAfter noSlotCfg examplePairs [ARange; AInterrupt; ASelectDone])
  = [] /\
  stdout (poolAfter noSlotCfg examplePairs [ARange; AInterrupt; ASelectDone])
  = [] /\
  exec noSlotCfg ASelectAdmit (poolAfter noSlotCfg examplePairs [ARange])
  = None.
Proof.
  destruct (X7_zero_workers_never_dispatch noSlotCfg examplePairs
              (poolAfter noSlotCfg examplePairs
                         [ARange; AInterrupt; ASelectDone]) eq_refl)
    as (H1 & H2 & _).
  - apply reachable_poolAfter. vm_compute. reflexivity.
  - split; [exact H1|]. split; [exact H2|]. vm_compute. reflexivity.
Defined.
(** ** Streams, estimate and resume *)

Lemma candidates_app l1 l2 :
  candidates (l1 ++ l2) = candidates l1 ++ candidates l2.
Proof. unfold candidates. rewrite map_app, List.filter_app. reflexivity. Qed.

Lemma buildCredentialPairs_length us ps b :
  length (buildCredentialPairs us ps b) = length us * length ps.
Proof.
  destruct b.
  - rewrite buildCredentialPairs_userFirst. unfold identityMajor.
    apply flat_map_length_const. intros a. apply length_map.
  - rewrite buildCredentialPairs_passFirst. unfold secretMajor.
    rewrite (flat_map_length_const _ (length us)).
    + apply Nat.mul_comm.
    + intros a. apply length_map.
Qed.

Lemma streamLength_wrap fs filename :
  countLines fs filename
  = GoInt.wrap (Z.of_nat (length (streamLinesFromFile fs filename))).
Proof.
  rewrite streamLinesFromFile_candidates.
  destruct (fs filename) as [lines|] eqn:E.
  - apply countLines_wrap, E.
  - unfold countLines. rewrite E. reflexivity.
Qed.

(** X8: the counting pass and the streaming pass over a file agree:
    [countLines] is the number of candidates [streamLinesFromFile]
    yields (reduced to [int]), and both give nothing for a file that
    cannot be opened. *)
Theorem X8_count_is_stream_length (fs : FileSystem) (filename : string) :
  countLines fs filename
  = GoInt.wrap (Z.of_nat (length (streamLinesFromFile fs filename))) /\
  (fs filename = None ->
   countLines fs filename = 0%Z /\ streamLinesFromFile fs filename = []).
Proof.
  split; [apply streamLength_wrap|].
  intros E. unfold countLines, streamLinesFromFile. rewrite E. auto.
Qed.

(** X9: for a run that does not resume, the estimate handed to the
    progress bar is the number of pairs the generator yields (reduced
    to [int]), whatever the sources and the strategy. *)
Theorem X9_estimate_is_pair_count (cfg : Config) (fs : FileSystem)
    (saved : option State) :
  SingleUser cfg <> "" \/ UserList cfg <> "" ->
  totalTests cfg fs
  = GoInt.wrap (Z.of_nat (length (credChanOf cfg fs false saved))).
Proof.
  intros Hsrc. unfold credChanOf, totalTests, userChan, passChan.
  rewrite buildCredentialPairs_length.
  destruct (String.eqb_spec (SingleUser cfg) "") as [Hu|Hu]; simpl.
  - destruct (String.eqb_spec (UserList cfg) "") as [Hl|Hl]; simpl;
      [destruct Hsrc; contradiction|].
    destruct (String.eqb_spec (SinglePass cfg) ""); simpl.
    + destruct (String.eqb_spec (PassList cfg) ""); simpl.
      * rewrite streamLength_wrap. f_equal. lia.
      * rewrite !streamLength_wrap. unfold GoInt.mul. rewrite wrap_mul.
        f_equal. lia.
    + rewrite streamLength_wrap. f_equal. lia.
  - destruct (String.eqb_spec (SinglePass cfg) ""); simpl.
    + destruct (String.eqb_spec (PassList cfg) ""); simpl.
      * reflexivity.
      * rewrite streamLength_wrap. f_equal. lia.
    + reflexivity.
Qed.

Lemma X9_witness :
  totalTests allCfg exampleFs
  = GoInt.wrap (Z.of_nat (length (credChanOf allCfg exampleFs false None))).
Proof.
  apply X9_estimate_is_pair_count. right. discriminate.
Defined.

(** The resumed stream is a suffix of the plain stream. *)
Lemma resume_suffix fs filename lastValue :
  exists skipped,
    streamLinesFromFile fs filename
    = skipped ++ resumeStreamFromFile fs filename lastValue.
Proof.
  rewrite streamLinesFromFile_candidates. unfold resumeStreamFromFile.
  destruct (fs filename) as [lines|]; [|exists []; reflexivity].
  destruct (lastValue =? "") eqn:E0.
  - exists []. rewrite resume_loop_found. reflexivity.
  - assert (G : forall ls,
               exists skipped,
                 candidates ls
                 = skipped ++ snd (fold_left (resumeStep lastValue) ls (false, []))).
    { induction ls as [|text ls IH]; [exists []; reflexivity|].
      change (text :: ls) with ([text] ++ ls). rewrite candidates_app.
      simpl. destruct (TrimSpace text =? "") eqn:Eb.
      - destruct IH as [sk IH]. exists (candidates [text] ++ sk).
        rewrite IH, app_assoc. reflexivity.
      - destruct (TrimSpace text =? lastValue).
        + exists (candidates [text]).
          rewrite resume_loop_found. reflexivity.
        + destruct IH as [sk IH]. exists (candidates [text] ++ sk).
          rewrite IH, app_assoc. reflexivity. }
    apply G.
Qed.

(** X10: a resumed stream is always a suffix of the plain stream of
    the same file, so a resumed run never has more pairs than a fresh
    one, while the estimate is computed from the whole files either
    way. *)
Theorem X10_resume_is_suffix (cfg : Config) (fs : FileSystem)
    (filename lastValue : string) (saved : option State) :
  (exists skipped,
      streamLinesFromFile fs filename
      = skipped ++ resumeStreamFromFile fs filename lastValue) /\
  length (credChanOf cfg fs true saved)
  <= length (credChanOf cfg fs false saved).
Proof.
  split; [apply resume_suffix|].
  unfold credChanOf. rewrite !buildCredentialPairs_length.
  apply Nat.mul_le_mono.
  - unfold userChan. destruct (negb (SingleUser cfg =? "")); [lia|].
    destruct saved as [st|]; [|lia].
    destruct (resume_suffix fs (UserList cfg) (LastUser st)) as [sk ->].
    rewrite length_app. lia.
  - unfold passChan. destruct (negb (SinglePass cfg =? "")); [lia|].
    destruct (negb (PassList cfg =? "")); [|lia].
    destruct saved as [st|]; [|lia].
    destruct (resume_suffix fs (PassList cfg) (LastPass st)) as [sk ->].
    rewrite length_app. lia.
Qed.

Lemma resume_last_line fs filename lastValue pre line :
  fs filename = Some (pre ++ [line]) ->
  lastValue <> "" ->
  Forall (fun x => TrimSpace x <> lastValue) pre ->
  resumeStreamFromFile fs filename lastValue = [].
Proof.
  intros Hfs Hne Hpre. unfold resumeStreamFromFile. rewrite Hfs.
  destruct (String.eqb_spec lastValue "") as [|_]; [contradiction|].
  rewrite resume_loop_skip by assumption. simpl.
  destruct (TrimSpace line =? ""); [reflexivity|].
  destruct (TrimSpace line =? lastValue); reflexivity.
Qed.

Lemma buildCredentialPairs_nil_l ps b : buildCredentialPairs [] ps b = [].
Proof.
  apply length_zero_iff_nil. rewrite buildCredentialPairs_length. reflexivity.
Qed.

Lemma buildCredentialPairs_nil_r us b : buildCredentialPairs us [] b = [].
Proof.
  apply length_zero_iff_nil. rewrite buildCredentialPairs_length.
  simpl. lia.
Qed.

(** X11: the two lists are resumed independently, each after its own
    saved value.  When the saved identity is matched by no line before
    the last line of the user file (it is the last identity, or it is
    not in the file), the resumed run has no pair at all, whatever
    secrets remain; likewise for the saved secret and the secret
    file. *)
Theorem X11_resume_after_last_is_empty (cfg : Config) (fs : FileSystem)
    (st : State) (pre : list string) (line : string) :
  (SingleUser cfg = "" ->
   fs (UserList cfg) = Some (pre ++ [line]) ->
   LastUser st <> "" ->
   Forall (fun x => TrimSpace x <> LastUser st) pre ->
   credChanOf cfg fs true (Some st) = []) /\
  (SinglePass cfg = "" -> PassList cfg <> "" ->
   fs (PassList cfg) = Some (pre ++ [line]) ->
   LastPass st <> "" ->
   Forall (fun x => TrimSpace x <> LastPass st) pre ->
   credChanOf cfg fs true (Some st) = []).
Proof.
  split.
  - intros Hu Hfs Hne Hpre. unfold credChanOf, userChan.
    rewrite Hu. simpl.
    rewrite (resume_last_line _ _ _ _ _ Hfs Hne Hpre).
    apply buildCredentialPairs_nil_l.
  - intros Hp Hl Hfs Hne Hpre. unfold credChanOf, passChan.
    rewrite Hp. simpl.
    destruct (String.eqb_spec (PassList cfg) ""); [contradiction|]. simpl.
    rewrite (resume_last_line _ _ _ _ _ Hfs Hne Hpre).
    apply buildCredentialPairs_nil_r.
Qed.

Lemma X11_witness :
  length (credChanOf listsCfg listsFs false None) = 8 /\
  credChanOf listsCfg listsFs true (Some (mkState "test" "toor")) = [].
Proof.
  split; [vm_compute; reflexivity|].
  refine (proj1 (X11_resume_after_last_is_empty listsCfg listsFs
                   (mkState "test" "toor") ["root"; "admin"; "guest"] "test")
                eq_refl eq_refl _ _).
  - discriminate.
  - repeat constructor; vm_compute; discriminate.
Defined.

(** X12: with a literal identity only the secret file is resumed, and
    the resumed run is the fresh run from the pair after the saved
    secret on. *)
Theorem X12_resume_literal_identity (cfg : Config) (fs : FileSystem)
    (st : State) (pre post : list string) (line : string) :
  SingleUser cfg <> "" -> SinglePass cfg = "" -> PassList cfg <> "" ->
  fs (PassList cfg) = Some (pre ++ line :: post) ->
  LastPass st <> "" ->
  Forall (fun x => TrimSpace x <> LastPass st) pre ->
  TrimSpace line = LastPass st ->
  credChanOf cfg fs false (Some st)
  = map (mkCredential (SingleUser cfg)) (candidates pre)
    ++ mkCredential (SingleUser cfg) (LastPass st)
    :: credChanOf cfg fs true (Some st) /\
  credChanOf cfg fs true (Some st)
  = map (mkCredential (SingleUser cfg)) (candidates post).
Proof.
  intros Hu Hp Hl Hfs Hne Hpre Hline.
  assert (Hres : resumeStreamFromFile fs (PassList cfg) (LastPass st)
                 = candidates post).
  { unfold resumeStreamFromFile. rewrite Hfs.
    destruct (String.eqb_spec (LastPass st) "") as [|_]; [contradiction|].
    rewrite resume_loop_skip by assumption. simpl. rewrite Hline.
    destruct (String.eqb_spec (LastPass st) "") as [|_]; [contradiction|].
    rewrite String.eqb_refl, resume_loop_found. reflexivity. }
  assert (Hone : forall ps b,
             buildCredentialPairs [SingleUser cfg] ps b
             = map (mkCredential (SingleUser cfg)) ps).
  { intros ps [|].
    - rewrite buildCredentialPairs_userFirst. unfold identityMajor. simpl.
      apply app_nil_r.
    - rewrite buildCredentialPairs_passFirst. unfold secretMajor.
      induction ps as [|p ps IH]; simpl in *; [reflexivity | congruence]. }
  unfold credChanOf, userChan, passChan. rewrite Hp.
  destruct (String.eqb_spec (SingleUser cfg) ""); [contradiction|].
  destruct (String.eqb_spec (PassList cfg) ""); [contradiction|]. simpl.
  unfold singleValueChannel. rewrite !Hone, Hres.
  split; [|reflexivity].
  rewrite streamLinesFromFile_candidates, Hfs.
  change (pre ++ line :: post) with (pre ++ [line] ++ post).
  rewrite !candidates_app, !map_app. f_equal.
  unfold candidates at 1. simpl. rewrite Hline.
  destruct (String.eqb_spec (LastPass st) "") as [|_]; [contradiction|].
  reflexivity.
Qed.

Lemma X12_witness :
  credChanOf literalUserCfg listsFs true (Some (mkState "root" "toor"))
  = [mkCredential "root" "123456"].
Proof.
  refine (proj2 (X12_resume_literal_identity literalUserCfg listsFs
                   (mkState "root" "toor") [] ["123456"] "toor"
                   _ eq_refl _ eq_refl _ _ _)).
  - discriminate.
  - discriminate.
  - discriminate.
  - constructor.
  - vm_compute. reflexivity.
Defined.

(** ** Strings as byte lists *)

Lemma list_of_append (s1 s2 : string) :
  list_ascii_of_string (s1 ++ s2)
  = list_ascii_of_string s1 ++ list_ascii_of_string s2.
Proof. induction s1 as [|c s1 IH]; simpl; [reflexivity | now rewrite IH]. Qed.

Lemma string_of_app (l1 l2 : list ascii) :
  string_of_list_ascii (l1 ++ l2)
  = (string_of_list_ascii l1 ++ string_of_list_ascii l2)%string.
Proof. induction l1 as [|c l1 IH]; simpl; [reflexivity | now rewrite IH]. Qed.

Lemma string_of_inj (l1 l2 : list ascii) :
  string_of_list_ascii l1 = string_of_list_ascii l2 -> l1 = l2.
Proof.
  intros H. apply (f_equal list_ascii_of_string) in H.
  now rewrite !list_ascii_of_string_of_list_ascii in H.
Qed.

Lemma string_eqb_of (l1 l2 : list ascii) :
  (string_of_list_ascii l1 =? string_of_list_ascii l2)%string
  = bool_decide (l1 = l2).
Proof.
  destruct (String.eqb_spec (string_of_list_ascii l1) (string_of_list_ascii l2))
    as [E|E].
  - apply string_of_inj in E. now rewrite bool_decide_eq_true_2.
  - rewrite bool_decide_eq_false_2; [reflexivity|]. intros ->. now apply E.
Qed.

Lemma string_eqb_lit (l : list ascii) (s : string) :
  (string_of_list_ascii l =? s)%string
  = bool_decide (l = list_ascii_of_string s).
Proof.
  rewrite <- (string_of_list_ascii_of_string s) at 1. apply string_eqb_of.
Qed.

Lemma string_app_lit (l : list ascii) (s : string) :
  (string_of_list_ascii l ++ s)%string
  = string_of_list_ascii (l ++ list_ascii_of_string s).
Proof. now rewrite string_of_app, string_of_list_ascii_of_string. Qed.

(** ** [sanitizeCommand] *)

Lemma dropLeading_head c s : prefixOf [c] (dropLeading c s) = false.
Proof.
  induction s as [|x r IH]; simpl; [reflexivity|].
  destruct (Ascii.eqb x c) eqn:E; [exact IH|].
  simpl. rewrite Ascii.eqb_sym, E. reflexivity.
Qed.

Lemma dropLeading_id c s : prefixOf [c] s = false -> dropLeading c s = s.
Proof.
  destruct s as [|x r]; simpl; [reflexivity|].
  rewrite Ascii.eqb_sym. destruct (Ascii.eqb x c); [discriminate | reflexivity].
Qed.

Lemma dropLeading_suffix c s : exists z, s = z ++ dropLeading c s.
Proof.
  induction s as [|x r [z Hz]]; simpl; [exists []; reflexivity|].
  destruct (Ascii.eqb x c); [|exists []; reflexivity].
  exists (x :: z). simpl. now f_equal.
Qed.

(** A semicolon completes no white-space rune. *)
Lemma headSpace_semicolon b w :
  b <> [] ->
  headSpace spaceRune2 spaceRune3 (b ++ [semicolon]) = true ->
  headSpace spaceRune2 spaceRune3 (b ++ w) = true.
Proof.
  intros Hb. destruct b as [|c1 [|c2 [|c3 r3]]]; [done| | |]; simpl.
  - destruct (isAsciiSpace _); [reflexivity|]. simpl.
    unfold spaceRune2. simpl. rewrite andb_false_r. discriminate.
  - destruct (isAsciiSpace _); [reflexivity|]. simpl.
    destruct (spaceRune2 _ _); [reflexivity|]. simpl.
    unfold spaceRune3. simpl. rewrite !andb_false_r. simpl. discriminate.
  - intros H. exact H.
Qed.

Lemma trimRight_semicolon b : trimRight (b ++ [semicolon]) = b ++ [semicolon].
Proof.
  unfold trimRight. rewrite rev_app_distr.
  change (rev [semicolon] ++ rev b) with (semicolon :: rev b).
  rewrite trimWith_id;
    [change (semicolon :: rev b) with (rev [semicolon] ++ rev b);
     now rewrite <- rev_app_distr, rev_involutive|].
  destruct (rev b) as [|c2 [|c3 r]]; simpl; try reflexivity.
  - unfold spaceRune2. simpl. now rewrite andb_false_r.
  - unfold spaceRune2, spaceRune3. simpl. now rewrite !andb_false_r.
Qed.

(** A text that ends in one semicolon after a body without one, and
    does not open with white space, is left as it is. *)
Lemma sanitizeCommand_fixed (b : list ascii) :
  b <> [] ->
  headSpace spaceRune2 spaceRune3 (b ++ [semicolon]) = false ->
  prefixOf [semicolon] (rev b) = false ->
  sanitizeCommand (string_of_list_ascii (b ++ [semicolon]))
  = string_of_list_ascii (b ++ [semicolon]).
Proof.
  intros Hb Hh Hs. unfold sanitizeCommand.
  assert (Ht : TrimSpace (string_of_list_ascii (b ++ [semicolon]))
               = string_of_list_ascii (b ++ [semicolon])).
  { unfold TrimSpace. rewrite list_ascii_of_string_of_list_ascii.
    unfold trimLeft. rewrite trimWith_id by exact Hh.
    now rewrite trimRight_semicolon. }
  rewrite Ht.
  assert (Hr : TrimRight (string_of_list_ascii (b ++ [semicolon])) semicolon
               = string_of_list_ascii b).
  { unfold TrimRight. rewrite list_ascii_of_string_of_list_ascii.
    rewrite rev_app_distr.
    change (rev [semicolon] ++ rev b) with (semicolon :: rev b).
    cbn [dropLeading]. rewrite Ascii.eqb_refl.
    rewrite dropLeading_id by exact Hs. now rewrite rev_involutive. }
  rewrite Hr.
  rewrite string_eqb_lit, bool_decide_eq_false_2 by exact Hb.
  unfold HasSuffix. rewrite list_ascii_of_string_of_list_ascii.
  change (rev (list_ascii_of_string ";")) with [semicolon].
  rewrite Hs. cbn [negb andb].
  rewrite string_app_lit, !string_eqb_lit.
  change (list_ascii_of_string ";") with [semicolon].
  rewrite bool_decide_eq_false_2 by (destruct b; discriminate).
  rewrite bool_decide_eq_false_2; [reflexivity|].
  destruct b as [|x [|y r]]; [done| |]; discriminate.
Qed.

(** What [sanitizeCommand] returns, on bytes. *)
Lemma sanitizeCommand_bytes cmd :
  let b := rev (dropLeading semicolon
                  (rev (list_ascii_of_string (TrimSpace cmd)))) in
  sanitizeCommand cmd
  = string_of_list_ascii
      ((if bool_decide (b = []) then list_ascii_of_string "SHOW DATABASES"
        else b) ++ [semicolon]).
Proof.
  intros b. unfold sanitizeCommand, TrimRight. fold b.
  rewrite string_eqb_lit. change (list_ascii_of_string "") with (@nil ascii).
  unfold HasSuffix. rewrite list_ascii_of_string_of_list_ascii.
  unfold b. rewrite rev_involutive. fold b.
  change (rev (list_ascii_of_string ";")) with [semicolon].
  rewrite dropLeading_head.
  destruct (decide (b = [])) as [E|E].
  - rewrite !bool_decide_eq_true_2 by exact E. simpl. rewrite E. reflexivity.
  - rewrite !bool_decide_eq_false_2 by exact E. cbn [negb andb].
    rewrite string_app_lit, !string_eqb_lit.
    change (list_ascii_of_string ";") with [semicolon].
    rewrite bool_decide_eq_false_2 by (destruct b; discriminate).
    rewrite bool_decide_eq_false_2; [reflexivity|].
    destruct b as [|x [|y r]]; [done| |]; discriminate.
Qed.

(** X13 ([sanitizeCommand]): the result is a non-empty body followed by
    exactly one semicolon.  The body is the trimmed command without its
    trailing semicolons, or [SHOW DATABASES] when nothing else is
    left. *)
Theorem X13_sanitized_command_shape (cmd : string) :
  exists body : string,
    sanitizeCommand cmd = (body ++ ";")%string /\
    body <> "" /\
    HasSuffix body ";" = false /\
    body = (if (TrimRight (TrimSpace cmd) semicolon =? "")%string
            then "SHOW DATABASES"
            else TrimRight (TrimSpace cmd) semicolon).
Proof.
  pose proof (sanitizeCommand_bytes cmd) as Hb. simpl in Hb.
  set (b := rev (dropLeading semicolon
                   (rev (list_ascii_of_string (TrimSpace cmd))))) in *.
  unfold TrimRight. fold b.
  rewrite string_eqb_lit. change (list_ascii_of_string "") with (@nil ascii).
  destruct (decide (b = [])) as [E|E].
  - rewrite bool_decide_eq_true_2 in * by exact E.
    exists "SHOW DATABASES". rewrite Hb. repeat split. discriminate.
  - rewrite bool_decide_eq_false_2 in * by exact E.
    exists (string_of_list_ascii b). rewrite Hb, string_of_app.
    repeat split.
    + intros H. apply E. now apply (string_of_inj b []).
    + unfold HasSuffix. rewrite list_ascii_of_string_of_list_ascii.
      unfold b. rewrite rev_involutive. apply dropLeading_head.
Qed.

Lemma sanitizeCommand_idem (cmd : string) :
  sanitizeCommand (sanitizeCommand cmd) = sanitizeCommand cmd.
Proof.
  rewrite (sanitizeCommand_bytes cmd). simpl.
  set (t := list_ascii_of_string (TrimSpace cmd)).
  set (b := rev (dropLeading semicolon (rev t))).
  destruct (decide (b = [])) as [E|E].
  - rewrite bool_decide_eq_true_2 by exact E. vm_compute. reflexivity.
  - rewrite bool_decide_eq_false_2 by exact E.
    apply sanitizeCommand_fixed.
    + exact E.
    + destruct (headSpace spaceRune2 spaceRune3 (b ++ [semicolon])) eqn:Hh;
        [|reflexivity].
      destruct (dropLeading_suffix semicolon (rev t)) as [z Hz].
      apply (f_equal (@rev ascii)) in Hz.
      rewrite rev_involutive, rev_app_distr in Hz. fold b in Hz.
      pose proof (headSpace_semicolon b (rev z) E Hh) as Hw.
      rewrite <- Hz in Hw.
      assert (Ht : headSpace spaceRune2 spaceRune3 t = false).
      { unfold t, TrimSpace. rewrite list_ascii_of_string_of_list_ascii.
        rewrite <- trimLeft_of_trimmed. apply trimWith_head. }
      congruence.
    + unfold b. rewrite rev_involutive. apply dropLeading_head.
Qed.

(** X14 ([sanitizeCommand]): sanitising a sanitised command changes
    nothing. *)
Theorem X14_sanitizeCommand_idempotent (cmd : string) :
  sanitizeCommand (sanitizeCommand cmd) = sanitizeCommand cmd.
Proof. exact (sanitizeCommand_idem cmd). Qed.

(** ** [sanitizeFilename] *)

Lemma ReplaceAll_byte s c d :
  ReplaceAll s c (String d "")
  = mapBytes (fun x => if Ascii.eqb x c then d else x) s.
Proof.
  unfold ReplaceAll, mapBytes. f_equal.
  induction (list_ascii_of_string s) as [|x r IH]; [reflexivity|].
  cbn [flat_map map]. rewrite IH. destruct (Ascii.eqb x c); reflexivity.
Qed.

Lemma mapBytes_mapBytes f g s :
  mapBytes g (mapBytes f s) = mapBytes (fun x => g (f x)) s.
Proof.
  unfold mapBytes. rewrite list_ascii_of_string_of_list_ascii, map_map.
  reflexivity.
Qed.

Lemma mapBytes_ext f g s :
  (forall c, f c = g c) -> mapBytes f s = mapBytes g s.
Proof.
  intros H. unfold mapBytes. f_equal. apply map_ext. exact H.
Qed.

Lemma sanitizeFilename_bytes name :
  sanitizeFilename name = mapBytes safeByte name.
Proof.
  unfold sanitizeFilename. rewrite !ReplaceAll_byte, !mapBytes_mapBytes.
  apply mapBytes_ext.
  intros [[] [] [] [] [] [] [] []]; vm_compute; reflexivity.
Qed.

Lemma safeByte_safe c : existsb (Ascii.eqb (safeByte c)) unsafeNameBytes = false.
Proof. destruct c as [[] [] [] [] [] [] [] []]; vm_compute; reflexivity. Qed.

Lemma safeByte_id c :
  existsb (Ascii.eqb c) unsafeNameBytes = false -> safeByte c = c.
Proof. unfold safeByte. now intros ->. Qed.

(** X15 ([sanitizeFilename]): the result has the length of the name and
    none of the ten replaced bytes; a second pass changes nothing; and
    the names left as they are are exactly those without such a byte
    (so the empty name, [.] and [..] pass unchanged). *)
Theorem X15_sanitized_filename (name : string) :
  String.length (sanitizeFilename name) = String.length name /\
  ContainsAny (sanitizeFilename name) (string_of_list_ascii unsafeNameBytes)
  = false /\
  sanitizeFilename (sanitizeFilename name) = sanitizeFilename name /\
  (sanitizeFilename name = name <->
   ContainsAny name (string_of_list_ascii unsafeNameBytes) = false).
Proof.
  rewrite !sanitizeFilename_bytes. unfold ContainsAny, mapBytes.
  pose (l := list_ascii_of_string name).
  assert (E : name = string_of_list_ascii l)
    by (symmetry; apply string_of_list_ascii_of_string).
  clearbody l. subst name.
  rewrite !list_ascii_of_string_of_list_ascii.
  assert (Hlen : forall l : list ascii,
            String.length (string_of_list_ascii l) = length l).
  { intros l'. induction l' as [|x r IH]; simpl; [reflexivity | now rewrite IH]. }
  repeat split.
  - now rewrite !Hlen, length_map.
  - induction l as [|x r IH]; [reflexivity|]. cbn [existsb map].
    rewrite IH, orb_false_r. apply safeByte_safe.
  - f_equal. rewrite map_map. apply map_ext. intros c.
    apply safeByte_id, safeByte_safe.
  - intros H. apply string_of_inj in H.
    induction l as [|x r IH]; [reflexivity|]. cbn [existsb map] in *.
    injection H as Hx Hr. rewrite (IH Hr), orb_false_r.
    rewrite <- Hx. apply safeByte_safe.
  - intros H. f_equal.
    induction l as [|x r IH]; [reflexivity|]. cbn [existsb map] in *.
    apply orb_false_elim in H as [Hx Hr].
    rewrite (safeByte_id x Hx), (IH Hr). reflexivity.
Qed.

(** ** [formatValueForCSV] *)

Lemma read_plain s : forall cur k,
  existsb (fun c => existsb (Ascii.eqb c)
                      [","%char; quote; carriageReturn; lineFeed]) s
  = false ->
  readRecord false cur (s ++ k) = readRecord false (cur ++ s) k.
Proof.
  induction s as [|x r IH]; intros cur k H.
  - now rewrite app_nil_r.
  - cbn [existsb] in H. apply orb_false_elim in H as [Hx Hr].
    apply orb_false_elim in Hx as [Hc Hx].
    apply orb_false_elim in Hx as [Hq Hx].
    apply orb_false_elim in Hx as [_ Hx].
    apply orb_false_elim in Hx as [Hlf _].
    cbn [app readRecord].
    rewrite Hc, Hlf, Hq. cbn [andb].
    rewrite (IH _ _ Hr), <- app_assoc. reflexivity.
Qed.

(** Inside quotes the reader undoes the doubling up to the closing
    quote, whatever follows it but a quote. *)
Lemma read_quoted s : forall cur k,
  prefixOf [quote] k = false ->
  readRecord true cur
    (flat_map (fun x => if Ascii.eqb x quote then [quote; quote] else [x]) s
     ++ quote :: k)
  = readRecord false (cur ++ s) k.
Proof.
  induction s as [|x r IH]; intros cur k Hk.
  - rewrite app_nil_r. cbn [flat_map app readRecord].
    rewrite Ascii.eqb_refl. destruct k as [|y k']; [reflexivity|].
    cbn [prefixOf] in Hk. rewrite andb_true_r, Ascii.eqb_sym in Hk.
    now rewrite Hk.
  - cbn [flat_map]. destruct (Ascii.eqb x quote) eqn:E.
    + apply Ascii.eqb_eq in E. subst x.
      cbn [app readRecord]. rewrite !Ascii.eqb_refl.
      rewrite (IH _ _ Hk), <- app_assoc. reflexivity.
    + cbn [app readRecord]. rewrite E.
      rewrite (IH _ _ Hk), <- app_assoc. reflexivity.
Qed.

(** The reader takes a formatted value for the text it was made from,
    when a comma or a line feed follows. *)
Lemma read_field v k :
  prefixOf [quote] k = false ->
  readRecord false [] (list_ascii_of_string (formatValueForCSV v) ++ k)
  = readRecord false (list_ascii_of_string (valueText v)) k.
Proof.
  intros Hk.
  assert (Hs : forall str,
    readRecord false []
      (list_ascii_of_string
         (if ContainsAny str (String "," (String quote (String carriageReturn
                                 (String lineFeed ""))))
          then (String quote
                  (ReplaceAll str quote (String quote (String quote "")))
                ++ String quote "")%string
          else str) ++ k)
    = readRecord false (list_ascii_of_string str) k).
  { intros str. unfold ContainsAny.
    change (list_ascii_of_string
              (String "," (String quote (String carriageReturn
                 (String lineFeed "")))))
      with [","%char; quote; carriageReturn; lineFeed].
    destruct (existsb _ (list_ascii_of_string str)) eqn:E.
    - cbn [list_ascii_of_string append]. rewrite list_of_append.
      unfold ReplaceAll. rewrite list_ascii_of_string_of_list_ascii.
      change (list_ascii_of_string (String quote (String quote "")))
        with [quote; quote].
      change (list_ascii_of_string (String quote "")) with [quote].
      cbn [app]. rewrite <- app_assoc. cbn [app readRecord].
      change (Ascii.eqb quote ",") with false.
      change (Ascii.eqb quote lineFeed) with false.
      rewrite Ascii.eqb_refl. cbn [andb].
      rewrite bool_decide_eq_true_2 by reflexivity.
      now rewrite read_quoted.
    - now rewrite read_plain. }
  destruct v as [|str|str]; cbn [formatValueForCSV valueText].
  - apply (read_plain (list_ascii_of_string "NULL")). reflexivity.
  - apply Hs.
  - apply Hs.
Qed.

Lemma Join_cons x y r sep :
  Join (x :: y :: r) sep = (x ++ sep ++ Join (y :: r) sep)%string.
Proof. reflexivity. Qed.

Lemma csvLine_read values : forall rest,
  values <> [] ->
  readRecord false []
    (list_ascii_of_string (csvLine values) ++ rest)
  = (map valueText values, rest).
Proof.
  unfold csvLine.
  induction values as [|v [|v' r] IH]; intros rest Hne; [done| |].
  - cbn [map Join]. rewrite list_of_append, <- app_assoc.
    rewrite read_field by reflexivity.
    cbn [list_ascii_of_string app].
    destruct (list_ascii_of_string (valueText v)) eqn:E.
    + cbn [readRecord]. change (Ascii.eqb lineFeed ",") with false.
      rewrite Ascii.eqb_refl. cbn [map]. f_equal. f_equal.
      rewrite <- E. apply string_of_list_ascii_of_string.
    + rewrite <- E. clear E.
      cbn [readRecord]. change (Ascii.eqb lineFeed ",") with false.
      rewrite Ascii.eqb_refl. cbn [map]. f_equal. f_equal.
      apply string_of_list_ascii_of_string.
  - specialize (IH rest ltac:(discriminate)).
    rewrite list_of_append, <- app_assoc in IH.
    cbn [map] in *. rewrite Join_cons.
    rewrite !list_of_append, <- !app_assoc.
    rewrite read_field by reflexivity.
    change (list_ascii_of_string ",") with [","%char].
    cbn [app readRecord]. rewrite Ascii.eqb_refl.
    rewrite IH, string_of_list_ascii_of_string. reflexivity.
Qed.

(** X16 ([formatValueForCSV], [dumpAllDatabases]): a reader by the rules
    of RFC 4180 takes from a data line exactly the texts of the values
    written, in order, and stops behind its line feed, whatever bytes
    the values hold; a [nil] value is written as the text [NULL] is. *)
Theorem X16_csv_line_round_trip (values : list Value) (rest : list ascii)
    (Hcolumns : values <> []) :
  readRecord false [] (list_ascii_of_string (csvLine values) ++ rest)
  = (map valueText values, rest) /\
  formatValueForCSV VNil = formatValueForCSV (VBytes "NULL").
Proof.
  split; [now apply csvLine_read | reflexivity].
Qed.

Lemma X16_witness :
  readRecord false [] (list_ascii_of_string (csvLine csvExample) ++ [])
  = (["a,b"; "NULL"; String quote "x"], []).
Proof.
  refine (proj1 (X16_csv_line_round_trip csvExample [] _)). discriminate.
Defined.

(** ** [getSqlVerb], [isDangerous], [isQueryCommand] *)

Lemma upTo_nil a sep : upTo (a :: sep) [] = [].
Proof. reflexivity. Qed.

Lemma upTo_cons a sep x r :
  Ascii.eqb a x = false -> upTo (a :: sep) (x :: r) = x :: upTo (a :: sep) r.
Proof. intros H. cbn [upTo prefixOf]. now rewrite H. Qed.

Lemma upTo_hit sep s : prefixOf sep s = true -> upTo sep s = [].
Proof. intros H. destruct s; cbn [upTo]; now rewrite H. Qed.

Lemma upTo_word a sep w rest :
  forallb (fun x => negb (Ascii.eqb a x)) w = true ->
  upTo (a :: sep) (w ++ rest) = w ++ upTo (a :: sep) rest.
Proof.
  induction w as [|x r IH]; intros H; [reflexivity|].
  cbn [forallb] in H. apply andb_prop in H as [Hx Hr].
  apply negb_true_iff in Hx.
  cbn [app]. rewrite (upTo_cons _ _ _ _ Hx), (IH Hr). reflexivity.
Qed.

Lemma wordByte_facts c :
  wordByte c = true ->
  (N_of_ascii c < 128)%N /\ isAsciiSpace (N_of_ascii c) = false /\
  Ascii.eqb "#" c = false /\ Ascii.eqb "-" c = false.
Proof.
  unfold wordByte. intros H.
  apply andb_prop in H as [H H4]. apply andb_prop in H as [H H3].
  apply andb_prop in H as [H1 H2].
  apply N.ltb_lt in H1. apply negb_true_iff in H2, H3, H4.
  rewrite (Ascii.eqb_sym "#"), (Ascii.eqb_sym "-"). auto.
Qed.

Lemma space_not_sep c :
  isAsciiSpace (N_of_ascii c) = true ->
  Ascii.eqb "#" c = false /\ Ascii.eqb "-" c = false.
Proof.
  intros H. split.
  - destruct (Ascii.eqb_spec "#" c) as [<-|]; [discriminate | reflexivity].
  - destruct (Ascii.eqb_spec "-" c) as [<-|]; [discriminate | reflexivity].
Qed.

Lemma fieldsFrom_ascii cur x s :
  (N_of_ascii x < 128)%N -> isAsciiSpace (N_of_ascii x) = false ->
  fieldsFrom cur (x :: s) = fieldsFrom (cur ++ [x]) s.
Proof.
  intros Hx Hs.
  assert (H2 : forall b, spaceRune2 (N_of_ascii x) b = false).
  { intros b. unfold spaceRune2.
    destruct (N.eqb_spec (N_of_ascii x) 194); [lia | reflexivity]. }
  assert (H3 : forall b c, spaceRune3 (N_of_ascii x) b c = false).
  { intros b c. unfold spaceRune3.
    destruct (N.eqb_spec (N_of_ascii x) 225); [lia|].
    destruct (N.eqb_spec (N_of_ascii x) 226); [lia|].
    destruct (N.eqb_spec (N_of_ascii x) 227); [lia | reflexivity]. }
  destruct s as [|c2 [|c3 r3]]; cbn [fieldsFrom]; rewrite Hs, ?H2, ?H3;
    reflexivity.
Qed.

Lemma fieldsFrom_word w : forall cur k,
  forallb wordByte w = true ->
  fieldsFrom cur (w ++ k) = fieldsFrom (cur ++ w) k.
Proof.
  induction w as [|x r IH]; intros cur k H.
  - now rewrite app_nil_r.
  - cbn [forallb] in H. apply andb_prop in H as [Hx Hr].
    apply wordByte_facts in Hx as (H1 & H2 & _ & _).
    cbn [app]. rewrite (fieldsFrom_ascii _ _ _ H1 H2), (IH _ _ Hr).
    now rewrite <- app_assoc.
Qed.

(** The first word survives the comment cuts and is the first field. *)
Lemma first_field w rest :
  w <> [] -> forallb wordByte w = true ->
  endsWord (string_of_list_ascii rest) = true ->
  exists more,
    Fields (SplitHead (SplitHead (string_of_list_ascii (w ++ rest)) "--") "#")
    = string_of_list_ascii w :: more.
Proof.
  intros Hw Hb Hr.
  assert (Hcut : forall a sep,
            (a = "#" \/ a = "-")%char ->
            exists rest', upTo (a :: sep) (w ++ rest) = w ++ rest' /\
                          endsWord (string_of_list_ascii rest') = true).
  { intros a sep Ha. exists (upTo (a :: sep) rest). split.
    - apply upTo_word. apply forallb_forall. intros x Hx.
      rewrite List.forallb_forall in Hb. apply Hb, wordByte_facts in Hx.
      destruct Hx as (_ & _ & H3 & H4), Ha as [->| ->];
        apply negb_true_iff; assumption.
    - destruct rest as [|c r]; [reflexivity|]. cbn in Hr.
      destruct (space_not_sep c Hr) as [H3 H4].
      rewrite upTo_cons by (destruct Ha as [->| ->]; assumption).
      exact Hr. }
  unfold Fields, SplitHead. rewrite !list_ascii_of_string_of_list_ascii.
  change (list_ascii_of_string "--") with ["-"; "-"]%char.
  change (list_ascii_of_string "#") with ["#"]%char.
  destruct (Hcut "-"%char ["-"%char] (or_intror eq_refl)) as (r1 & -> & Hr1).
  clear Hcut.
  assert (Hcut : exists r2, upTo ["#"%char] (w ++ r1) = w ++ r2 /\
                            endsWord (string_of_list_ascii r2) = true).
  { exists (upTo ["#"%char] r1). split.
    - apply upTo_word. apply forallb_forall. intros x Hx.
      rewrite List.forallb_forall in Hb. apply Hb, wordByte_facts in Hx.
      destruct Hx as (_ & _ & H3 & _). now apply negb_true_iff.
    - destruct r1 as [|c r]; [reflexivity|]. cbn in Hr1.
      destruct (space_not_sep c Hr1) as [H3 _].
      rewrite upTo_cons by assumption. exact Hr1. }
  destruct Hcut as (r2 & -> & Hr2).
  rewrite (fieldsFrom_word w [] r2 Hb). cbn [app].
  destruct w as [|x w']; [done|].
  destruct r2 as [|c r]; cbn [fieldsFrom].
  - eexists. reflexivity.
  - cbn in Hr2. rewrite Hr2. eexists. reflexivity.
Qed.

Lemma isASCII_word w :
  forallb wordByte w = true -> isASCII (string_of_list_ascii w) = true.
Proof.
  intros H. unfold isASCII. rewrite list_ascii_of_string_of_list_ascii.
  apply forallb_forall. intros x Hx.
  rewrite List.forallb_forall in H. apply H, wordByte_facts in Hx.
  apply N.ltb_lt. tauto.
Qed.

Lemma getSqlVerb_first_word unicodeUpper cmd word rest :
  TrimSpace cmd = (word ++ rest)%string ->
  word <> "" ->
  forallb wordByte (list_ascii_of_string word) = true ->
  endsWord rest = true ->
  getSqlVerb unicodeUpper cmd = mapBytes upperByte word.
Proof.
  intros Ht Hw Hb Hr. unfold getSqlVerb. rewrite Ht.
  rewrite <- (string_of_list_ascii_of_string (word ++ rest)), list_of_append.
  destruct (first_field (list_ascii_of_string word) (list_ascii_of_string rest))
    as [more Hf].
  - intros E. apply Hw.
    now rewrite <- (string_of_list_ascii_of_string word), E.
  - exact Hb.
  - now rewrite string_of_list_ascii_of_string.
  - rewrite Hf. unfold ToUpper.
    rewrite (isASCII_word _ Hb), string_of_list_ascii_of_string. reflexivity.
Qed.

(** X17 ([getSqlVerb], [isQueryCommand], [isDangerous]): the verb is
    the first word of the trimmed command, up to white space, with its
    ASCII letters in upper case, whatever follows it; the command is
    run as a query exactly when that word is one of the five query
    verbs, and is dangerous exactly when that word is one of the nine
    dangerous verbs or the upper-cased command contains one of the ten
    function names. *)
Theorem X17_verb_is_first_word (unicodeUpper : string -> string)
    (cmd word rest : string)
    (Htrimmed : TrimSpace cmd = (word ++ rest)%string)
    (Hword : word <> "")
    (Hbytes : forallb wordByte (list_ascii_of_string word) = true)
    (Hrest : endsWord rest = true) :
  getSqlVerb unicodeUpper cmd = mapBytes upperByte word /\
  isQueryCommand unicodeUpper cmd
  = existsb (String.eqb (mapBytes upperByte word)) queryVerbs /\
  isDangerous unicodeUpper cmd
  = existsb (String.eqb (mapBytes upperByte word)) dangerousVerbs
    || existsb (Contains (ToUpper unicodeUpper (TrimSpace cmd)))
         dangerousFunctions.
Proof.
  unfold isQueryCommand, isDangerous.
  rewrite (getSqlVerb_first_word unicodeUpper cmd word rest) by assumption.
  repeat split.
  destruct (existsb (String.eqb _) dangerousVerbs); [reflexivity|].
  destruct (existsb _ dangerousFunctions); reflexivity.
Qed.

Lemma X17_witness :
  getSqlVerb (fun s => s) "  select * from users" = "SELECT" /\
  isQueryCommand (fun s => s) "  select * from users" = true /\
  isDangerous (fun s => s) "  select * from users" = false.
Proof.
  refine (X17_verb_is_first_word (fun s => s) "  select * from users"
            "select" " * from users" eq_refl _ eq_refl eq_refl).
  discriminate.
Defined.



Lemma SplitHead_comment t :
  HasPrefix t "#" = true \/ HasPrefix t "--" = true ->
  SplitHead (SplitHead t "--") "#" = "".
Proof.
  unfold HasPrefix, SplitHead.
  change (list_ascii_of_string "--") with ["-"; "-"]%char.
  change (list_ascii_of_string "#") with ["#"]%char.
  intros [H|H].
  - destruct (list_ascii_of_string t) as [|x r]; [discriminate|].
    cbn [prefixOf] in H. rewrite andb_true_r in H.
    apply Ascii.eqb_eq in H. subst x.
    rewrite upTo_cons by reflexivity.
    rewrite list_ascii_of_string_of_list_ascii. reflexivity.
  - rewrite (upTo_hit _ _ H). reflexivity.
Qed.

(** X19 ([getSqlVerb], [isDangerous], [isQueryCommand]): a command that
    opens with [#] or [--] has the empty verb, whatever statement
    follows the comment: it is never run as a query, and it is refused
    only for a function name in its text, never for its verb. *)
Theorem X19_comment_led_command (unicodeUpper : string -> string)
    (cmd : string) (allowDangerous : bool)
    (Hcomment : HasPrefix (TrimSpace cmd) "#" = true \/
                HasPrefix (TrimSpace cmd) "--" = true) :
  getSqlVerb unicodeUpper cmd = "" /\
  commandRoute unicodeUpper allowDangerous cmd
  = (if existsb (Contains (ToUpper unicodeUpper (TrimSpace cmd)))
          dangerousFunctions && negb allowDangerous
     then Blocked else ViaExec).
Proof.
  assert (Hv : getSqlVerb unicodeUpper cmd = "").
  { unfold getSqlVerb. rewrite (SplitHead_comment _ Hcomment). reflexivity. }
  split; [exact Hv|].
  unfold commandRoute, isDangerous, isQueryCommand. rewrite Hv.
  cbn [existsb dangerousVerbs queryVerbs String.eqb orb].
  destruct (existsb _ dangerousFunctions); reflexivity.
Qed.

Lemma X19_witness :
  getSqlVerb (fun s => s) commentLed = "" /\
  commandRoute (fun s => s) false commentLed = ViaExec.
Proof.
  refine (X19_comment_led_command (fun s => s) commentLed false _).
  left. reflexivity.
Defined.

(** ** Options *)

(** X20 ([main], [loadConfig], [sanitizeCommand]): whatever the flags
    and the configuration file, the command that [main] hands on is in
    sanitised form: sanitising it again gives the same text. *)
Theorem X20_command_option_is_sanitised (flags : Cli.Config)
    (configFile : option Cli.Config) :
  sanitizeCommand (Cli.ExecCmd (Cli.options flags configFile))
  = Cli.ExecCmd (Cli.options flags configFile).
Proof.
  destruct configFile as [newCfg|]; cbn [Cli.options Cli.loadConfig Cli.ExecCmd].
  - destruct (_ && _); apply sanitizeCommand_idem.
  - apply sanitizeCommand_idem.
Qed.




Lemma textOr_idem dflt cur new :
  Cli.textOr dflt (Cli.textOr dflt cur new) new = Cli.textOr dflt cur new.
Proof.
  unfold Cli.textOr.
  destruct (String.eqb_spec cur dflt), (String.eqb_spec new ""),
    (String.eqb_spec new dflt); subst; cbn [andb negb];
    rewrite ?String.eqb_refl; cbn [andb negb]; try reflexivity;
    repeat match goal with
           | |- context [(?a =? ?b)%string] =>
               destruct (String.eqb_spec a b); cbn [andb negb]
           end; congruence.
Qed.

Lemma intOr_idem dflt cur new :
  Cli.intOr dflt (Cli.intOr dflt cur new) new = Cli.intOr dflt cur new.
Proof.
  unfold Cli.intOr.
  destruct (Z.eqb_spec cur dflt), (Z.eqb_spec new 0); cbn [andb negb];
    repeat match goal with
           | |- context [(?a =? ?b)%Z] =>
               destruct (Z.eqb_spec a b); cbn [andb negb]
           end; congruence.
Qed.

Lemma flagOr_idem cur new :
  Cli.flagOr (Cli.flagOr cur new) new = Cli.flagOr cur new.
Proof. destruct cur, new; reflexivity. Qed.

(** X22 ([loadConfig]): merging the same file a second time changes
    nothing. *)
Theorem X22_loadConfig_idempotent (cfg newCfg : Cli.Config) :
  Cli.loadConfig (Cli.loadConfig cfg newCfg) newCfg
  = Cli.loadConfig cfg newCfg.
Proof.
  unfold Cli.loadConfig at 1. cbn [Cli.loadConfig Cli.Host Cli.Port
    Cli.SingleUser Cli.UserList Cli.SinglePass Cli.PassList Cli.Verbose
    Cli.FirstOnly Cli.UserFirst Cli.ExecCmd Cli.AllowDangerous Cli.LogFile
    Cli.UseSSL Cli.SkipSSL Cli.Workers Cli.Enum Cli.EnumOutputFile Cli.Dump
    Cli.DumpDir Cli.QuietDump Cli.MaxRowsPerFile].
  rewrite !textOr_idem, !intOr_idem, !flagOr_idem.
  unfold Cli.loadConfig. f_equal.
  - destruct (String.eqb_spec (Cli.Host cfg) "") as [E|E]; [|now rewrite (proj2 (String.eqb_neq _ _) E)].
    destruct (String.eqb_spec (Cli.Host newCfg) ""); reflexivity.
  - destruct (String.eqb_spec (Cli.ExecCmd cfg) "SHOW DATABASES;") as [E|E];
      destruct (String.eqb_spec (Cli.ExecCmd newCfg) "") as [F|F];
      cbn [andb negb]; rewrite ?andb_false_r;
      try (rewrite (proj2 (String.eqb_neq _ _) E)); cbn [andb];
      try reflexivity.
    destruct (_ =? _)%string; reflexivity.
Qed.

Lemma textOr_empty cur new :
  Cli.textOr "" cur new = "" <-> cur = "" /\ new = "".
Proof.
  unfold Cli.textOr.
  destruct (String.eqb_spec cur ""), (String.eqb_spec new "");
    cbn [andb negb]; subst; tauto.
Qed.

(** X23 ([loadConfig], [main]): when a literal user name and a user
    list are both given, each on the command line or in the file, the
    merged options are refused as mutually exclusive: neither source
    gives way to the other. *)
Theorem X23_user_sources_collide (fileExists : string -> bool)
    (connectMode : bool) (cfg newCfg : Cli.Config)
    (Hhost : Cli.Host cfg <> "" \/ Cli.Host newCfg <> "")
    (Huser : Cli.SingleUser cfg <> "" \/ Cli.SingleUser newCfg <> "")
    (Hlist : Cli.UserList cfg <> "" \/ Cli.UserList newCfg <> "") :
  Cli.validate fileExists connectMode (Cli.loadConfig cfg newCfg)
  = Some Cli.UsersExclusive.
Proof.
  unfold Cli.validate.
  cbn [Cli.loadConfig Cli.Host Cli.SingleUser Cli.UserList].
  assert (Hh : ((if (Cli.Host cfg =? "")%string then Cli.Host newCfg
                 else Cli.Host cfg) =? "")%string = false).
  { apply String.eqb_neq.
    destruct (String.eqb_spec (Cli.Host cfg) ""); tauto. }
  rewrite Hh.
  assert (Hu : (Cli.textOr "" (Cli.SingleUser cfg) (Cli.SingleUser newCfg)
                =? "")%string = false).
  { apply String.eqb_neq. rewrite textOr_empty. tauto. }
  assert (Hl : (Cli.textOr "" (Cli.UserList cfg) (Cli.UserList newCfg)
                =? "")%string = false).
  { apply String.eqb_neq. rewrite textOr_empty. tauto. }
  rewrite Hu, Hl. reflexivity.
Qed.

Lemma X23_witness :
  Cli.validate (fun _ => true) false (Cli.loadConfig listFlags singleUserFile)
  = Some Cli.UsersExclusive.
Proof.
  apply X23_user_sources_collide.
  - left. discriminate.
  - right. discriminate.
  - left. discriminate.
Defined.

(** ** Table files *)

Lemma scanned_app a b : Dump.scanned (a ++ b) = Dump.scanned a ++ Dump.scanned b.
Proof. unfold Dump.scanned. apply flat_map_app. Qed.

Lemma dataLines_write f text :
  head (Dump.written f) <> None ->
  Dump.dataLines (Dump.mkFile (Dump.part f) (Dump.written f ++ [text]))
  = Dump.dataLines f ++ [text].
Proof.
  unfold Dump.dataLines. cbn [Dump.written].
  destruct (Dump.written f); [intros H; now destruct H | reflexivity].
Qed.

Lemma dumpInvariant_opened maxRows header rowCount0 :
  GoInt.wrap rowCount0 = rowCount0 ->
  dumpInvariant maxRows header rowCount0 [] (Dump.opened header rowCount0).
Proof.
  intros Hrc. exists (Dump.mkFile None [header]). cbn.
  repeat split; auto.
  - now rewrite Z.add_0_r.
  - lia.
Qed.

Lemma dumpInvariant_step maxRows create header rowCount0 done row p :
  (forall i, create i = true) ->
  (maxRows <= GoInt.maxInt)%Z ->
  dumpInvariant maxRows header rowCount0 done p ->
  exists p', Dump.rowStep maxRows create header row p = (p', false) /\
             dumpInvariant maxRows header rowCount0 (done ++ [row]) p'.
Proof.
  intros Hcreate Hmax (f & Hf & Hdata & Hhead & Hidx & Hrc & Hpos & Hneg).
  (* the state after the file check *)
  assert (Hroll : exists q g,
    (if (0 <? maxRows)%Z && (maxRows <=? Dump.tableRowCount p)%Z
     then
       if create (GoInt.add (Dump.fileIndex p) 1)
       then (Dump.mkProgress (Dump.closeFile p)
               (Some (Dump.mkFile (Some (GoInt.add (Dump.fileIndex p) 1))
                                  [header]))
               0 (GoInt.add (Dump.fileIndex p) 1) (Dump.rowCount p), false)
       else (Dump.mkProgress (Dump.closeFile p) None (Dump.tableRowCount p)
               (GoInt.add (Dump.fileIndex p) 1) (Dump.rowCount p), true)
     else (p, false)) = (q, false) /\
    Dump.tableFile q = Some g /\
    concat (map Dump.dataLines (Dump.closed q ++ [g]))
    = map csvLine (Dump.scanned done) /\
    Forall (fun g => head (Dump.written g) = Some header)
           (Dump.closed q ++ [g]) /\
    Dump.fileIndex q = GoInt.wrap (1 + Z.of_nat (length (Dump.closed q))) /\
    Dump.rowCount q
    = GoInt.wrap (rowCount0 + Z.of_nat (length (Dump.scanned done))) /\
    ((0 < maxRows)%Z ->
     Forall (fun g => Z.of_nat (length (Dump.dataLines g)) = maxRows)
            (Dump.closed q) /\
     Dump.tableRowCount q = Z.of_nat (length (Dump.dataLines g)) /\
     (Dump.tableRowCount q < maxRows)%Z) /\
    ((maxRows <= 0)%Z -> Dump.closed q = [])).
  { destruct ((0 <? maxRows)%Z && (maxRows <=? Dump.tableRowCount p)%Z) eqn:E.
    - apply andb_prop in E as [E1 E2].
      apply Z.ltb_lt in E1. apply Z.leb_le in E2.
      destruct (Hpos E1) as (Hfull & Hcount & Hle).
      rewrite Hcreate. unfold Dump.closeFile. rewrite Hf.
      eexists _, _. split; [reflexivity|]. cbn.
      repeat split.
      + rewrite map_app, concat_app. cbn. now rewrite !app_nil_r in *.
      + apply Forall_app. split; [exact Hhead | repeat constructor].
      + rewrite Hidx. unfold GoInt.add. rewrite wrap_add_l, length_app. cbn.
        f_equal. lia.
      + exact Hrc.
      + apply Forall_app. split; [exact Hfull|]. repeat constructor. lia.
      + exact E1.
      + lia.
    - exists p, f. split; [reflexivity|].
      repeat split; auto; try (apply Hpos; assumption).
      destruct (Hpos H) as (_ & _ & Hle).
      apply andb_false_iff in E as [E|E].
      + apply Z.ltb_ge in E. lia.
      + apply Z.leb_gt in E. lia. }
  destruct Hroll as (q & g & Hq & Hg & Hdata' & Hhead' & Hidx' & Hrc' & Hpos'
                     & Hneg').
  unfold Dump.rowStep. rewrite Hq.
  destruct row as [values|].
  - eexists. split; [reflexivity|].
    assert (Hw : head (Dump.written g) <> None).
    { apply Forall_app in Hhead' as [_ Hg'].
      apply Forall_inv in Hg'. now rewrite Hg'. }
    rewrite Hg. cbn [Dump.writeString].
    eexists. cbn. split; [reflexivity|].
    rewrite scanned_app. cbn [Dump.scanned flat_map app].
    rewrite map_app, length_app, !map_app, !concat_app.
    rewrite map_app, concat_app in Hdata'. cbn in Hdata' |- *.
    rewrite app_nil_r in *.
    rewrite (dataLines_write g _ Hw).
    repeat split.
    + rewrite app_assoc, Hdata'. reflexivity.
    + apply Forall_app in Hhead' as [Hc Hg'].
      apply Forall_app. split; [exact Hc|]. repeat constructor. cbn.
      apply Forall_inv in Hg'. destruct (Dump.written g); [discriminate|].
      exact Hg'.
    + exact Hidx'.
    + rewrite Hrc'. unfold GoInt.add. rewrite wrap_add_l. f_equal. lia.
    + apply Hpos'. assumption.
    + destruct (Hpos' H) as (_ & Hc & Hlt).
      unfold GoInt.add. rewrite wrap_small.
      * rewrite Hc, length_app. cbn. lia.
      * unfold GoInt.minInt, GoInt.maxInt, GoInt.bits in *. lia.
    + destruct (Hpos' H) as (_ & Hc & Hlt).
      unfold GoInt.add. rewrite wrap_small.
      * lia.
      * unfold GoInt.minInt, GoInt.maxInt, GoInt.bits in *. lia.
    + exact Hneg'.
  - eexists. split; [reflexivity|].
    exists g. rewrite scanned_app. cbn [Dump.scanned flat_map].
    rewrite app_nil_r.
    repeat split; auto; try (apply Hpos'; assumption).
    destruct (Hpos' H) as (_ & _ & Hlt). lia.
Qed.

Lemma dumpInvariant_rows maxRows create header rowCount0 rows :
  (forall i, create i = true) ->
  (maxRows <= GoInt.maxInt)%Z ->
  forall done p,
    dumpInvariant maxRows header rowCount0 done p ->
    dumpInvariant maxRows header rowCount0 (done ++ rows)
      (Dump.dumpRows maxRows create header rows p).
Proof.
  intros Hcreate Hmax.
  induction rows as [|row rest IH]; intros done p Hinv.
  - now rewrite app_nil_r.
  - destruct (dumpInvariant_step _ _ _ _ _ row _ Hcreate Hmax Hinv)
      as (p' & Hstep & Hinv').
    cbn [Dump.dumpRows]. rewrite Hstep.
    replace (done ++ row :: rest) with ((done ++ [row]) ++ rest)
      by now rewrite <- app_assoc.
    now apply IH.
Qed.

(** X24 ([dumpAllDatabases]): when every part file can be created, the
    files of a table hold, below a header line each, the lines of the
    scanned rows, each row once and in the order of the result set.
    With a positive [--max-rows] every file but the last holds exactly
    that many rows and the last one at most that many; with
    [--max-rows 0] or less there is one file.  [rowCount] grows by the
    number of scanned rows, and [fileIndex] is the number of files. *)
Theorem X24_table_files_hold_the_rows (maxRows : Z) (create : Z -> bool)
    (header : string) (rowCount0 : Z) (rows : list (option (list Value)))
    (Hcreate : forall i, create i = true)
    (HmaxRows : (maxRows <= GoInt.maxInt)%Z)
    (HrowCount : GoInt.wrap rowCount0 = rowCount0) :
  let p := Dump.dumpRows maxRows create header rows
             (Dump.opened header rowCount0) in
  concat (map Dump.dataLines (Dump.tableFiles p))
  = map csvLine (Dump.scanned rows) /\
  Forall (fun f => head (Dump.written f) = Some header) (Dump.tableFiles p) /\
  (exists full last,
      Dump.tableFiles p = full ++ [last] /\
      ((0 < maxRows)%Z ->
       Forall (fun f => Z.of_nat (length (Dump.dataLines f)) = maxRows) full /\
       (Z.of_nat (length (Dump.dataLines last)) <= maxRows)%Z) /\
      ((maxRows <= 0)%Z -> full = [])) /\
  Dump.rowCount p
  = GoInt.wrap (rowCount0 + Z.of_nat (length (Dump.scanned rows))) /\
  Dump.fileIndex p
  = GoInt.wrap (Z.of_nat (length (Dump.tableFiles p))).
Proof.
  intros p.
  destruct (dumpInvariant_rows maxRows create header rowCount0 rows
              Hcreate HmaxRows [] _
              (dumpInvariant_opened maxRows header rowCount0 HrowCount))
    as (f & Hf & Hdata & Hhead & Hidx & Hrc & Hpos & Hneg).
  fold p in Hf, Hdata, Hhead, Hidx, Hrc, Hpos, Hneg. cbn [app] in *.
  unfold Dump.tableFiles, Dump.closeFile. rewrite Hf.
  repeat split; auto.
  - exists (Dump.closed p), f. repeat split; auto.
    + now apply Hpos.
    + destruct (Hpos H) as (_ & Hc & Hle). lia.
  - rewrite Hidx, length_app. cbn. f_equal. lia.
Qed.

Lemma X24_witness :
  map Dump.dataLines
    (Dump.tableFiles (Dump.dumpRows 2 (fun _ => true) "n" fiveRows
                        (Dump.opened "n" 0)))
  = [[csvLine [VBytes "1"]; csvLine [VBytes "2"]];
     [csvLine [VBytes "3"]; csvLine [VBytes "4"]];
     [csvLine [VBytes "5"]]] /\
  concat (map Dump.dataLines
            (Dump.tableFiles (Dump.dumpRows 2 (fun _ => true) "n" fiveRows
                                (Dump.opened "n" 0))))
  = map csvLine (Dump.scanned fiveRows).
Proof.
  split; [vm_compute; reflexivity|].
  refine (proj1 (X24_table_files_hold_the_rows 2 (fun _ => true) "n" 0
                   fiveRows _ _ _)).
  - reflexivity.
  - discriminate.
  - reflexivity.
Defined.

Lemma full_files_length maxRows (files : list Dump.TableFile) :
  Forall (fun f => Z.of_nat (length (Dump.dataLines f)) = maxRows) files ->
  Z.of_nat (length (concat (map Dump.dataLines files)))
  = (maxRows * Z.of_nat (length files))%Z.
Proof.
  induction 1 as [|f files Hf _ IH]; cbn [map concat length].
  - lia.
  - rewrite length_app. lia.
Qed.

(** X25 ([dumpAllDatabases]): with a positive [--max-rows], the row
    count that the summary line of a table prints, [tableRowCount], is
    the number of rows in the last file only: the scanned rows number
    [maxRows] for each earlier file more, so the summary of a table
    that took more than one file reports fewer rows than were
    dumped. *)
Theorem X25_summary_counts_last_file (maxRows : Z) (create : Z -> bool)
    (header : string) (rowCount0 : Z) (rows : list (option (list Value)))
    (Hcreate : forall i, create i = true)
    (HmaxRows : (0 < maxRows <= GoInt.maxInt)%Z)
    (HrowCount : GoInt.wrap rowCount0 = rowCount0) :
  let p := Dump.dumpRows maxRows create header rows
             (Dump.opened header rowCount0) in
  Z.of_nat (length (Dump.scanned rows))
  = (maxRows * (Z.of_nat (length (Dump.tableFiles p)) - 1)
     + Dump.tableRowCount p)%Z /\
  (1 < length (Dump.tableFiles p) ->
   (Dump.tableRowCount p < Z.of_nat (length (Dump.scanned rows)))%Z).
Proof.
  intros p. destruct HmaxRows as [Hpos0 Hmax].
  destruct (dumpInvariant_rows maxRows create header rowCount0 rows
              Hcreate Hmax [] _
              (dumpInvariant_opened maxRows header rowCount0 HrowCount))
    as (f & Hf & Hdata & Hhead & Hidx & Hrc & Hpos & Hneg).
  fold p in Hf, Hdata, Hhead, Hidx, Hrc, Hpos, Hneg. cbn [app] in *.
  destruct (Hpos Hpos0) as (Hfull & Hcount & Hle).
  unfold Dump.tableFiles, Dump.closeFile. rewrite Hf.
  apply (f_equal (@length string)) in Hdata.
  rewrite length_map, map_app, concat_app, length_app in Hdata.
  cbn in Hdata. rewrite app_nil_r in Hdata.
  pose proof (full_files_length maxRows _ Hfull) as Hlen.
  rewrite length_app. cbn [length].
  split.
  - nia.
  - intros Hmany.
    assert (0 < length (Dump.closed p)) by lia. nia.
Qed.

Lemma X25_witness :
  (Dump.tableRowCount (Dump.dumpRows 2 (fun _ => true) "n" fiveRows
                         (Dump.opened "n" 0))
   < Z.of_nat (length (Dump.scanned fiveRows)))%Z.
Proof.
  refine (proj2 (X25_summary_counts_last_file 2 (fun _ => true) "n" 0
                   fiveRows _ _ _) _).
  - reflexivity.
  - split; [reflexivity | discriminate].
  - reflexivity.
  - vm_compute. lia.
Defined.

(** ** The sample configuration *)

(** X26 ([createSampleConfig], [loadConfig], [main]): the options of
    the sample configuration name both a single user and a user list,
    so merged into any flags they are refused by [main] as mutually
    exclusive: the generated file starts no run until it is edited. *)
Theorem X26_sample_config_is_refused (fileExists : string -> bool)
    (connectMode : bool) (flags : Cli.Config) :
  Cli.validate fileExists connectMode (Cli.options flags (Some sampleConfig))
  = Some Cli.UsersExclusive.
Proof.
  unfold Cli.validate, Cli.options.
  cbn [Cli.loadConfig Cli.Host Cli.SingleUser Cli.UserList sampleConfig].
  assert (Hh : ((if (Cli.Host flags =? "")%string then "mysql.server.com"
                 else Cli.Host flags) =? "")%string = false).
  { apply String.eqb_neq.
    destruct (String.eqb_spec (Cli.Host flags) ""); [discriminate | assumption]. }
  rewrite Hh.
  assert (Hu : (Cli.textOr "" (Cli.SingleUser flags) "admin" =? "")%string
               = false).
  { apply String.eqb_neq. rewrite textOr_empty. intros [_ H]. discriminate. }
  assert (Hl : (Cli.textOr "" (Cli.UserList flags) "users.txt" =? "")%string
               = false).
  { apply String.eqb_neq. rewrite textOr_empty. intros [_ H]. discriminate. }
  rewrite Hu, Hl. reflexivity.
Qed.

(** ** The interactive loop *)

Lemma mapBytes_append f a b :
  mapBytes f (a ++ b) = (mapBytes f a ++ mapBytes f b)%string.
Proof.
  unfold mapBytes. now rewrite list_of_append, map_app, string_of_app.
Qed.

Lemma isASCII_append a b : isASCII (a ++ b) = isASCII a && isASCII b.
Proof. unfold isASCII. now rewrite list_of_append, forallb_app. Qed.

(** A line that is a [USE] command for the loop reaches the [USE]
    branch. *)
Lemma interactive_use unicodeUpper unicodeLower allowDangerous input kw rest :
  kw = "use " \/ kw = "USE " ->
  TrimSpace input = (kw ++ rest)%string ->
  isASCII rest = true ->
  interactiveLine unicodeUpper unicodeLower allowDangerous input
  = IUse (TrimSuffix
            (Trim (TrimPrefix (TrimSpace (TrimPrefix (kw ++ rest) "USE "))
                              "use ")
                  (String backtick (String apostrophe (String quote ""))))
            ";").
Proof.
  intros Hkw Ht Hascii. unfold interactiveLine, commandMatches.
  rewrite TrimSpace_idem, Ht.
  unfold ToLower, ToUpper. rewrite !isASCII_append, Hascii, !mapBytes_append.
  destruct Hkw as [-> | ->].
  - change (isASCII "use ") with true.
    change (mapBytes lowerByte "use ") with "use ".
    change (mapBytes upperByte "use ") with "USE ".
    reflexivity.
  - change (isASCII "USE ") with true.
    change (mapBytes lowerByte "USE ") with "use ".
    change (mapBytes upperByte "USE ") with "USE ".
    reflexivity.
Qed.

Lemma nameByte_facts c :
  nameByte c = true ->
  (N_of_ascii c <? 128)%N = true /\
  isAsciiSpace (N_of_ascii c) = false /\
  existsb (Ascii.eqb c) [backtick; apostrophe; quote] = false /\
  Ascii.eqb ";" c = false /\ Ascii.eqb " " c = false.
Proof.
  destruct c as [[] [] [] [] [] [] [] []]; vm_compute; intros H;
    try discriminate H; repeat split; reflexivity.
Qed.

Lemma dropCutset_keep cs x r :
  existsb (Ascii.eqb x) cs = false -> dropCutset cs (x :: r) = x :: r.
Proof. intros H. cbn [dropCutset]. now rewrite H. Qed.

Lemma dropCutset_app cs a r :
  forallb (fun c => existsb (Ascii.eqb c) cs) a = true ->
  dropCutset cs (a ++ r) = dropCutset cs r.
Proof.
  induction a as [|x a IH]; intros H; [reflexivity|].
  cbn [forallb] in H. apply andb_prop in H as [Hx Ha].
  cbn [app dropCutset]. rewrite Hx. now apply IH.
Qed.

(** [Trim] cuts exactly the bytes of the cut set around a text whose
    first and last byte are not in it. *)
Lemma Trim_core cutset a x m front z b :
  let cs := list_ascii_of_string cutset in
  forallb (fun c => existsb (Ascii.eqb c) cs) a = true ->
  forallb (fun c => existsb (Ascii.eqb c) cs) (rev b) = true ->
  existsb (Ascii.eqb x) cs = false ->
  existsb (Ascii.eqb z) cs = false ->
  x :: m = front ++ [z] ->
  forall whole, whole = a ++ (x :: m) ++ b ->
  Trim (string_of_list_ascii whole) cutset = string_of_list_ascii (x :: m).
Proof.
  intros cs Ha Hb Hx Hz Hlast whole ->. unfold Trim. fold cs.
  rewrite list_ascii_of_string_of_list_ascii. f_equal.
  rewrite !rev_app_distr, <- app_assoc, (dropCutset_app _ _ _ Hb).
  rewrite Hlast, rev_app_distr. cbn [rev app].
  rewrite (dropCutset_keep _ _ _ Hz).
  change (z :: rev front ++ rev a) with ((z :: rev front) ++ rev a).
  rewrite rev_app_distr, rev_involutive. cbn [rev].
  rewrite rev_involutive, (dropCutset_app _ _ _ Ha), <- Hlast.
  apply dropCutset_keep, Hx.
Qed.

Lemma name_ends n :
  n <> [] -> forallb nameByte n = true ->
  exists x m front z,
    n = x :: m /\ n = front ++ [z] /\ nameByte x = true /\ nameByte z = true.
Proof.
  intros Hn Hb. destruct (exists_last Hn) as (front & z & Hlast).
  destruct n as [|x m]; [done|].
  exists x, m, front, z. repeat split; auto.
  - cbn [forallb] in Hb. now apply andb_prop in Hb as [Hx _].
  - rewrite Hlast, forallb_app in Hb. apply andb_prop in Hb as [_ Hz].
    cbn [forallb] in Hz. now rewrite andb_true_r in Hz.
Qed.

Lemma TrimSuffix_semicolon l :
  TrimSuffix (string_of_list_ascii (l ++ [semicolon])) ";"
  = string_of_list_ascii l.
Proof.
  unfold TrimSuffix. rewrite list_ascii_of_string_of_list_ascii.
  rewrite rev_app_distr. cbn. now rewrite rev_involutive.
Qed.

Lemma TrimSuffix_none front z :
  Ascii.eqb ";" z = false ->
  TrimSuffix (string_of_list_ascii (front ++ [z])) ";"
  = string_of_list_ascii (front ++ [z]).
Proof.
  intros H. unfold TrimSuffix. rewrite list_ascii_of_string_of_list_ascii.
  rewrite rev_app_distr.
  change (rev (list_ascii_of_string ";")) with [";"%char].
  cbn [rev app stripPrefix]. now rewrite H.
Qed.

(** A trimmed text stays trimmed when a prefix is taken off in front
    of a byte that is not white space. *)
Lemma TrimSpace_tail (a r : list ascii) :
  TrimSpace (string_of_list_ascii (a ++ r)) = string_of_list_ascii (a ++ r) ->
  headSpace spaceRune2 spaceRune3 r = false ->
  TrimSpace (string_of_list_ascii r) = string_of_list_ascii r.
Proof.
  unfold TrimSpace. rewrite !list_ascii_of_string_of_list_ascii.
  intros Ht Hh. apply string_of_inj in Ht. f_equal.
  assert (Hl : trimLeft (a ++ r) = a ++ r).
  { rewrite <- Ht at 1. rewrite trimLeft_of_trimmed. exact Ht. }
  rewrite Hl in Ht. unfold trimLeft. rewrite (trimWith_id _ _ _ Hh).
  unfold trimRight in *. apply (f_equal (@rev ascii)) in Ht.
  rewrite rev_involutive, rev_app_distr in Ht.
  rewrite trimWith_id; [apply rev_involutive|].
  match goal with |- headSpace ?p ?q _ = false =>
    destruct (headSpace p q (rev r)) eqn:E; [|reflexivity];
    pose proof (trimWith_head p q (rev r ++ rev a)) as Hd;
    rewrite Ht, (headSpace_app p q _ (rev a) E) in Hd; discriminate
  end.
Qed.

Lemma headSpace_plain x r :
  (N_of_ascii x <? 128)%N = true -> isAsciiSpace (N_of_ascii x) = false ->
  headSpace spaceRune2 spaceRune3 (x :: r) = false.
Proof.
  intros Hx Hs. apply N.ltb_lt in Hx.
  assert (H2 : forall b, spaceRune2 (N_of_ascii x) b = false).
  { intros b. unfold spaceRune2.
    destruct (N.eqb_spec (N_of_ascii x) 194); [lia | reflexivity]. }
  assert (H3 : forall b c, spaceRune3 (N_of_ascii x) b c = false).
  { intros b c. unfold spaceRune3.
    destruct (N.eqb_spec (N_of_ascii x) 225); [lia|].
    destruct (N.eqb_spec (N_of_ascii x) 226); [lia|].
    destruct (N.eqb_spec (N_of_ascii x) 227); [lia | reflexivity]. }
  destruct r as [|c2 [|c3 r3]]; cbn [headSpace]; rewrite Hs, ?H2, ?H3;
    reflexivity.
Qed.

(** A plain name, with or without a semicolon, does not open with
    [use ] itself. *)
Lemma stripPrefix_name n tail :
  forallb nameByte n = true -> tail = [] \/ tail = [semicolon] ->
  stripPrefix (list_ascii_of_string "use ") (n ++ tail) = None.
Proof.
  intros Hb Ht.
  assert (Hsp : forall c, nameByte c = true -> Ascii.eqb " " c = false)
    by (intros c Hc; now apply nameByte_facts in Hc).
  change (list_ascii_of_string "use ") with ["u"; "s"; "e"; " "]%char.
  destruct n as [|c1 [|c2 [|c3 [|c4 r]]]]; cbn [forallb] in Hb;
    repeat (apply andb_prop in Hb as [? Hb]);
    destruct Ht as [-> | ->]; cbn [app stripPrefix];
    repeat match goal with
           | |- context [Ascii.eqb " " ?c] =>
               first [rewrite (Hsp c) by assumption
                     | change (Ascii.eqb " " semicolon) with false]
           | |- context [if Ascii.eqb ?a ?c then _ else _] =>
               destruct (Ascii.eqb a c)
           end; reflexivity.
Qed.

(** The text after the keyword, as the [USE] branch takes it. *)
Lemma use_dbNamePart input kw rest :
  kw = "use " \/ kw = "USE " ->
  TrimSpace input = (kw ++ string_of_list_ascii rest)%string ->
  headSpace spaceRune2 spaceRune3 rest = false ->
  stripPrefix (list_ascii_of_string "use ") rest = None ->
  TrimPrefix (TrimSpace (TrimPrefix (kw ++ string_of_list_ascii rest) "USE "))
             "use "
  = string_of_list_ascii rest.
Proof.
  intros [-> | ->] Ht Hh Hs.
  - change (TrimPrefix ("use " ++ string_of_list_ascii rest) "USE ")
      with ("use " ++ string_of_list_ascii rest)%string.
    rewrite <- Ht, TrimSpace_idem, Ht.
    change (TrimPrefix ("use " ++ string_of_list_ascii rest) "use ")
      with (string_of_list_ascii
              (list_ascii_of_string (string_of_list_ascii rest))).
    now rewrite list_ascii_of_string_of_list_ascii.
  - change (TrimPrefix ("USE " ++ string_of_list_ascii rest) "USE ")
      with (string_of_list_ascii
              (list_ascii_of_string (string_of_list_ascii rest))).
    rewrite list_ascii_of_string_of_list_ascii.
    rewrite (TrimSpace_tail (list_ascii_of_string "USE ") rest).
    + unfold TrimPrefix. rewrite list_ascii_of_string_of_list_ascii.
      now rewrite Hs.
    + rewrite string_of_app.
      change (string_of_list_ascii (list_ascii_of_string "USE "))
        with "USE ".
      rewrite <- Ht. apply TrimSpace_idem.
    + exact Hh.
Qed.

Lemma use_line unicodeUpper unicodeLower allowDangerous input kw
    pre n post expected :
  kw = "use " \/ kw = "USE " ->
  n <> [] -> forallb nameByte n = true ->
  (pre, post, expected) = ([], [], n) \/
  (pre, post, expected) = ([], [semicolon], n) \/
  (pre, post, expected) = ([backtick], [backtick], n) \/
  (pre, post, expected) = ([backtick], [backtick; semicolon], n ++ [backtick]) ->
  TrimSpace input = (kw ++ string_of_list_ascii (pre ++ n ++ post))%string ->
  interactiveLine unicodeUpper unicodeLower allowDangerous input
  = IUse (string_of_list_ascii expected).
Proof.
  intros Hkw Hn Hb Hform Ht.
  destruct (name_ends n Hn Hb) as (x & m & front & z & Hfirst & Hlast & Hx & Hz).
  destruct (nameByte_facts x Hx) as (Hx1 & Hx2 & Hx3 & _ & _).
  destruct (nameByte_facts z Hz) as (_ & _ & Hz3 & Hz4 & _).
  assert (Hascii : isASCII (string_of_list_ascii (pre ++ n ++ post)) = true).
  { unfold isASCII. rewrite list_ascii_of_string_of_list_ascii, !forallb_app.
    assert (Hn' : forallb (fun c => (N_of_ascii c <? 128)%N) n = true).
    { apply forallb_forall. intros c Hc.
      rewrite List.forallb_forall in Hb. now apply Hb, nameByte_facts in Hc. }
    rewrite Hn'.
    destruct Hform as [H|[H|[H|H]]]; injection H as -> -> _; reflexivity. }
  rewrite (interactive_use _ _ _ _ _ _ Hkw Ht Hascii).
  rewrite (use_dbNamePart _ _ _ Hkw Ht).
  - f_equal.
    set (cutset := String backtick (String apostrophe (String quote ""))).
    destruct Hform as [H|[H|[H|H]]]; injection H as -> -> ->.
    + rewrite (Trim_core cutset [] x m front z [] eq_refl eq_refl Hx3 Hz3)
        by (congruence || (cbn [app]; now rewrite app_nil_r)).
      rewrite <- Hfirst, Hlast. now apply TrimSuffix_none.
    + rewrite (Trim_core cutset [] x (m ++ [semicolon]) (x :: m) semicolon []
                 eq_refl eq_refl Hx3 eq_refl eq_refl)
        by (cbn [app]; now rewrite app_nil_r, Hfirst).
      rewrite Hfirst. apply (TrimSuffix_semicolon (x :: m)).
    + rewrite (Trim_core cutset [backtick] x m front z [backtick]
                 eq_refl eq_refl Hx3 Hz3)
        by (congruence || now rewrite Hfirst).
      rewrite <- Hfirst, Hlast. now apply TrimSuffix_none.
    + rewrite (Trim_core cutset [backtick] x (m ++ [backtick; semicolon])
                 ((x :: m) ++ [backtick]) semicolon []
                 eq_refl eq_refl Hx3 eq_refl)
        by (rewrite ?Hfirst, ?app_nil_r; cbn [app];
            now rewrite <- ?app_assoc).
      rewrite Hfirst.
      change (x :: m ++ [backtick; semicolon])
        with ((x :: m) ++ [backtick; semicolon]).
      replace ((x :: m) ++ [backtick; semicolon])
        with (((x :: m) ++ [backtick]) ++ [semicolon])
        by now rewrite <- app_assoc.
      apply (TrimSuffix_semicolon ((x :: m) ++ [backtick])).
  - destruct Hform as [H|[H|[H|H]]]; injection H as -> -> _;
      try reflexivity; rewrite Hfirst; cbn [app];
      now apply headSpace_plain.
  - destruct Hform as [H|[H|[H|H]]]; injection H as -> -> _;
      try reflexivity.
    + apply (stripPrefix_name n []); [exact Hb | now left].
    + apply (stripPrefix_name n [semicolon]); [exact Hb | now right].
Qed.

(** X27 ([enterInteractiveMode]): a line [use name], [use name;] or
    [use `name`], with the keyword in lower or in upper case and a
    name of letters, digits and underscores, selects the database
    [name]. *)
Theorem X27_use_selects_the_name
    (unicodeUpper unicodeLower : string -> string) (allowDangerous : bool)
    (input kw name : string)
    (Hkw : kw = "use " \/ kw = "USE ")
    (Hname : name <> "")
    (Hbytes : forallb nameByte (list_ascii_of_string name) = true)
    (Hline : TrimSpace input = (kw ++ name)%string \/
             TrimSpace input = (kw ++ name ++ ";")%string \/
             TrimSpace input
             = (kw ++ String backtick (name ++ String backtick ""))%string) :
  interactiveLine unicodeUpper unicodeLower allowDangerous input = IUse name.
Proof.
  assert (Hn : list_ascii_of_string name <> []).
  { intros E. apply Hname.
    now rewrite <- (string_of_list_ascii_of_string name), E. }
  rewrite <- (string_of_list_ascii_of_string name).
  destruct Hline as [Ht|[Ht|Ht]].
  - apply (use_line _ _ _ _ kw [] (list_ascii_of_string name) []);
      [exact Hkw | exact Hn | exact Hbytes | now left |].
    rewrite Ht, app_nil_r. cbn [app].
    now rewrite string_of_list_ascii_of_string.
  - apply (use_line _ _ _ _ kw [] (list_ascii_of_string name) [semicolon]);
      [exact Hkw | exact Hn | exact Hbytes | now right; left |].
    rewrite Ht. cbn [app].
    now rewrite string_of_app, string_of_list_ascii_of_string.
  - apply (use_line _ _ _ _ kw [backtick] (list_ascii_of_string name)
             [backtick]);
      [exact Hkw | exact Hn | exact Hbytes | now right; right; left |].
    rewrite Ht. cbn [app string_of_list_ascii].
    now rewrite string_of_app, string_of_list_ascii_of_string.
Qed.

Lemma X27_witness :
  interactiveLine (fun s => s) (fun s => s) false "USE shop;" = IUse "shop".
Proof.
  refine (X27_use_selects_the_name (fun s => s) (fun s => s) false
            "USE shop;" "USE " "shop" _ _ eq_refl _).
  - right. reflexivity.
  - discriminate.
  - right. left. reflexivity.
Defined.

(** X28 ([enterInteractiveMode]): the line that the database list of
    the loop suggests, [use `name`;], does not select [name]: the
    semicolon keeps the closing backtick from being cut, so the name
    handed to [USE] is [name] with a backtick at its end. *)
Theorem X28_hinted_use_keeps_a_backtick
    (unicodeUpper unicodeLower : string -> string) (allowDangerous : bool)
    (input kw name : string)
    (Hkw : kw = "use " \/ kw = "USE ")
    (Hname : name <> "")
    (Hbytes : forallb nameByte (list_ascii_of_string name) = true)
    (Hline : TrimSpace input
             = (kw ++ String backtick (name ++ String backtick ";"))%string) :
  interactiveLine unicodeUpper unicodeLower allowDangerous input
  = IUse (name ++ String backtick "").
Proof.
  assert (Hn : list_ascii_of_string name <> []).
  { intros E. apply Hname.
    now rewrite <- (string_of_list_ascii_of_string name), E. }
  replace (name ++ String backtick "")%string
    with (string_of_list_ascii (list_ascii_of_string name ++ [backtick]))
    by now rewrite string_of_app, string_of_list_ascii_of_string.
  apply (use_line _ _ _ _ kw [backtick] (list_ascii_of_string name)
           [backtick; semicolon]);
    [exact Hkw | exact Hn | exact Hbytes | now do 3 right |].
  rewrite Hline. cbn [app string_of_list_ascii].
  now rewrite string_of_app, string_of_list_ascii_of_string.
Qed.

Lemma X28_witness :
  interactiveLine (fun s => s) (fun s => s) false hintedUse
  = IUse ("shop" ++ String backtick "").
Proof.
  refine (X28_hinted_use_keeps_a_backtick (fun s => s) (fun s => s) false
            hintedUse "use " "shop" _ _ eq_refl eq_refl).
  - left. reflexivity.
  - discriminate.
Defined.

(** ** Data source names *)

Lemma formatInt_examples :
  formatInt 3306 = "3306" /\ formatInt 0 = "0" /\ formatInt (-7) = "-7".
Proof. repeat split; reflexivity. Qed.

Lemma Contains_byte s c :
  Contains s (String c "") = existsb (Ascii.eqb c) (list_ascii_of_string s).
Proof.
  unfold Contains. cbn [list_ascii_of_string].
  induction (list_ascii_of_string s) as [|x r IH]; [reflexivity|].
  cbn [containsAt prefixOf existsb]. now rewrite andb_true_r, IH.
Qed.

Lemma Contains_byte_append a b c :
  Contains (a ++ b) (String c "")
  = Contains a (String c "") || Contains b (String c "").
Proof. now rewrite !Contains_byte, list_of_append, existsb_app. Qed.

Lemma formatInt_digits z : Contains (formatInt z) "?" = false.
Proof.
  rewrite Contains_byte. unfold formatInt.
  assert (Hu : forall u,
            existsb (Ascii.eqb "?")
              (list_ascii_of_string
                 (DecimalString.NilEmpty.string_of_uint u)) = false).
  { induction u; cbn; auto. }
  unfold DecimalString.NilZero.string_of_int,
    DecimalString.NilZero.string_of_uint.
  destruct (Z.to_int z) as [u|u]; destruct u; cbn; rewrite ?Hu; reflexivity.
Qed.

(** X29 ([testLogin]): the name for the connection of the dump is the
    name of the trial connection with [multiStatements=true] added,
    unless that text already occurs in it, in the user name or the
    password for instance.  The option is added after [&], except
    with [--skip-ssl] when neither the user name, the password nor the
    host holds a question mark: a question mark in the password makes
    the option follow [&] in a name that has no [?] in front of its
    options. *)
Theorem X29_dump_connection_name (cfg : Cli.Config) (user pass : string) :
  dumpDSNOf cfg user pass
  = (dsnOf cfg user pass
     ++ (if Contains (dsnOf cfg user pass) "multiStatements=true" then ""
         else if Cli.SkipSSL cfg
                 && negb (Contains user "?" || Contains pass "?"
                          || Contains (Cli.Host cfg) "?")
              then "?multiStatements=true"
              else "&multiStatements=true"))%string.
Proof.
  unfold dumpDSNOf.
  destruct (Contains (dsnOf cfg user pass) "multiStatements=true");
    cbn [negb].
  { clear. induction (dsnOf cfg user pass) as [|c s IH]; cbn; congruence. }
  assert (Hq : Contains (dsnOf cfg user pass) "?"
               = negb (Cli.SkipSSL cfg)
                 || (Contains user "?" || Contains pass "?"
                     || Contains (Cli.Host cfg) "?")).
  { unfold dsnOf. destruct (Cli.SkipSSL cfg); cbn [negb andb orb];
      rewrite !Contains_byte_append, formatInt_digits.
    - change (Contains ":" "?") with false.
      change (Contains "@tcp(" "?") with false.
      change (Contains ")/" "?") with false.
      destruct (Contains user "?"), (Contains pass "?"),
        (Contains (Cli.Host cfg) "?"); reflexivity.
    - change (Contains ":" "?") with false.
      change (Contains "@tcp(" "?") with false.
      change (Contains ")/" "?") with false.
      change (Contains "?tls=" "?") with true.
      destruct (Contains user "?"), (Contains pass "?"),
        (Contains (Cli.Host cfg) "?"); reflexivity. }
  rewrite Hq.
  destruct (Cli.SkipSSL cfg); cbn [negb andb orb]; [|reflexivity].
  destruct (Contains user "?" || Contains pass "?"
            || Contains (Cli.Host cfg) "?"); reflexivity.
Qed.

Example dumpDSN_question_mark :
  dumpDSNOf skipSslFlags "root" "why?"
  = "root:why?@tcp(db:3306)/&multiStatements=true".
Proof. vm_compute. reflexivity. Qed.
